(** * A shallow embedding of the twitch-bot command pipeline

    The development follows the Python sources file by file:
    [message.py] (the IRC line parser), [command.py] (roles, the parameter
    grammar, denial handling and command execution), [channel.py] (the
    outbound messenger), [bot.py] (the dispatch loop), [twirc.py] (the
    lines the client sends) and [default.py] (the cooldown timer and the
    command [say]).

    Conventions.
    - A Python [str] is a sequence of Unicode code points: [str := list N].
      String literals of the source are written [py "..."].
    - A Python [int] used as a bit set ([IntFlag], [Flag]) is an [N] and
      the operators [&], [|] are [N.land], [N.lor].
    - Code that may raise returns a [result]: [Ok v] or [Raise e].
    - A [dict] is an insertion-ordered association list ([dict K V]); this
      is the order Python iterates it in.
    - A reading of [time.perf_counter()] is an explicit argument; the
      readings and the expiry times are rationals ([Q]), the values of
      the source's floats.  Float subtraction rounds, so a float
      difference is never computed here: a console line that shows one
      is recorded with the two numbers it is taken of, and a test of the
      sign of a difference is the test on the exact difference, which
      has the same sign.  The expiry that [apply_cooldown] stores is
      written as the sum of the reading and the length.
    - Console output ([print], [printc]) and websocket sends are collected
      as a list of [Output]s; colours are not modelled.
    - A raised exception ends the modelled call: the state it leaves
      behind is tracked only where the source catches it. *)

From Stdlib Require Import List NArith ZArith QArith Bool String Ascii Lia.
Import ListNotations.
Close Scope Q_scope.

Set Implicit Arguments.

(* ================================================================== *)
(** * Python strings, exceptions and dictionaries *)
(* ================================================================== *)

Module Py.

Definition char := N.
Definition str := list char.

(** A source literal as a sequence of code points. *)
Definition py (s : string) : str :=
  map N_of_ascii (list_ascii_of_string s).

Fixpoint str_eqb (a b : str) : bool :=
  match a, b with
  | [], [] => true
  | x :: a', y :: b' => N.eqb x y && str_eqb a' b'
  | _, _ => false
  end.

(** [bool(s)] for a string: non-empty. *)
Definition nonempty (s : str) : bool :=
  match s with [] => false | _ :: _ => true end.

(** [s.startswith(p)] *)
Fixpoint startswith (p s : str) : bool :=
  match p, s with
  | [], _ => true
  | x :: p', y :: s' => N.eqb x y && startswith p' s'
  | _ :: _, [] => false
  end.

(** [s.endswith(p)] *)
Definition endswith (p s : str) : bool :=
  startswith (rev p) (rev s).

(** [s.find(sub)] counted from the head of [s]: the first index at which
    [sub] occurs, [None] when it does not ([str.index] raises ValueError
    there, [sub in s] is false). *)
Fixpoint find (sub s : str) : option nat :=
  if startswith sub s then Some 0%nat
  else match s with
       | [] => None
       | _ :: s' => option_map S (find sub s')
       end.

(** [sub in s] *)
Definition contains (sub s : str) : bool :=
  match find sub s with Some _ => true | None => false end.

(** [s.index(sub, start)] as an option. *)
Definition find_from (sub s : str) (start : nat) : option nat :=
  option_map (fun i => (start + i)%nat) (find sub (skipn start s)).

(** [s[a:]], [s[:b]] and [s[a:b]] for non-negative bounds. *)
Definition slice_from (a : nat) (s : str) : str := skipn a s.
Definition slice_to (b : nat) (s : str) : str := firstn b s.
Definition slice (a b : nat) (s : str) : str := firstn (b - a) (skipn a s).

(** [sep.join(parts)] *)
Fixpoint join (sep : str) (parts : list str) : str :=
  match parts with
  | [] => []
  | [p] => p
  | p :: rest => p ++ sep ++ join sep rest
  end.

(** [s.split(sep, maxsplit)] for a non-empty separator.  [maxsplit = None]
    is the one-argument form.  [skip] counts the characters of a matched
    separator that are still to be dropped, [cur] is the piece being
    collected (reversed). *)
Fixpoint split_aux (sep : str) (maxsplit : option nat) (s : str)
         (skip : nat) (cur : str) : list str :=
  match s with
  | [] => [rev cur]
  | c :: s' =>
      match skip with
      | S k => split_aux sep maxsplit s' k cur
      | O =>
          match maxsplit with
          | Some O => split_aux sep maxsplit s' 0 (c :: cur)
          | _ =>
              if startswith sep s
              then rev cur ::
                   split_aux sep (option_map pred maxsplit) s'
                             (List.length sep - 1) []
              else split_aux sep maxsplit s' 0 (c :: cur)
          end
      end
  end.

Definition split (sep : str) (s : str) : list str :=
  split_aux sep None s 0 [].

Definition split_max (sep : str) (maxsplit : nat) (s : str) : list str :=
  split_aux sep (Some maxsplit) s 0 [].

(** The code points for which [str.isspace] holds; [str.split()] and
    [str.strip()] without arguments cut on exactly these. *)
Definition is_space (c : char) : bool :=
  ((9 <=? c) && (c <=? 13) || (28 <=? c) && (c <=? 32)
   || (c =? 133) || (c =? 160) || (c =? 5760)
   || (8192 <=? c) && (c <=? 8202)
   || (c =? 8232) || (c =? 8233) || (c =? 8239) || (c =? 8287)
   || (c =? 12288))%N.

(** [s.split()]: the maximal runs of non-whitespace. *)
Fixpoint split_ws_aux (s : str) (cur : str) : list str :=
  match s with
  | [] => match cur with [] => [] | _ => [rev cur] end
  | c :: s' =>
      if is_space c
      then match cur with
           | [] => split_ws_aux s' []
           | _ => rev cur :: split_ws_aux s' []
           end
      else split_ws_aux s' (c :: cur)
  end.

Definition split_ws (s : str) : list str := split_ws_aux s [].

Fixpoint dropwhile (p : char -> bool) (s : str) : str :=
  match s with
  | [] => []
  | c :: s' => if p c then dropwhile p s' else s
  end.

Definition strip_with (p : char -> bool) (s : str) : str :=
  rev (dropwhile p (rev (dropwhile p s))).

(** [s.strip()] *)
Definition strip (s : str) : str := strip_with is_space s.

(** [s.strip(chars)] *)
Definition strip_chars (chars : str) (s : str) : str :=
  strip_with (fun c => existsb (N.eqb c) chars) s.

(** A word: a string that is not empty and has no whitespace in it. *)
Definition is_word (s : str) : bool :=
  nonempty s && forallb (fun c => negb (is_space c)) s.

(** A text: a string that is not empty and that [strip()] leaves as it
    is, so it may have whitespace inside but not at either end. *)
Definition is_text (s : str) : bool :=
  nonempty s && str_eqb (strip s) s.

(** No whitespace at the head or at the end of a non-empty string. *)
Definition trimmed (s : str) : Prop :=
  s <> [] /\ dropwhile is_space s = s
  /\ dropwhile is_space (rev s) = rev s.

(** [x in xs] for a list or set of strings. *)
Definition mem (x : str) (xs : list str) : bool :=
  existsb (str_eqb x) xs.

(** A Python [set] of strings built from a list: duplicates dropped. *)
Fixpoint to_set (xs : list str) : list str :=
  match xs with
  | [] => []
  | x :: xs' => if mem x xs' then to_set xs' else x :: to_set xs'
  end.

(** ** Exceptions *)

(** The reasons [Parameters.parse_args] gives for an [ArgumentError]
    (the last one is for command bodies, which raise it with a text of
    their own), and [Parameters.from_syntax] for a [ParameterError]. *)
Inductive ArgumentReason :=
| NoArguments
| ArgumentCount (min_args max_args : nat)
| FormatError
| NotInOptions (arg : str) (options : list str)
| InsufficientPerms (name : str) (perm : N)
| BodyArgumentError (text : str).

Inductive ParameterReason :=
| OptionalBeforeRequired
| RemainderNotLast
| DuplicateParameters.

Inductive exn :=
| IndexError
| AssertionError
| AttributeError
| KeyError (key : str)
| ValueError
| RuntimeError (text : str)
| ParameterError (why : ParameterReason)
| ArgumentError (why : ArgumentReason).

Inductive result (A : Type) :=
| Ok (a : A)
| Raise (e : exn).
Arguments Ok {A} a.
Arguments Raise {A} e.

Definition bind {A B} (r : result A) (k : A -> result B) : result B :=
  match r with
  | Ok a => k a
  | Raise e => Raise e
  end.

(** [assert c] *)
Definition assert (c : bool) : result unit :=
  if c then Ok tt else Raise AssertionError.

(** ** Dictionaries, in insertion order *)

Definition dict (V : Type) := list (str * V).

Fixpoint get {V} (d : dict V) (k : str) : option V :=
  match d with
  | [] => None
  | (k', v) :: d' => if str_eqb k k' then Some v else get d' k
  end.

(** [d[k] = v]: an existing key keeps its place, a new key goes last. *)
Fixpoint set {V} (d : dict V) (k : str) (v : V) : dict V :=
  match d with
  | [] => [(k, v)]
  | (k', v') :: d' =>
      if str_eqb k k' then (k', v) :: d' else (k', v') :: set d' k v
  end.

Definition has_key {V} (d : dict V) (k : str) : bool :=
  match get d k with Some _ => true | None => false end.

Definition values {V} (d : dict V) : list V := map snd d.
Definition keys {V} (d : dict V) : list str := map fst d.

(** [d[k]], which raises [KeyError] on a missing key. *)
Definition getitem {V} (d : dict V) (k : str) : result V :=
  match get d k with
  | Some v => Ok v
  | None => Raise (KeyError k)
  end.

End Py.

Import Py.

Declare Scope py_scope.
Delimit Scope py_scope with py.
Notation "x <- r ;; k" := (bind r (fun x => k))
  (at level 61, r at next level, right associativity) : py_scope.
Notation "r ;;; k" := (bind r (fun _ => k))
  (at level 61, right associativity) : py_scope.
Open Scope py_scope.

(* ================================================================== *)
(** * message.py: the typed IRC messages and their parser *)
(* ================================================================== *)

(** [class ChatMessage(Message)]: the dataclass the command pipeline
    receives. *)
Module ChatMessage.
Record t := Build {
  raw : str;
  type_ : str;
  channel : str;
  user : str;
  message : str;
  tags : dict str
}.
End ChatMessage.

(** The dataclass hierarchy under [Message], one constructor per class,
    fields in declaration order ([raw] and [type_] first). *)
Inductive Message :=
| BaseMessage (raw type_ : str)
| LoginMessage (raw type_ : str)
| CapabilitiesMessage (raw type_ : str) (capabilities : list str)
| PingMessage (raw type_ : str)
| ReconnectMessage (raw type_ : str)
| JoinMessage (raw type_ channel user : str)
| PartMessage (raw type_ channel user : str)
| NamesMessage (raw type_ channel : str) (users : list str)
| EndOfNamesMessage (raw type_ channel : str)
| NoticeMessage (raw type_ channel message : str) (tags : dict str)
| UserstateMessage (raw type_ channel : str) (tags : dict str)
| RoomstateMessage (raw type_ channel : str) (tags : dict str)
| ClearchatMessage (raw type_ channel : str) (user : option str)
                   (tags : dict str)
| ClearmsgMessage (raw type_ channel message : str) (tags : dict str)
| UsernoticeMessage (raw type_ channel : str) (message : option str)
                    (tags : dict str)
| WhisperMessage (raw type_ from_ to message : str) (tags : dict str)
| Chat (m : ChatMessage.t).


Definition msg_type (m : Message) : str :=
  match m with
  | BaseMessage _ t | LoginMessage _ t | CapabilitiesMessage _ t _
  | PingMessage _ t | ReconnectMessage _ t | JoinMessage _ t _ _
  | PartMessage _ t _ _ | NamesMessage _ t _ _ | EndOfNamesMessage _ t _
  | NoticeMessage _ t _ _ _ | UserstateMessage _ t _ _
  | RoomstateMessage _ t _ _ | ClearchatMessage _ t _ _ _
  | ClearmsgMessage _ t _ _ _ | UsernoticeMessage _ t _ _ _
  | WhisperMessage _ t _ _ _ _ => t
  | Chat m => ChatMessage.type_ m
  end.

(** [msg.channel]: an attribute of the classes that declare it only. *)
Definition msg_channel (m : Message) : option str :=
  match m with
  | JoinMessage _ _ c _ | PartMessage _ _ c _ | NamesMessage _ _ c _
  | EndOfNamesMessage _ _ c | NoticeMessage _ _ c _ _
  | UserstateMessage _ _ c _ | RoomstateMessage _ _ c _
  | ClearchatMessage _ _ c _ _ | ClearmsgMessage _ _ c _ _
  | UsernoticeMessage _ _ c _ _ => Some c
  | Chat m => Some (ChatMessage.channel m)
  | _ => None
  end.

(** The types that [MessageParser.from_raw] matches on. *)
Definition matched_types : list str :=
  [py "001"; py "CAP * ACK"; py "353"; py "RECONNECT"; py "JOIN";
   py "PART"; py "366"; py "NOTICE"; py "USERSTATE"; py "ROOMSTATE";
   py "CLEARCHAT"; py "CLEARMSG"; py "USERNOTICE"; py "WHISPER";
   py "PRIVMSG"].

(** A message is well formed when its class is the one its type calls
    for (the base class for a type that is not matched on) and each field
    its class declares as a plain string is not empty. *)
Definition well_formed (m : Message) : bool :=
  match m with
  | BaseMessage _ t => negb (mem t matched_types)
  | LoginMessage _ t => str_eqb t (py "001")
  | CapabilitiesMessage _ t _ => str_eqb t (py "CAP * ACK")
  | PingMessage _ t => str_eqb t (py "PING")
  | ReconnectMessage _ t => str_eqb t (py "RECONNECT")
  | JoinMessage _ t c u => str_eqb t (py "JOIN") && nonempty c && nonempty u
  | PartMessage _ t c u => str_eqb t (py "PART") && nonempty c && nonempty u
  | NamesMessage _ t c _ => str_eqb t (py "353") && nonempty c
  | EndOfNamesMessage _ t c => str_eqb t (py "366") && nonempty c
  | NoticeMessage _ t c m _ =>
      str_eqb t (py "NOTICE") && nonempty c && nonempty m
  | UserstateMessage _ t c _ => str_eqb t (py "USERSTATE") && nonempty c
  | RoomstateMessage _ t c _ => str_eqb t (py "ROOMSTATE") && nonempty c
  | ClearchatMessage _ t c _ _ => str_eqb t (py "CLEARCHAT") && nonempty c
  | ClearmsgMessage _ t c m _ =>
      str_eqb t (py "CLEARMSG") && nonempty c && nonempty m
  | UsernoticeMessage _ t c _ _ => str_eqb t (py "USERNOTICE") && nonempty c
  | WhisperMessage _ t f o m _ =>
      str_eqb t (py "WHISPER") && nonempty f && nonempty o && nonempty m
  | Chat m =>
      str_eqb (ChatMessage.type_ m) (py "PRIVMSG")
      && nonempty (ChatMessage.channel m) && nonempty (ChatMessage.user m)
      && nonempty (ChatMessage.message m)
  end.

Module MessageParser.

(** [re.fullmatch] of the tag pattern: two groups of any characters with
    an [=] between them.  The dot excludes the newline and the first
    group is greedy, so a tag matches when it has an [=] and no newline,
    and it is cut at its last [=]. *)
Definition match_tag (tag : str) : option (str * str) :=
  if contains [10%N] tag then None
  else match find (py "=") (rev tag) with
       | Some j => Some (rev (skipn (S j) (rev tag)),
                         rev (firstn j (rev tag)))
       | None => None
       end.

Definition _parse_tags (raw_tags : str) : dict str :=
  fold_left
    (fun tags tag =>
       match match_tag tag with
       | Some (k, v) => Py.set tags k v
       | None => tags
       end)
    (split (py ";") raw_tags) [].

(** The class [[a-z0-9_]]. *)
Definition is_name_char (c : char) : bool :=
  ((97 <=? c) && (c <=? 122) || (48 <=? c) && (c <=? 57) || (c =? 95))%N.

Fixpoint takewhile (p : char -> bool) (s : str) : str :=
  match s with
  | [] => []
  | c :: s' => if p c then c :: takewhile p s' else []
  end.

(** [re.match] of the user pattern: the group is the longest run of
    name characters, which must be followed by [!], the name again, [@]
    and the name again. *)
Definition match_user (command : str) : option str :=
  let name := takewhile is_name_char command in
  match name with
  | [] => None
  | _ =>
      if startswith (py "!" ++ name ++ py "@" ++ name)
                    (skipn (List.length name) command)
      then Some name else None
  end.

Definition _parse_user (command : str) : option str :=
  if startswith (py "jtv ") command
     || startswith (py "tmi.twitch.tv ") command
  then None
  else match_user command.

Definition _parse_type (command : str) : result str :=
  if contains (py "CAP * ACK") command then Ok (py "CAP * ACK")
  else match nth_error (split_ws command) 1 with
       | Some t => Ok t
       | None => Raise IndexError
       end.

Definition _parse_params (command msg_type : str) : result (option str) :=
  match find msg_type command with
  | None => Raise ValueError
  | Some i =>
      let params := slice_from (i + 1 + List.length msg_type) command in
      Ok (if nonempty params then Some params else None)
  end.

Definition _parse_channel (params : option str) : option str :=
  match params with
  | None => None
  | Some params =>
      match find (py "#") params with
      | None => None
      | Some chan_index =>
          Some (match find_from (py " ") params chan_index with
                | Some stop => slice (chan_index + 1) stop params
                | None => slice_from (chan_index + 1) params
                end)
      end
  end.

Definition _parse_message (data : list str) : result (option str) :=
  match data with
  | [] => Ok None
  | _ =>
      let message := join (py " :") data in
      match message with
      | [] => Raise IndexError
      | c0 :: _ =>
          let message :=
            if (c0 =? 1)%N && str_eqb (slice 1 7 message) (py "ACTION")
            then py "/me" ++ removelast (slice_from 7 message)
            else message in
          Ok (Some (strip message))
      end
  end.

(** [assert x] for an optional string, giving the string it holds. *)
Definition required (x : option str) : result str :=
  match x with
  | Some (c :: s) => Ok (c :: s)
  | _ => Raise AssertionError
  end.

Definition from_raw (raw : str) : result Message :=
  let data := split (py " :") raw in
  let '(tags, data) :=
    match data with
    | d0 :: rest =>
        if startswith (py "@") d0
        then (_parse_tags (slice_from 1 d0), rest)
        else ([], data)
    | [] => ([], data)
    end in
  match data with
  | [] => Raise IndexError
  | d :: data =>
      let command := strip_chars (py ":") d in
      if startswith (py "PING") command
      then Ok (PingMessage raw (slice_to 4 command))
      else
        let user := _parse_user command in
        type_ <- _parse_type command ;;
        params <- _parse_params command type_ ;;
        let channel := _parse_channel params in
        message <- _parse_message data ;;
        if str_eqb type_ (py "001") then
          Ok (LoginMessage raw type_)
        else if str_eqb type_ (py "CAP * ACK") then
          message <- required message ;;
          Ok (CapabilitiesMessage raw type_
                (map (slice_from 10) (split_ws message)))
        else if str_eqb type_ (py "353") then
          channel <- required channel ;;
          message <- required message ;;
          Ok (NamesMessage raw type_ channel (split_ws message))
        else if str_eqb type_ (py "RECONNECT") then
          Ok (ReconnectMessage raw type_)
        else if str_eqb type_ (py "JOIN") then
          channel <- required channel ;;
          user <- required user ;;
          Ok (JoinMessage raw type_ channel user)
        else if str_eqb type_ (py "PART") then
          channel <- required channel ;;
          user <- required user ;;
          Ok (PartMessage raw type_ channel user)
        else if str_eqb type_ (py "366") then
          channel <- required channel ;;
          Ok (EndOfNamesMessage raw type_ channel)
        else if str_eqb type_ (py "NOTICE") then
          channel <- required channel ;;
          message <- required message ;;
          Ok (NoticeMessage raw type_ channel message tags)
        else if str_eqb type_ (py "USERSTATE") then
          channel <- required channel ;;
          Ok (UserstateMessage raw type_ channel tags)
        else if str_eqb type_ (py "ROOMSTATE") then
          channel <- required channel ;;
          Ok (RoomstateMessage raw type_ channel tags)
        else if str_eqb type_ (py "CLEARCHAT") then
          channel <- required channel ;;
          Ok (ClearchatMessage raw type_ channel message tags)
        else if str_eqb type_ (py "CLEARMSG") then
          channel <- required channel ;;
          message <- required message ;;
          Ok (ClearmsgMessage raw type_ channel message tags)
        else if str_eqb type_ (py "USERNOTICE") then
          channel <- required channel ;;
          Ok (UsernoticeMessage raw type_ channel message tags)
        else if str_eqb type_ (py "WHISPER") then
          user <- required user ;;
          params <- required params ;;
          message <- required message ;;
          Ok (WhisperMessage raw type_ user params message tags)
        else if str_eqb type_ (py "PRIVMSG") then
          channel <- required channel ;;
          user <- required user ;;
          message <- required message ;;
          Ok (Chat (ChatMessage.Build raw type_ channel user message tags))
        else
          Ok (BaseMessage raw type_)
  end.

End MessageParser.

(* ================================================================== *)
(** * command.py: roles, denial reasons, permission floors *)
(* ================================================================== *)

(** [class DenialReason(Flag)] *)
Module DenialReason.
Definition t := N.
Definition NONE : t := 0%N.
Definition GLOBAL_COOLDOWN : t := N.shiftl 1 0.
Definition USER_COOLDOWN : t := N.shiftl 1 1.
Definition PERMISSION : t := N.shiftl 1 2.
Definition BLACKLIST : t := N.shiftl 1 3.
(** [bool(reason & flag)] *)
Definition has (reason flag : t) : bool := negb (N.land reason flag =? 0)%N.
(** [bool(reason)] *)
Definition truthy (reason : t) : bool := negb (reason =? 0)%N.
End DenialReason.

(** [class Ranks] of bot.py, which [UserRole.from_message] reads. *)
Module Ranks.
Record t := Build {
  owner : str;
  admins : list str;
  blacklist : list str
}.

Definition check_blacklist (self : t) (user : str) : DenialReason.t :=
  if mem user (blacklist self) then DenialReason.BLACKLIST
  else DenialReason.NONE.
End Ranks.

(** [class UserRole(IntFlag)] *)
Module UserRole.
Definition t := N.
Definition NONE : t := 0%N.
Definition SUB : t := N.shiftl 1 0.
Definition VIP : t := N.shiftl 1 1.
Definition MOD : t := N.shiftl 1 2.
Definition ADMIN : t := N.shiftl 1 3.
Definition OWNER : t := N.shiftl 1 4.
(** [bool(role & flag)] *)
Definition has (role flag : t) : bool := negb (N.land role flag =? 0)%N.

(** [msg.tags[key]] raises [KeyError] when the tag is missing. *)
Definition from_message (ranks : Ranks.t) (msg : ChatMessage.t)
  : result t :=
  let role := NONE in
  let role :=
    if str_eqb (ChatMessage.user msg) (Ranks.owner ranks)
    then N.lor role OWNER else role in
  let role :=
    if mem (ChatMessage.user msg) (Ranks.admins ranks)
    then N.lor role ADMIN else role in
  is_mod <- getitem (ChatMessage.tags msg) (py "mod") ;;
  role <- (if str_eqb is_mod (py "1") then Ok (N.lor role MOD)
           else user_type <- getitem (ChatMessage.tags msg)
                                     (py "user-type") ;;
                Ok (if str_eqb user_type (py "vip")
                    then N.lor role VIP else role)) ;;
  subscriber <- getitem (ChatMessage.tags msg) (py "subscriber") ;;
  Ok (if str_eqb subscriber (py "1") then N.lor role SUB else role).
End UserRole.

(** [class CommandPerm(IntEnum)] *)
Module CommandPerm.
Inductive t := NONE | SUB | VIP | MOD | ADMIN | OWNER.

(** The members, in the order [for perm in CommandPerm] visits them. *)
Definition members : list t := [NONE; SUB; VIP; MOD; ADMIN; OWNER].

(** The integer an [IntEnum] member compares as. *)
Definition value (p : t) : N :=
  match p with
  | NONE => 0
  | SUB => N.shiftl 1 0
  | VIP => N.shiftl 1 1
  | MOD => N.shiftl 1 2
  | ADMIN => N.shiftl 1 3
  | OWNER => N.shiftl 1 4
  end.

(** [__str__]: [self.name.lower()] *)
Definition to_str (p : t) : str :=
  match p with
  | NONE => py "none"
  | SUB => py "sub"
  | VIP => py "vip"
  | MOD => py "mod"
  | ADMIN => py "admin"
  | OWNER => py "owner"
  end.

(** [self == other] on an [IntEnum] compares the integers. *)
Definition eqb (p q : t) : bool := (value p =? value q)%N.

Definition check_role (self : t) (role : UserRole.t) : DenialReason.t :=
  if UserRole.has role UserRole.OWNER then DenialReason.NONE
  else
    let allowed :=
      if eqb self SUB then UserRole.has role UserRole.SUB
      else (value self <=? role)%N in
    if allowed then DenialReason.NONE else DenialReason.PERMISSION.
End CommandPerm.

(* ================================================================== *)
(** * command.py: the parameter grammar *)
(* ================================================================== *)

(** [class Parameter], with the defaults of the dataclass ([Parameter]
    is a reserved word here, hence the underscore). *)
Module Parameter_.
Record t := Build {
  name : str;
  required : bool;
  perm : CommandPerm.t;
  options : option (list str);
  remainder : bool
}.

Definition default : t := Build [] true CommandPerm.NONE None false.
End Parameter_.

(** An element of [Parameters.entries]: [Parameter | str]. *)
Inductive Entry :=
| Param (p : Parameter_.t)
| Literal (s : str).

Module Parameters_.

(** [Parameters(entries)] *)
Definition t := list Entry.

(** [param.required if isinstance(param, Parameter) else True], which is
    also the filter of [min_args]. *)
Definition counts_as_required (e : Entry) : bool :=
  match e with
  | Param p => Parameter_.required p
  | Literal _ => true
  end.

(** [isinstance(param, str)] *)
Definition is_literal (e : Entry) : bool :=
  match e with Literal _ => true | Param _ => false end.

(** [isinstance(self.entries[-1], Parameter)
     and self.entries[-1].remainder] *)
Definition last_is_remainder (entries : t) : bool :=
  match last entries (Literal []) with
  | Param p => Parameter_.remainder p
  | Literal _ => false
  end.

(** [bool(param.options)]: a set that is present and not empty. *)
Definition has_options (p : Parameter_.t) : bool :=
  match Parameter_.options p with
  | Some (_ :: _) => true
  | _ => false
  end.

Definition in_options (arg : str) (p : Parameter_.t) : bool :=
  match Parameter_.options p with
  | Some opts => mem arg opts
  | None => false
  end.

(** The loop [for i, arg in enumerate(args)] with [self.entries[i]] read
    in step; an index past the entries raises [IndexError]. *)
Fixpoint walk (entries : t) (args : list str) (role : UserRole.t)
         (matched : dict str) : result (dict str) :=
  match args with
  | [] => Ok matched
  | arg :: args' =>
      match entries with
      | [] => Raise IndexError
      | Literal s :: entries' =>
          if negb (str_eqb arg s) then Raise (ArgumentError FormatError)
          else walk entries' args' role matched
      | Param p :: entries' =>
          if has_options p && negb (in_options arg p)
          then Raise (ArgumentError
                        (NotInOptions arg
                           (match Parameter_.options p with
                            | Some o => o | None => [] end)))
          else if (role <? CommandPerm.value (Parameter_.perm p))%N
          then
            if Parameter_.required p
            then Raise (ArgumentError
                          (InsufficientPerms
                             (Parameter_.name p)
                             (CommandPerm.value (Parameter_.perm p))))
            else walk entries' args' role matched
          else walk entries' args' role
                    (Py.set matched (Parameter_.name p) arg)
      end
  end.

Definition parse_args (self : t) (arg_string : option str)
           (role : UserRole.t) : result (dict str) :=
  match self with
  | [] => Ok []
  | _ =>
      match arg_string with
      | None | Some [] =>
          if negb (existsb counts_as_required self) then Ok []
          else Raise (ArgumentError NoArguments)
      | Some arg_string =>
          let args :=
            if last_is_remainder self
            then split_max (py " ") (List.length self - 1)
                           (strip arg_string)
            else split (py " ") (strip arg_string) in
          let min_args :=
            List.length (filter counts_as_required self) in
          let max_args := List.length self in
          if negb ((min_args <=? List.length args)%nat
                   && (List.length args <=? max_args)%nat)
          then Raise (ArgumentError (ArgumentCount min_args max_args))
          else walk self args role []
      end
  end.

(** [roles = {str(perm): perm for perm in CommandPerm}] *)
Definition roles : dict CommandPerm.t :=
  fold_left (fun d perm => Py.set d (CommandPerm.to_str perm) perm)
            CommandPerm.members [].

(** [clause.startswith(('<', '[')) and clause.endswith(('>', ']'))] *)
Definition is_bracketed (clause : str) : bool :=
  (startswith (py "<") clause || startswith (py "[") clause)
  && (endswith (py ">") clause || endswith (py "]") clause).

(** [any(not param.required for param in params
        if isinstance(param, Parameter))] *)
Definition any_optional (params : t) : bool :=
  existsb (fun e => match e with
                    | Param p => negb (Parameter_.required p)
                    | Literal _ => false
                    end) params.

(** [a, b = tag.split(sep, 1)] *)
Definition split_once (sep tag : str) : result (str * str) :=
  match split_max sep 1 tag with
  | [a; b] => Ok (a, b)
  | _ => Raise ValueError
  end.

(** The body of the loop of [from_syntax] for the clause at index [i];
    [count] is [len(syntax.split())] and [params] the list built so
    far. *)
Definition compile_clause (count i : nat) (params : t) (clause : str)
  : result t :=
  if is_bracketed clause then
    required <-
      (if startswith (py "<") clause
       then if any_optional params
            then Raise (ParameterError OptionalBeforeRequired)
            else Ok true
       else Ok false) ;;
    let tag := removelast (tl clause) in
    perm_tag <-
      (if contains (py ":") tag
       then pt <- split_once (py ":") tag ;;
            perm <- getitem roles (fst pt) ;;
            Ok (perm, snd pt)
       else Ok (CommandPerm.NONE, tag)) ;;
    let perm := fst perm_tag in
    let tag := snd perm_tag in
    if contains (py "=") tag then
      nt <- split_once (py "=") tag ;;
      Ok (params ++
          [Param (Parameter_.Build (fst nt) required perm
                    (Some (to_set (split (py "|") (snd nt)))) false)])
    else if contains (py "+") tag then
      if negb (i =? count - 1)%nat
      then Raise (ParameterError RemainderNotLast)
      else Ok (params ++
               [Param (Parameter_.Build (removelast tag) required perm
                         None true)])
    else
      Ok (params ++
          [Param (Parameter_.Build tag required perm None false)])
  else Ok (params ++ [Literal clause]).

(** [for i, clause in enumerate(syntax.split())] *)
Fixpoint compile_clauses (count i : nat) (params : t)
         (clauses : list str) : result t :=
  match clauses with
  | [] => Ok params
  | clause :: rest =>
      params <- compile_clause count i params clause ;;
      compile_clauses count (S i) params rest
  end.

(** [{param.name for param in params if isinstance(param, Parameter)}] *)
Definition parameter_names (params : t) : list str :=
  to_set (flat_map (fun e => match e with
                             | Param p => [Parameter_.name p]
                             | Literal _ => []
                             end) params).

Definition from_syntax (syntax : option str) : result t :=
  match syntax with
  | None | Some [] => Ok []
  | Some syntax =>
      let clauses := split_ws syntax in
      params <- compile_clauses (List.length clauses) 0 [] clauses ;;
      if negb (List.length (parameter_names params)
               =? List.length params)%nat
      then Raise (ParameterError DuplicateParameters)
      else Ok params
  end.

(** The checks of the loop of [parse_args] that [arg] passes for the
    parameter [p]: the role reaches the permission, and the options of
    [p], when it has any, contain [arg]. *)
Definition accepts (role : UserRole.t) (p : Parameter_.t) (arg : str)
  : Prop :=
  (CommandPerm.value (Parameter_.perm p) <= role)%N
  /\ (has_options p = true -> in_options arg p = true).

(** The names of the parameters among the entries, in order. *)
Definition names_of (params : t) : list str :=
  flat_map (fun e => match e with
                     | Param p => [Parameter_.name p]
                     | Literal _ => []
                     end) params.

Definition is_required_parameter (e : Entry) : bool :=
  match e with
  | Param p => Parameter_.required p
  | Literal _ => false
  end.

Definition is_remainder (e : Entry) : bool :=
  match e with
  | Param p => Parameter_.remainder p
  | Literal _ => false
  end.

(** No required parameter stands after an optional one. *)
Fixpoint required_first (params : t) : bool :=
  match params with
  | [] => true
  | e :: rest =>
      (if any_optional [e]
       then negb (existsb is_required_parameter rest) else true)
      && required_first rest
  end.

(** No entry but the last is a remainder parameter. *)
Fixpoint remainder_last (params : t) : bool :=
  match params with
  | [] => true
  | [e] => true
  | e :: rest => negb (is_remainder e) && remainder_last rest
  end.

End Parameters_.

(* ================================================================== *)
(** * Output: the console and the websocket *)
(* ================================================================== *)

(** A line written to the console, named after the statement printing it,
    with the values interpolated into it.  The two cooldown lines show
    [int(expiry - time.perf_counter())], a float difference: they carry
    the expiry and the clock reading, not the number shown. *)
Inductive Line :=
| RateLimitLine (channel : str) (sent ratelimit : Z)
| StillTimedOutLine (timeout : Z)
| TimeoutFinishedLine
| GlobalCooldownLine (command : str) (expiry now : Q)
| UserCooldownLine (command username : str) (expiry now : Q)
| ErrorLine (error : exn)
| BotLine (channel message : str)
| UnhandledLine (msg : Message)
| LoginLine (type_ : str)
| CapabilitiesLine (type_ : str) (capabilities : list str)
| TypeLine (type_ : str)
| PongLine
| WhisperLine (type_ from_ to message : str).

Inductive Output :=
| Print (line : Line)
| WsSend (data : str).

(** [TwitchIRCClient.submit(channel, message)] of twirc.py, [show] left
    at its default. *)
Definition irc_submit (channel message : str) : list Output :=
  [WsSend (py "PRIVMSG #" ++ channel ++ py " :" ++ message);
   Print (BotLine channel message)].

(* ================================================================== *)
(** * channel.py: the messenger and the channel *)
(* ================================================================== *)

(** [class Messenger]; its [bot] and [channel] references are the
    arguments of the functions below. *)
Module Messenger.
Record t := Build {
  sent : Z;
  last_message : str;
  sendlist : list str;
  timeout : Z
}.

(** [Messenger(bot, self)] with the field defaults. *)
Definition new : t := Build 0 [] [] 0.
End Messenger.

(** [class UserData], without the message history. *)
Module UserData.
Record t := Build {
  users : list str;
  mods : list str;
  cooldowns : dict (dict Q)
}.
End UserData.

(** [class BaseChannel], without the message history and the UID
    manager, which only the chat-message handler of bot.py touches. *)
Module BaseChannel.
Record t := Build {
  name : str;
  active : bool;
  live : bool;
  mod_ : bool;
  active_online : bool;
  active_offline : bool;
  cooldowns : dict Q;
  messenger : Messenger.t;
  userdata : UserData.t;
  connected : bool
}.

(** [__init__] *)
Definition new (name : str) (active_online active_offline : bool) : t :=
  Build name true true false active_online active_offline []
        Messenger.new (UserData.Build [] [] []) false.

Definition with_messenger (ch : t) (m : Messenger.t) : t :=
  Build (name ch) (active ch) (live ch) (mod_ ch) (active_online ch)
        (active_offline ch) (cooldowns ch) m (userdata ch) (connected ch).

Definition with_cooldowns (ch : t) (c : dict Q) : t :=
  Build (name ch) (active ch) (live ch) (mod_ ch) (active_online ch)
        (active_offline ch) c (messenger ch) (userdata ch) (connected ch).

Definition with_userdata (ch : t) (u : UserData.t) : t :=
  Build (name ch) (active ch) (live ch) (mod_ ch) (active_online ch)
        (active_offline ch) (cooldowns ch) (messenger ch) u (connected ch).

Definition with_mod (ch : t) (b : bool) : t :=
  Build (name ch) (active ch) (live ch) b (active_online ch)
        (active_offline ch) (cooldowns ch) (messenger ch) (userdata ch)
        (connected ch).

(** [self.live and self.active_online
     or not self.live and self.active_offline] *)
Definition activity_allowed (ch : t) : bool :=
  (live ch && active_online ch) || (negb (live ch) && active_offline ch).

(** [Messenger.ratelimit] *)
Definition ratelimit (ch : t) : Z := if mod_ ch then 100 else 20.

(** The invisible character appended to a repeated message:
    a space and U+E0000. *)
Definition differentiator : str := [32%N; 917504%N].

(** [Messenger._submit]; [bot_active] is [self.bot.active]. *)
Definition _submit (bot_active : bool) (ch : t) (message : str)
  : t * list Output :=
  let m := messenger ch in
  let message :=
    if str_eqb message (Messenger.last_message m)
    then message ++ differentiator else message in
  if bot_active && active ch && activity_allowed ch then
    if (Messenger.sent m <? ratelimit ch)%Z then
      (with_messenger ch
         (Messenger.Build (Messenger.sent m + 1) message
                          (Messenger.sendlist m) (Messenger.timeout m)),
       irc_submit (name ch) message)
    else
      (ch, [Print (RateLimitLine (name ch) (Messenger.sent m)
                                 (ratelimit ch))])
  else (ch, []).

(** [Messenger.send], reached through [BaseChannel.send]. *)
Definition send (ch : t) (message : str) : t :=
  if nonempty message then
    let m := messenger ch in
    with_messenger ch
      (Messenger.Build (Messenger.sent m) (Messenger.last_message m)
                       (Messenger.sendlist m ++ [message])
                       (Messenger.timeout m))
  else ch.

Definition with_timeout (ch : t) (timeout : Z) : t :=
  let m := messenger ch in
  with_messenger ch
    (Messenger.Build (Messenger.sent m) (Messenger.last_message m)
                     (Messenger.sendlist m) timeout).

(** Where the task running [Messenger.message_queue] stands: at the
    loop test, inside the countdown loop, or at
    [await self.sendlist.get()]. *)
Inductive pc := AtLoop | Counting | AtGet | Finished.

(** One move of the [message_queue] task, up to its next [await].
    [bot_running] and [bot_active] are the bot's flags at that moment.
    A task at [AtGet] with an empty queue stays there. *)
Definition message_queue_step (bot_running bot_active : bool)
           (at_ : pc) (ch : t) : pc * t * list Output :=
  let m := messenger ch in
  match at_ with
  | Finished => (Finished, ch, [])
  | AtLoop =>
      if negb bot_running then (Finished, ch, [])
      else if (Messenger.timeout m <? 0)%Z then (AtLoop, ch, [])
      else if negb (Messenger.timeout m =? 0)%Z
      then (Counting, ch, [Print (StillTimedOutLine (Messenger.timeout m))])
      else (AtGet, ch, [])
  | Counting =>
      if (0 <? Messenger.timeout m)%Z
      then (Counting, with_timeout ch (Z.max 0 (Messenger.timeout m - 1)),
            [])
      else (AtGet, ch, [Print TimeoutFinishedLine])
  | AtGet =>
      match Messenger.sendlist m with
      | [] => (AtGet, ch, [])
      | message :: rest =>
          let ch :=
            with_messenger ch
              (Messenger.Build (Messenger.sent m)
                               (Messenger.last_message m) rest
                               (Messenger.timeout m)) in
          let '(ch, out) := _submit bot_active ch message in
          (AtLoop, ch, out)
      end
  end.

(** [set_cooldown(command_name, length, user)] *)
Definition set_cooldown (ch : t) (command_name : str) (length : Q)
           (user : option str) : t :=
  match user with
  | Some (c :: u) =>
      let user := c :: u in
      let ud := userdata ch in
      let inner :=
        match get (UserData.cooldowns ud) user with
        | Some d => d
        | None => []
        end in
      with_userdata ch
        (UserData.Build (UserData.users ud) (UserData.mods ud)
           (Py.set (UserData.cooldowns ud) user
                   (Py.set inner command_name length)))
  | _ => with_cooldowns ch (Py.set (cooldowns ch) command_name length)
  end.

(** [reset_sent] of default.py, for one channel. *)
Definition reset_sent (ch : t) : t :=
  let m := messenger ch in
  with_messenger ch
    (Messenger.Build 0 (Messenger.last_message m)
                     (Messenger.sendlist m) (Messenger.timeout m)).

End BaseChannel.

(* ================================================================== *)
(** * One channel's messenger among the other tasks *)
(* ================================================================== *)

(** The tasks of the bot run interleaved at their [await]s.  For one
    channel, a run is a sequence of events: moves of its [message_queue]
    task and the writes that other tasks make to the state that the
    messenger reads. *)
Module Outbound.

Inductive Event :=
| Send (message : str)          (* [channel.send(message)] *)
| Move                         (* the queue task runs to its next await *)
| ResetSent                    (* the [reset_sent] timer of default.py *)
| SetMod (b : bool)            (* [_handle_userstate] *)
| SetTimeout (timeout : Z)     (* [_handle_clearchat] *)
| SetActive (bot_active active live : bool)  (* toggles, live status *)
| Stop.                        (* [bot.running = False] *)

Record State := MkState {
  bot_running : bool;
  bot_active : bool;
  at_ : BaseChannel.pc;
  channel : BaseChannel.t;
  wire : list Output
}.

Definition with_channel (s : State) (ch : BaseChannel.t) : State :=
  MkState (bot_running s) (bot_active s) (at_ s) ch (wire s).

Definition set_flags (ch : BaseChannel.t) (active live : bool)
  : BaseChannel.t :=
  BaseChannel.Build (BaseChannel.name ch) active live
    (BaseChannel.mod_ ch) (BaseChannel.active_online ch)
    (BaseChannel.active_offline ch) (BaseChannel.cooldowns ch)
    (BaseChannel.messenger ch) (BaseChannel.userdata ch)
    (BaseChannel.connected ch).

Definition step (s : State) (e : Event) : State :=
  match e with
  | Send message => with_channel s (BaseChannel.send (channel s) message)
  | Move =>
      let '(at', ch, out) :=
        BaseChannel.message_queue_step (bot_running s) (bot_active s)
                                       (at_ s) (channel s) in
      MkState (bot_running s) (bot_active s) at' ch (wire s ++ out)
  | ResetSent => with_channel s (BaseChannel.reset_sent (channel s))
  | SetMod b => with_channel s (BaseChannel.with_mod (channel s) b)
  | SetTimeout timeout =>
      with_channel s (BaseChannel.with_timeout (channel s) timeout)
  | SetActive bot_active active live =>
      MkState (bot_running s) bot_active (at_ s)
              (set_flags (channel s) active live) (wire s)
  | Stop => MkState false (bot_active s) (at_ s) (channel s) (wire s)
  end.

Definition run (s : State) (events : list Event) : State :=
  fold_left step events s.

(** A running, active bot and a channel as [BaseChannel.__init__]
    leaves it, its queue task at the head of the loop. *)
Definition initial (name : str) (active_online active_offline : bool)
  : State :=
  MkState true true BaseChannel.AtLoop
          (BaseChannel.new name active_online active_offline) [].

(** The messages accepted into the queue by the events, in order. *)
Definition enqueued (events : list Event) : list str :=
  flat_map (fun e => match e with
                     | Send (c :: m) => [c :: m]
                     | _ => []
                     end) events.

(** The messages handed to the transport, in order. *)
Definition delivered (out : list Output) : list str :=
  flat_map (fun o => match o with
                     | Print (BotLine _ message) => [message]
                     | _ => []
                     end) out.

(** [in_order queued sent]: [sent] lists some of the messages of
    [queued], in the order of [queued], each as it is or with the
    differentiator appended. *)
Inductive in_order : list str -> list str -> Prop :=
| in_order_nil : in_order [] []
| in_order_drop m queued sent :
    in_order queued sent -> in_order (m :: queued) sent
| in_order_keep m queued sent :
    in_order queued sent -> in_order (m :: queued) (m :: sent)
| in_order_mark m queued sent :
    in_order queued sent ->
    in_order (m :: queued) ((m ++ BaseChannel.differentiator) :: sent).

(** [no_repeat texts]: no two neighbours in the list are the same text. *)
Fixpoint no_repeat (texts : list str) : bool :=
  match texts with
  | a :: (b :: _) as rest => negb (str_eqb a b) && no_repeat rest
  | _ => true
  end.

(** The events that neither reset the window counter nor change the
    limit. *)
Definition in_window (e : Event) : bool :=
  match e with
  | ResetSent | SetMod _ => false
  | _ => true
  end.

(** The events that leave the suspension counter to the queue task. *)
Definition keeps_timeout (e : Event) : bool :=
  match e with
  | SetTimeout _ => false
  | _ => true
  end.

End Outbound.

(* ================================================================== *)
(** * bot.py: configuration and the bot object *)
(* ================================================================== *)

(** The fields of [BaseConfig] that the code below reads. *)
Module BaseConfig.
Record t := Build {
  username : str;
  rich_irc : bool;
  show_errors : bool;
  capability : list str
}.
End BaseConfig.

(** [class BaseBot]: the fields that the code below reads or writes. *)
Module BaseBot.
Record t := Build {
  config : BaseConfig.t;
  ranks : Ranks.t;
  running : bool;
  channels : dict BaseChannel.t;
  active : bool
}.

Definition with_channels (b : t) (c : dict BaseChannel.t) : t :=
  Build (config b) (ranks b) (running b) c (active b).
End BaseBot.

(* ================================================================== *)
(** * command.py: commands *)
(* ================================================================== *)

(** [class BaseContext]; its [bot] is the world the body runs in and its
    [channel] is named by its key in [bot.channels]. *)
Module BaseContext.
Record t := Build {
  msg : ChatMessage.t;
  channel : str;
  args : dict str
}.
End BaseContext.

Module Command.

(** A command object.  [func] names the decorated coroutine function;
    what calling it does is the [call] of the section below. *)
Record t := Build {
  func : nat;
  name : str;
  syntax : option str;
  desc : str;
  perm : CommandPerm.t;
  prefix : option str;
  aliases : list str;
  global_cd : Z;
  user_cd : Z;
  hide : bool;
  active : bool;
  params : Parameters_.t;
  disabled_channels : list str
}.

(** The bot together with the class attributes [Command.commands] and
    [Command.default_prefix]. *)
Record World := MkWorld {
  bot : BaseBot.t;
  commands : dict t;
  default_prefix : str
}.

Definition with_bot (w : World) (b : BaseBot.t) : World :=
  MkWorld b (commands w) (default_prefix w).

(** A channel object is reached through its entry in [bot.channels];
    a write to a channel that is no longer in the table is lost. *)
Definition update_channel (w : World) (key : str)
           (f : BaseChannel.t -> BaseChannel.t) : World :=
  match get (BaseBot.channels (bot w)) key with
  | Some ch =>
      with_bot w (BaseBot.with_channels (bot w)
                    (Py.set (BaseBot.channels (bot w)) key (f ch)))
  | None => w
  end.

(** The cooldown tables of every channel of the bot. *)
Definition cooldown_tables (w : World)
  : list (str * (dict Q * dict (dict Q))) :=
  map (fun kc =>
         (fst kc,
          (BaseChannel.cooldowns (snd kc),
           UserData.cooldowns (BaseChannel.userdata (snd kc)))))
      (BaseBot.channels (bot w)).

(** [__init__]: builds the command and registers it under its name and
    under each alias.  The registry is left as it was when the syntax
    does not compile. *)
Definition init (registry : dict t) (func : nat) (name : str)
           (syntax : option str) (desc : str) (perm : CommandPerm.t)
           (prefix : option str) (aliases : option (list str))
           (global_cd user_cd : Z) (hide active : bool)
  : result (t * dict t) :=
  let aliases := match aliases with Some a => a | None => [] end in
  let user_cd := if (user_cd <=? global_cd)%Z then 0%Z else user_cd in
  params <- Parameters_.from_syntax syntax ;;
  let self := Build func name syntax desc perm prefix aliases
                    global_cd user_cd hide active params [] in
  Ok (self,
      fold_left (fun d alias => Py.set d alias self) aliases
                (Py.set registry name self)).

(** [self.prefix if self.prefix is not None
     else Command.default_prefix] *)
Definition effective_prefix (default_prefix : str) (self : t) : str :=
  match prefix self with
  | Some p => p
  | None => default_prefix
  end.

(** The property [trigger]. *)
Definition trigger (default_prefix : str) (self : t) : str :=
  effective_prefix default_prefix self ++ name self.

Definition get_by_name (registry : dict t) (name : str) : option t :=
  get registry name.

(** [next((cmd for cmd in Command.commands.values()
           if cmd.trigger == trigger), None)] *)
Definition get_by_trigger (registry : dict t) (default_prefix : str)
           (trigger_ : str) : option t :=
  List.find (fun cmd => str_eqb (trigger default_prefix cmd) trigger_)
            (values registry).

(** [toggle(active, channel)]: globally when [channel] is [None], else
    by discarding the channel from, or adding it to, the set of disabled
    channels. *)
Definition toggle (self : t) (active_ : bool) (channel : option str) : t :=
  match channel with
  | None =>
      Build (func self) (name self) (syntax self) (desc self) (perm self)
            (prefix self) (aliases self) (global_cd self) (user_cd self)
            (hide self) active_ (params self) (disabled_channels self)
  | Some ch =>
      Build (func self) (name self) (syntax self) (desc self) (perm self)
            (prefix self) (aliases self) (global_cd self) (user_cd self)
            (hide self) (active self) (params self)
            (if active_
             then filter (fun c => negb (str_eqb ch c))
                         (disabled_channels self)
             else if mem ch (disabled_channels self)
                  then disabled_channels self
                  else disabled_channels self ++ [ch])
  end.

(** [set_prefix(prefix)] *)
Definition set_prefix (w : World) (prefix_ : str) : World :=
  MkWorld (bot w) (commands w) prefix_.

(** [bool(x)] for an [int] and for an [int | None]. *)
Definition truthy (x : Z) : bool := negb (x =? 0)%Z.
Definition truthy_opt (x : option Z) : bool :=
  match x with Some v => truthy v | None => false end.

(** [a or b] for [a : int | None]. *)
Definition or_else (a : option Z) (b : Z) : Z :=
  match a with
  | Some v => if truthy v then v else b
  | None => b
  end.

(** [apply_cooldown]; [t_global] and [t_user] are the readings of
    [time.perf_counter()] in its first and second statement. *)
Definition apply_cooldown (self : t) (channel : BaseChannel.t)
           (msg : ChatMessage.t) (global_cd user_cd : option Z)
           (t_global t_user : Q) : BaseChannel.t :=
  let channel :=
    if truthy (Command.global_cd self) || truthy_opt global_cd
    then BaseChannel.set_cooldown channel (name self)
           (Qplus t_global
                  (inject_Z (or_else global_cd (Command.global_cd self))))
           None
    else channel in
  if truthy (Command.user_cd self)
     || (truthy_opt user_cd
         && ((truthy_opt global_cd
              && (or_else global_cd 0 <? or_else user_cd 0)%Z)
             || (Command.global_cd self <? or_else user_cd 0)%Z))
  then BaseChannel.set_cooldown channel (name self)
         (Qplus t_user
                (inject_Z (or_else user_cd (Command.user_cd self))))
         (Some (ChatMessage.user msg))
  else channel.

Definition check_cooldowns (self : t) (channel : BaseChannel.t)
           (msg : ChatMessage.t) : DenialReason.t :=
  let reason := DenialReason.NONE in
  let reason :=
    if has_key (BaseChannel.cooldowns channel) (name self)
    then N.lor reason DenialReason.GLOBAL_COOLDOWN else reason in
  match get (UserData.cooldowns (BaseChannel.userdata channel))
            (ChatMessage.user msg) with
  | Some inner =>
      if has_key inner (name self)
      then N.lor reason DenialReason.USER_COOLDOWN else reason
  | None => reason
  end.

(** The text of the permission denial:
    [f"@{username} Insufficient perms ({self.perm})"] *)
Definition denial_text (self : t) (username : str) : str :=
  py "@" ++ username ++ py " Insufficient perms ("
     ++ CommandPerm.to_str (perm self) ++ py ")".

(** [handle_denial]; [t_global] and [t_user] are the clock readings of
    the two cooldown branches.  The result is the channel, whose send
    queue may have grown, and the console lines. *)
Definition handle_denial (self : t) (channel : BaseChannel.t)
           (username : str) (reason : DenialReason.t)
           (t_global t_user : Q)
  : result (BaseChannel.t * list Output) :=
  if DenialReason.has reason DenialReason.BLACKLIST
  then Ok (channel, [])
  else
    out1 <-
      (if DenialReason.has reason DenialReason.GLOBAL_COOLDOWN
       then expiry <- getitem (BaseChannel.cooldowns channel)
                              (name self) ;;
            Ok [Print (GlobalCooldownLine (name self) expiry t_global)]
       else Ok []) ;;
    out2 <-
      (if DenialReason.has reason DenialReason.USER_COOLDOWN
       then
         let inner :=
           match get (UserData.cooldowns (BaseChannel.userdata channel))
                     username with
           | Some d => d
           | None => []
           end in
         expiry <- getitem inner (name self) ;;
         Ok [Print (UserCooldownLine (name self) username
                                     expiry t_user)]
       else Ok []) ;;
    let channel :=
      if DenialReason.has reason DenialReason.PERMISSION
         && negb (hide self)
      then BaseChannel.send channel (denial_text self username)
      else channel in
    Ok (channel, out1 ++ out2).

(** What [execute] did: the world and console output it leaves, whether
    it reached the call of the command body, and whether it reached
    [self.apply_cooldown]. *)
Record Executed := MkExecuted {
  world : World;
  output : list Output;
  body_invoked : bool;
  cooldown_applied : bool
}.

Section Bodies.

(** [await self.func(ctx)]: the body of the command function named
    [func], which may change the world, print, and raise. *)
Variable call :
  nat -> BaseContext.t -> World -> result unit * World * list Output.

(** [str(error)] *)
Variable error_text : exn -> str.

(** The [except Exception] branch of [execute]. *)
Definition on_error (w : World) (channel : str) (error : exn)
  : World * list Output :=
  (if BaseConfig.show_errors (BaseBot.config (bot w))
   then update_channel w channel
          (fun ch => BaseChannel.send ch
                       (py "Error: " ++ error_text error))
   else w,
   [Print (ErrorLine error)]).

(** [execute].  The first statement of the source filters
    [arg_string] into a local that nothing reads; it is left out. *)
Definition execute (self : t) (w : World) (msg : ChatMessage.t)
           (channel : str) (arg_string : option str)
           (t_global t_user : Q) : result Executed :=
  role <- UserRole.from_message (BaseBot.ranks (bot w)) msg ;;
  match Parameters_.parse_args (params self) arg_string role with
  | Raise error =>
      let '(w, out) := on_error w channel error in
      Ok (MkExecuted w out false false)
  | Ok args =>
      match call (func self) (BaseContext.Build msg channel args) w with
      | (Raise error, w, out) =>
          let '(w, out') := on_error w channel error in
          Ok (MkExecuted w (out ++ out') true false)
      | (Ok _, w, out) =>
          if (role <? UserRole.MOD)%N
          then Ok (MkExecuted
                     (update_channel w channel
                        (fun ch => apply_cooldown self ch msg None None
                                                  t_global t_user))
                     out true true)
          else Ok (MkExecuted w out true false)
      end
  end.

(** [start, arg_string = parts if len(parts) == 2
                          else (parts[0], None)] *)
Definition start_and_args (message : str) : str * option str :=
  match split_max (py " ") 1 message with
  | [a; b] => (a, Some b)
  | a :: _ => (a, None)
  | [] => ([], None)
  end.

(** The command that a chat message triggers, if any: the condition
    [(cmd := Command.get_by_trigger(start)) and cmd.active
     and msg.channel not in cmd.disabled_channels]. *)
Definition triggered (w : World) (msg : ChatMessage.t) : option t :=
  match get_by_trigger (commands w) (default_prefix w)
                       (fst (start_and_args (ChatMessage.message msg)))
  with
  | Some cmd =>
      if active cmd
         && negb (mem (ChatMessage.channel msg) (disabled_channels cmd))
      then Some cmd else None
  | None => None
  end.

(** [cmd.check_cooldowns(channel, msg) | cmd.perm.check_role(role)
     | bot.ranks.check_blacklist(msg.user)] *)
Definition denial_reason (cmd : t) (w : World)
           (channel : BaseChannel.t) (msg : ChatMessage.t)
           (role : UserRole.t) : DenialReason.t :=
  N.lor (N.lor (check_cooldowns cmd channel msg)
               (CommandPerm.check_role (perm cmd) role))
        (Ranks.check_blacklist (BaseBot.ranks (bot w))
                               (ChatMessage.user msg)).

Definition check_command (w : World) (msg : ChatMessage.t)
           (t_global t_user : Q) : result (World * list Output) :=
  assert (nonempty (ChatMessage.message msg)
          && nonempty (ChatMessage.user msg)
          && nonempty (ChatMessage.channel msg)) ;;;
  channel <- getitem (BaseBot.channels (bot w))
                     (ChatMessage.channel msg) ;;
  match triggered w msg with
  | Some cmd =>
      role <- UserRole.from_message (BaseBot.ranks (bot w)) msg ;;
      let reason := denial_reason cmd w channel msg role in
      if DenialReason.truthy reason then
        r <- handle_denial cmd channel (ChatMessage.user msg) reason
                           t_global t_user ;;
        Ok (update_channel w (ChatMessage.channel msg)
                           (fun _ => fst r),
            snd r)
      else
        r <- execute cmd w msg (ChatMessage.channel msg)
                     (snd (start_and_args (ChatMessage.message msg)))
                     t_global t_user ;;
        Ok (world r, output r)
  | None => Ok (w, [])
  end.

End Bodies.

End Command.

(* ================================================================== *)
(** * twirc.py: what the client sends *)
(* ================================================================== *)

Module TwitchIRCClient.

(** [full_caps = [f"twitch.tv/{cap}" for cap in caps]] *)
Definition full_caps (caps : list str) : list str :=
  map (fun cap => py "twitch.tv/" ++ cap) caps.

(** [request_capabilities(caps)]: the line sent on the websocket. *)
Definition capability_request (caps : list str) : str :=
  py "CAP REQ :" ++ join (py " ") (full_caps caps) ++ [13%N; 10%N].

(** [join(channel)] and [part(channel)]: the line sent. *)
Definition join_request (channel : str) : str := py "JOIN #" ++ channel.
Definition part_request (channel : str) : str := py "PART #" ++ channel.

End TwitchIRCClient.

(* ================================================================== *)
(** * Lines as the server sends them back *)
(* ================================================================== *)

(** The server relays what a client sent with the sender's host mask in
    front, and the tags before that when the tags capability is on; it
    acknowledges a capability request by listing the names again.  These
    are the inputs that the round trips of the parser are stated on. *)
Module Server.

(** A login or channel name: a non-empty run of [[a-z0-9_]]. *)
Definition is_name (s : str) : bool :=
  nonempty s && forallb MessageParser.is_name_char s.

Definition hostmask (user : str) : str :=
  user ++ py "!" ++ user ++ py "@" ++ user ++ py ".tmi.twitch.tv".

(** The command part of a line about a channel: [mask VERB #channel]. *)
Definition command (user verb channel : str) : str :=
  hostmask user ++ py " " ++ verb ++ py " " ++ py "#" ++ channel.

(** A verb: capital letters, none of them a [C]. *)
Definition is_verb (s : str) : bool :=
  nonempty s
  && forallb (fun c => (65 <=? c)%N && (c <=? 90)%N && negb (N.eqb 67 c)) s.

(** A line of [user] relayed with tags: [@tags :mask data]. *)
Definition relayed (raw_tags user data : str) : str :=
  py "@" ++ raw_tags ++ py " :" ++ hostmask user ++ py " " ++ data.

(** A line of [user] relayed without tags: [:mask data]. *)
Definition echoed (user data : str) : str :=
  py ":" ++ hostmask user ++ py " " ++ data.

(** The acknowledgement of [CAP REQ :names]. *)
Definition acknowledged (names : list str) : str :=
  py ":tmi.twitch.tv CAP * ACK :" ++ join (py " ") names.

(** The tags [k1=v1;k2=v2;...] of a line. *)
Definition tag_string (tags : list (str * str)) : str :=
  join (py ";") (map (fun kv => fst kv ++ py "=" ++ snd kv) tags).

(** A key has no [;] and no newline; a value has no [=] either. *)
Definition is_tag_key (s : str) : bool :=
  forallb (fun c => negb (N.eqb 59 c) && negb (N.eqb 10 c)) s.
Definition is_tag_value (s : str) : bool :=
  forallb (fun c => negb (N.eqb 59 c) && negb (N.eqb 10 c)
                    && negb (N.eqb 61 c)) s.

End Server.

(* ================================================================== *)
(** * bot.py: the dispatch loop *)
(* ================================================================== *)

Module Bot.

Import Command.

(** [set.add], [set.discard] and [set.update] on a set of strings. *)
Definition set_add (x : str) (s : list str) : list str :=
  if mem x s then s else s ++ [x].
Definition set_discard (x : str) (s : list str) : list str :=
  filter (fun y => negb (str_eqb x y)) s.
Definition set_update (xs : list str) (s : list str) : list str :=
  fold_left (fun acc x => set_add x acc) xs s.

(** [set(a) != set(b)] *)
Definition set_neq (a b : list str) : bool :=
  negb (forallb (fun x => mem x b) a && forallb (fun x => mem x a) b).

Definition with_users (ch : BaseChannel.t) (users : list str)
  : BaseChannel.t :=
  let ud := BaseChannel.userdata ch in
  BaseChannel.with_userdata ch
    (UserData.Build users (UserData.mods ud) (UserData.cooldowns ud)).

(** [bot.channels[key].userdata.users], empty for a channel that is not
    tracked. *)
Definition users_in (w : World) (key : str) : list str :=
  match get (BaseBot.channels (bot w)) key with
  | Some ch => UserData.users (BaseChannel.userdata ch)
  | None => []
  end.

(** The message types [message_handler] returns on at once. *)
Definition ignored : list str :=
  [py "002"; py "003"; py "004"; py "375"; py "372"; py "376";
   py "GLOBALUSERSTATE"; py "HOSTTARGET"].

(** The types whose handler takes the message alone. *)
Definition channel_free : list str :=
  [py "001"; py "CAP * ACK"; py "PING"; py "RECONNECT"; py "WHISPER"].

Section Handlers.

(** The handlers [_handle_366], [_handle_notice], [_handle_clearchat],
    [_handle_clearmsg], [_handle_usernotice], [_handle_privmsg] and
    the [rich_irc] branch of [_handle_roomstate], by message type:
    they format console lines with colours, dates and parsed
    integers, which are not modelled.  Each receives the result of
    [self.channels.get(msg.channel, None)] like the handlers below. *)
Variable console_handler :
  str -> option BaseChannel.t -> Message -> World ->
  result (World * list Output).

Definition _handle_001 (w : World) (msg : Message)
  : result (World * list Output) :=
  if negb (BaseConfig.rich_irc (BaseBot.config (bot w)))
  then Ok (w, [])
  else Ok (w, [Print (LoginLine (msg_type msg))]).

Definition _handle_cap_ack (w : World) (msg : Message)
  : result (World * list Output) :=
  match msg with
  | CapabilitiesMessage _ type_ capabilities =>
      let wanted := BaseConfig.capability (BaseBot.config (bot w)) in
      if match wanted with [] => false | _ => true end
         && set_neq capabilities wanted
      then Raise (RuntimeError
                    (py "Acquired capabilities do not match requested"))
      else if BaseConfig.rich_irc (BaseBot.config (bot w))
      then Ok (w, [Print (CapabilitiesLine type_ capabilities)])
      else Ok (w, [])
  | _ => Raise AttributeError
  end.

Definition _handle_ping (w : World) (msg : Message)
  : result (World * list Output) :=
  let rich := BaseConfig.rich_irc (BaseBot.config (bot w)) in
  Ok (w,
      [WsSend (py "PONG :tmi.twitch.tv")]
      ++ (if rich then [Print PongLine] else [])
      ++ (if rich then [Print (TypeLine (msg_type msg))] else [])).

Definition _handle_reconnect (w : World) (msg : Message)
  : result (World * list Output) :=
  if BaseConfig.rich_irc (BaseBot.config (bot w))
  then Ok (w, [Print (TypeLine (msg_type msg))])
  else Ok (w, []).

Definition _handle_whisper (w : World) (msg : Message)
  : result (World * list Output) :=
  match msg with
  | WhisperMessage _ type_ from_ to message _ =>
      Ok (w, [Print (WhisperLine type_ from_ to message)])
  | _ => Raise AttributeError
  end.

(** The handlers below receive [channel], which is [None] for a
    channel that is not in [bot.channels]; reading an attribute of
    [None] raises [AttributeError].  They return the channel object
    as they leave it. *)

Definition _handle_353 (channel : option BaseChannel.t) (msg : Message)
  : result BaseChannel.t :=
  match channel with
  | None => Raise AttributeError
  | Some ch =>
      match msg with
      | NamesMessage _ _ _ users =>
          Ok (with_users ch
                (set_update (to_set users)
                   (UserData.users (BaseChannel.userdata ch))))
      | _ => Raise AttributeError
      end
  end.

Definition _handle_join (channel : option BaseChannel.t) (msg : Message)
  : result BaseChannel.t :=
  match channel with
  | None => Raise AttributeError
  | Some ch =>
      match msg with
      | JoinMessage _ _ _ user =>
          Ok (with_users ch
                (set_add user
                   (UserData.users (BaseChannel.userdata ch))))
      | _ => Raise AttributeError
      end
  end.

Definition _handle_part (channel : option BaseChannel.t) (msg : Message)
  : result BaseChannel.t :=
  match channel with
  | None => Raise AttributeError
  | Some ch =>
      match msg with
      | PartMessage _ _ _ user =>
          Ok (with_users ch
                (set_discard user
                   (UserData.users (BaseChannel.userdata ch))))
      | _ => Raise AttributeError
      end
  end.

(** [channel.mod = msg.tags["mod"] == "1"]: the right-hand side is
    evaluated first. *)
Definition _handle_userstate (channel : option BaseChannel.t)
           (msg : Message) : result BaseChannel.t :=
  match msg with
  | UserstateMessage _ _ _ tags =>
      is_mod <- getitem tags (py "mod") ;;
      match channel with
      | None => Raise AttributeError
      | Some ch => Ok (BaseChannel.with_mod ch (str_eqb is_mod (py "1")))
      end
  | _ => Raise AttributeError
  end.

(** Runs a handler that works on the channel object and stores the
    object it returns back under its key. *)
Definition on_channel (w : World) (key : str)
           (r : result BaseChannel.t) : result (World * list Output) :=
  ch <- r ;;
  Ok (update_channel w key (fun _ => ch), []).

Definition message_handler (w : World) (msg : Message)
  : result (World * list Output) :=
  let type_ := msg_type msg in
  if mem type_ ignored then Ok (w, [])
  else if str_eqb type_ (py "001") then _handle_001 w msg
  else if str_eqb type_ (py "CAP * ACK") then _handle_cap_ack w msg
  else if str_eqb type_ (py "PING") then _handle_ping w msg
  else if str_eqb type_ (py "RECONNECT") then _handle_reconnect w msg
  else if str_eqb type_ (py "WHISPER") then _handle_whisper w msg
  else if mem type_
              [py "353"; py "JOIN"; py "PART"; py "366"; py "NOTICE";
               py "USERSTATE"; py "ROOMSTATE"; py "CLEARCHAT";
               py "CLEARMSG"; py "USERNOTICE"; py "PRIVMSG"]
  then
    match msg_channel msg with
    | None => Raise AttributeError
    | Some key =>
        let channel := get (BaseBot.channels (bot w)) key in
        if str_eqb type_ (py "353")
        then on_channel w key (_handle_353 channel msg)
        else if str_eqb type_ (py "JOIN")
        then on_channel w key (_handle_join channel msg)
        else if str_eqb type_ (py "PART")
        then on_channel w key (_handle_part channel msg)
        else if str_eqb type_ (py "USERSTATE")
        then on_channel w key (_handle_userstate channel msg)
        else if str_eqb type_ (py "ROOMSTATE")
                && negb (BaseConfig.rich_irc (BaseBot.config (bot w)))
        then Ok (w, [])
        else console_handler type_ channel msg w
    end
  else if BaseConfig.rich_irc (BaseBot.config (bot w))
  then Ok (w, [Print (UnhandledLine msg)])
  else Ok (w, []).

(** The loop [for line in messages] of [poll_irc]: each line is parsed
    and handled in turn; an exception ends the polling task. *)
Fixpoint handle_lines (w : World) (lines : list str)
  : result (World * list Output) :=
  match lines with
  | [] => Ok (w, [])
  | line :: rest =>
      msg <- MessageParser.from_raw line ;;
      r <- message_handler w msg ;;
      r' <- handle_lines (fst r) rest ;;
      Ok (fst r', snd r ++ snd r')
  end.

(** One turn of the loop of [poll_irc], for the data that
    [websocket.recv()] returned:
    [messages = raw_data.strip().split("\r\n")]. *)
Definition poll_irc (w : World) (raw_data : str)
  : result (World * list Output) :=
  handle_lines w (split [13%N; 10%N] (strip raw_data)).

End Handlers.

End Bot.

(* ================================================================== *)
(** * default.py: the cooldown timer and the command [say] *)
(* ================================================================== *)

Module Default.

Import Command.

(** The readings of [time.perf_counter()] by number: every evaluation
    of the call takes the next one. *)
Definition Clock := nat -> Q.

(** [{k: v for k, v in d.items() if v-perf_counter() > 0}] from reading
    [i] on; the second component is the number of the next reading. *)
Fixpoint unexpired (clock : Clock) (i : nat) (d : dict Q)
  : dict Q * nat :=
  match d with
  | [] => ([], i)
  | (k, v) :: d' =>
      let keep := negb (Qle_bool (Qminus v (clock i)) 0) in
      let '(rest, j) := unexpired clock (S i) d' in
      (if keep then (k, v) :: rest else rest, j)
  end.

(** [for username, cooldowns in channel.userdata.cooldowns.items():
       channel.userdata.cooldowns[username] = {...}] *)
Fixpoint unexpired_users (clock : Clock) (i : nat) (u : dict (dict Q))
  : dict (dict Q) * nat :=
  match u with
  | [] => ([], i)
  | (username, cooldowns) :: u' =>
      let '(cooldowns, j) := unexpired clock i cooldowns in
      let '(rest, k) := unexpired_users clock j u' in
      ((username, cooldowns) :: rest, k)
  end.

(** The body of the loop of [update_command_cooldowns] for one channel;
    the last statement drops the users left without a cooldown. *)
Definition update_channel_cooldowns (clock : Clock) (i : nat)
           (channel : BaseChannel.t) : BaseChannel.t * nat :=
  let '(cooldowns, j) :=
    unexpired clock i (BaseChannel.cooldowns channel) in
  let ud := BaseChannel.userdata channel in
  let '(per_user, k) := unexpired_users clock j (UserData.cooldowns ud) in
  (BaseChannel.with_userdata
     (BaseChannel.with_cooldowns channel cooldowns)
     (UserData.Build (UserData.users ud) (UserData.mods ud)
        (filter (fun kv => match snd kv with
                           | [] => false
                           | _ :: _ => true
                           end) per_user)),
   k).

(** [for channel in bot.channels.values()] *)
Fixpoint update_channels (clock : Clock) (i : nat)
         (channels : dict BaseChannel.t) : dict BaseChannel.t * nat :=
  match channels with
  | [] => ([], i)
  | (key, channel) :: rest =>
      let '(channel, j) := update_channel_cooldowns clock i channel in
      let '(rest, k) := update_channels clock j rest in
      ((key, channel) :: rest, k)
  end.

Definition update_command_cooldowns (clock : Clock) (i : nat) (w : World)
  : World * nat :=
  let '(channels, j) :=
    update_channels clock i (BaseBot.channels (bot w)) in
  (with_bot w (BaseBot.with_channels (bot w) channels), j).

(** [repeat_message], the body of the command [say]:
    [await ctx.channel.send(ctx.args["message"])]. *)
Definition repeat_message (ctx : BaseContext.t) (w : World)
  : result unit * World * list Output :=
  match get (BaseContext.args ctx) (py "message") with
  | None => (Raise (KeyError (py "message")), w, [])
  | Some message =>
      (Ok tt,
       update_channel w (BaseContext.channel ctx)
                      (fun ch => BaseChannel.send ch message),
       [])
  end.

(** The decorator of [repeat_message]:
    [Command.command("say", "<message+>",
                     "Repeat the text given to the bot.", CommandPerm.MOD)]
    with the defaults of [Command.command]. *)
Definition register_say (registry : dict t) (func : nat)
  : result (t * dict t) :=
  init registry func (py "say") (Some (py "<message+>"))
       (py "Repeat the text given to the bot.") CommandPerm.MOD
       None None 0 0 false true.

End Default.


(* ================================================================== *)
(** * Concrete inputs used by the examples and counterexamples below *)
(* ================================================================== *)

Module Sample.

(** The syntax string of the specification's round trip, and the same
    clauses with the last one made optional. *)
Definition spec_syntax : str := py "<a> [b=x|y] <c+>".
Definition legal_syntax : str := py "<a> [b=x|y] [c+]".

(** A literal clause followed by one parameter. *)
Definition literal_syntax : str := py "add <x>".

(** A channel as [BaseChannel.__init__] leaves it, active online and
    offline; the bot is not a moderator there, so its limit is 20. *)
Definition room : BaseChannel.t := BaseChannel.new (py "room") true true.

(** The same channel once 20 messages went out in the window, the last
    of them [py "t"]. *)
Definition full_room : BaseChannel.t :=
  BaseChannel.with_messenger room (Messenger.Build 20 (py "t") [] 0).

(** Twenty-one distinct messages: the letters [a] to [u]. *)
Definition letters : list str :=
  map (fun i => [N.of_nat (97 + i)]) (seq 0 21).

(** Each of the first twenty letters is sent and taken by the queue
    task (one move to reach the [get], one to submit); then the
    twenty-first is sent and taken, the window is reset, and the task
    moves on three more times. *)
Definition burst : list Outbound.Event :=
  flat_map (fun m => [Outbound.Send m; Outbound.Move; Outbound.Move])
           (firstn 20 letters)
  ++ [Outbound.Send (py "u"); Outbound.Move; Outbound.Move;
      Outbound.ResetSent; Outbound.Move; Outbound.Move; Outbound.Move].

(** The four denial bits together, and the three without the
    blacklist. *)
Definition all_reasons : DenialReason.t :=
  N.lor (N.lor (N.lor DenialReason.GLOBAL_COOLDOWN
                      DenialReason.USER_COOLDOWN)
               DenialReason.PERMISSION)
        DenialReason.BLACKLIST.

Definition three_reasons : DenialReason.t :=
  N.lor (N.lor DenialReason.GLOBAL_COOLDOWN DenialReason.USER_COOLDOWN)
        DenialReason.PERMISSION.

(** The roster: an owner, an admin, and a blacklisted user. *)
Definition ranks : Ranks.t :=
  Ranks.Build (py "boss") [py "ann"] [py "eve"].

Definition config : BaseConfig.t :=
  BaseConfig.Build (py "bot") false true [].

(** A moderator command with one alias, as
    [@Command.command("shout", "<text+>", "Shout it.", CommandPerm.MOD,
                      aliases=["yell"], global_cd=10, user_cd=30)]
    registers it, and the registry holding it alone. *)
Definition shout : Command.t :=
  Command.Build 0 (py "shout") (Some (py "<text+>")) (py "Shout it.")
                CommandPerm.MOD None [py "yell"] 10 30 false true
                [Param (Parameter_.Build (py "text") true
                                         CommandPerm.NONE None true)]
                [].

Definition registry : dict Command.t :=
  [(py "shout", shout); (py "yell", shout)].

(** The channel with [shout] under its global cooldown and under the
    cooldown of user [eve]. *)
Definition cooled_room : BaseChannel.t :=
  BaseChannel.set_cooldown
    (BaseChannel.set_cooldown room (py "shout") (inject_Z 100) None)
    (py "shout") (inject_Z 130) (Some (py "eve")).

(** The tags of a user who is neither moderator, VIP nor subscriber. *)
Definition plain_tags : dict str :=
  [(py "mod", py "0"); (py "user-type", []); (py "subscriber", py "0")].

Definition chat (user message : str) : ChatMessage.t :=
  ChatMessage.Build (py "raw") (py "PRIVMSG") (py "room") user message
                    plain_tags.

Definition world_with (ch : BaseChannel.t) : Command.World :=
  Command.MkWorld
    (BaseBot.Build config ranks true [(py "room", ch)] true)
    registry (py "!").

(** The line the server sends when [bob] joins the channel [lobby]. *)
Definition join_line : str := py ":bob!bob@bob.tmi.twitch.tv JOIN #lobby".

(** A chat line with tags, one of them with two [=] and one with none. *)
Definition chat_line : str :=
  py "@mod=0;a=b=c;junk :bob!bob@bob.tmi.twitch.tv PRIVMSG #room :hello : there".

(** A command body that does nothing, one that raises, and a rendering
    of exceptions. *)
Definition idle_body (_ : nat) (_ : BaseContext.t) (w : Command.World)
  : result unit * Command.World * list Output :=
  (Ok tt, w, []).

Definition failing_body (_ : nat) (_ : BaseContext.t) (w : Command.World)
  : result unit * Command.World * list Output :=
  (Raise (RuntimeError (py "boom")), w, []).

Definition plain_text (_ : exn) : str := py "error".

(** Twenty-one messages sent and taken one after the other, with no
    reset of the window in between. *)
Definition flood : list Outbound.Event :=
  flat_map (fun m => [Outbound.Send m; Outbound.Move; Outbound.Move])
           letters.

(** A fresh channel whose bot has been banned from it, two messages
    queued: the suspension counter is negative. *)
Definition banned : Outbound.State :=
  Outbound.MkState true true BaseChannel.AtLoop
    (BaseChannel.with_messenger room
       (Messenger.Build 0 [] [py "a"; py "b"] (-1)))
    [].

(** A configuration that asks for the three standard capabilities. *)
Definition standard_config : BaseConfig.t :=
  BaseConfig.Build (py "bot") false true
                   [py "commands"; py "membership"; py "tags"].

Definition standard_world : Command.World :=
  Command.MkWorld
    (BaseBot.Build standard_config ranks true [(py "room", room)] true)
    registry (py "!").

(** The command [say] as [default.py] registers it, here as function 7
    into an empty registry; a world with that registry; the chat message
    of a moderator; and bodies that are all [repeat_message]. *)
Definition say_command : Command.t :=
  Command.Build 7 (py "say") (Some (py "<message+>"))
                (py "Repeat the text given to the bot.")
                CommandPerm.MOD None [] 0 0 false true
                [Param (Parameter_.Build (py "message") true
                                         CommandPerm.NONE None true)]
                [].

Definition say_world : Command.World :=
  Command.MkWorld
    (BaseBot.Build config ranks true [(py "room", room)] true)
    [(py "say", say_command)] (py "!").

Definition mod_chat (user message : str) : ChatMessage.t :=
  ChatMessage.Build (py "raw") (py "PRIVMSG") (py "room") user message
                    [(py "mod", py "1"); (py "subscriber", py "0")].

Definition say_body (_ : nat) : BaseContext.t -> Command.World ->
                               result unit * Command.World * list Output :=
  Default.repeat_message.

End Sample.
(* ================================================================== *)
(** * Properties *)
(* ================================================================== *)

(** ** Permission floors *)

Section CheckRole.

Import CommandPerm.

Lemma has_owner_large (role : UserRole.t) :
  UserRole.has role UserRole.OWNER = true -> (16 <= role)%N.
Proof.
  unfold UserRole.has, UserRole.OWNER. intros H.
  destruct (N.le_gt_cases 16 role) as [Hle | Hlt]; [exact Hle | exfalso].
  assert (Hbit : N.testbit role 4 = false).
  { destruct (N.eq_dec role 0) as [-> | Hnz]; [reflexivity |].
    apply N.bits_above_log2.
    apply N.log2_lt_pow2; [lia | exact Hlt]. }
  assert (Hz : N.land role (N.shiftl 1 4) = 0%N).
  { apply N.bits_inj_0. intros n. rewrite N.land_spec.
    destruct (N.eq_dec n 4) as [-> | Hn].
    - rewrite Hbit. reflexivity.
    - replace (N.testbit (N.shiftl 1 4) n) with false.
      + apply andb_false_r.
      + symmetry. change (N.shiftl 1 4) with (2 ^ 4)%N.
        apply N.pow2_bits_false. congruence. }
  rewrite Hz in H. discriminate H.
Qed.

Lemma value_le_16 (floor : t) : (value floor <= 16)%N.
Proof. destruct floor; vm_compute; discriminate. Qed.

Lemma eqb_SUB (floor : t) : eqb floor SUB = true <-> floor = SUB.
Proof. destruct floor; vm_compute; split; congruence. Qed.

Lemma permission_is_not_none :
  DenialReason.PERMISSION <> DenialReason.NONE.
Proof. vm_compute. discriminate. Qed.

(** C7: for every permission floor and every role, a role with the Owner
    bit passes [check_role] (the role that is Owner alone passes the
    Admin floor although it has no Admin bit); without the Owner bit the
    Sub floor is passed exactly by the roles that contain the Sub bit;
    every other floor is passed exactly when the role's integer is at
    least the floor's; and a role that does not pass gets the Permission
    bit. *)
Theorem check_role_spec (floor : t) (role : UserRole.t) :
  (UserRole.has role UserRole.OWNER = true ->
   check_role floor role = DenialReason.NONE)
  /\ (UserRole.has UserRole.OWNER UserRole.ADMIN = false
      /\ check_role ADMIN UserRole.OWNER = DenialReason.NONE)
  /\ (UserRole.has role UserRole.OWNER = false ->
      (check_role SUB role = DenialReason.NONE
       <-> UserRole.has role UserRole.SUB = true))
  /\ (floor <> SUB ->
      (check_role floor role = DenialReason.NONE
       <-> (value floor <= role)%N))
  /\ (check_role floor role <> DenialReason.NONE ->
      check_role floor role = DenialReason.PERMISSION).
Proof.
  pose proof permission_is_not_none as Hpn.
  split; [| split; [| split; [| split]]].
  - intros Ho. unfold check_role. rewrite Ho. reflexivity.
  - split; reflexivity.
  - intros Ho. unfold check_role. rewrite Ho.
    change (eqb SUB SUB) with true.
    destruct (UserRole.has role UserRole.SUB); split; intros H;
      solve [reflexivity | contradiction | discriminate H].
  - intros Hfloor. split.
    + intros Hc. unfold check_role in Hc.
      destruct (UserRole.has role UserRole.OWNER) eqn:Ho.
      * pose proof (has_owner_large role Ho).
        pose proof (value_le_16 floor). lia.
      * destruct (eqb floor SUB) eqn:Hf.
        -- apply eqb_SUB in Hf. contradiction.
        -- destruct (N.leb_spec (value floor) role);
             [assumption | contradiction].
    + intros Hle. unfold check_role.
      destruct (UserRole.has role UserRole.OWNER); [reflexivity |].
      destruct (eqb floor SUB) eqn:Hf.
      * apply eqb_SUB in Hf. contradiction.
      * apply N.leb_le in Hle. rewrite Hle. reflexivity.
  - unfold check_role.
    destruct (UserRole.has role UserRole.OWNER); [contradiction |].
    destruct (if eqb floor SUB then _ else _); [contradiction | reflexivity].
Qed.

(** The theorem at two roles and the Mod floor: the owner passes, and a
    subscriber who is also a VIP does not. *)
Lemma check_role_spec_witness :
  check_role MOD UserRole.OWNER = DenialReason.NONE
  /\ check_role MOD (N.lor UserRole.SUB UserRole.VIP)
     = DenialReason.PERMISSION.
Proof.
  split.
  - apply (proj1 (check_role_spec MOD UserRole.OWNER)). reflexivity.
  - apply (proj2 (proj2 (proj2 (proj2
             (check_role_spec MOD (N.lor UserRole.SUB UserRole.VIP)))))).
    vm_compute. discriminate.
Defined.

End CheckRole.

(** ** The parameter grammar *)

Section Grammar.

Import Parameters_.

Lemma role_not_below_none (role : UserRole.t) :
  (role <? CommandPerm.value CommandPerm.NONE)%N = false.
Proof. apply N.ltb_ge. apply N.le_0_l. Qed.

(** C2, as stated, fails: compiling the specification's syntax string
    and parsing [1 x 2 3] does not give [{a: 1, b: x, c: 2 3}], for
    the compilation itself raises. *)
Lemma grammar_round_trip_fails :
  (ps <- from_syntax (Some Sample.spec_syntax) ;;
   parse_args ps (Some (py "1 x 2 3")) UserRole.OWNER)
  <> Ok [(py "a", py "1"); (py "b", py "x"); (py "c", py "2 3")].
Proof. vm_compute. discriminate. Qed.

(** C2, amended: [from_syntax] rejects ["<a> [b=x|y] <c+>"] because the
    required clause [<c+>] follows an optional one.  With the last
    clause optional the syntax compiles; then, for every role,
    [parse_args] on ["1 x 2 3"] returns exactly
    [{a: "1", b: "x", c: "2 3"}], and on ["1 2 3"] it raises an
    [ArgumentError], the second piece not being one of the options of
    [b]: pieces are matched to entries by position. *)
Theorem grammar_round_trip_amended :
  from_syntax (Some Sample.spec_syntax)
  = Raise (ParameterError OptionalBeforeRequired)
  /\ exists ps,
      from_syntax (Some Sample.legal_syntax) = Ok ps
      /\ (forall role,
             parse_args ps (Some (py "1 x 2 3")) role
             = Ok [(py "a", py "1"); (py "b", py "x");
                   (py "c", py "2 3")])
      /\ (forall role,
             parse_args ps (Some (py "1 2 3")) role
             = Raise (ArgumentError
                        (NotInOptions (py "2") [py "x"; py "y"]))).
Proof.
  split; [vm_compute; reflexivity |].
  eexists. split; [vm_compute; reflexivity |].
  split; intros role.
  - unfold parse_args.
    cbn -[N.ltb CommandPerm.value].
    rewrite !role_not_below_none. reflexivity.
  - unfold parse_args.
    cbn -[N.ltb CommandPerm.value].
    rewrite ?role_not_below_none. reflexivity.
Qed.

(** The names that the duplicate test of [from_syntax] counts are at
    most the parameters among the entries. *)
Lemma to_set_length (xs : list str) :
  (List.length (to_set xs) <= List.length xs)%nat.
Proof.
  induction xs as [| x xs IH]; simpl; [lia |].
  destruct (mem x xs); simpl; lia.
Qed.

Lemma parameter_names_short (params : t) :
  existsb is_literal params = true ->
  (List.length (parameter_names params) < List.length params)%nat.
Proof.
  unfold parameter_names. intros H.
  eapply Nat.le_lt_trans; [apply to_set_length |].
  induction params as [| e params IH]; simpl in *; [discriminate |].
  destruct e as [p | s]; simpl in *.
  - apply IH in H. lia.
  - clear. induction params as [| e params IH]; simpl; [lia |].
    destruct e; simpl; lia.
Qed.

(** Every syntax whose clauses compile to entries with a literal among
    them is rejected as having duplicate parameters. *)
Lemma literal_makes_duplicate (syntax : str) (params : t) :
  syntax <> [] ->
  compile_clauses (List.length (split_ws syntax)) 0 [] (split_ws syntax)
  = Ok params ->
  existsb is_literal params = true ->
  from_syntax (Some syntax) = Raise (ParameterError DuplicateParameters).
Proof.
  intros Hne Hc Hl. unfold from_syntax.
  destruct syntax as [| c s]; [contradiction |].
  rewrite Hc. simpl.
  pose proof (parameter_names_short params Hl) as Hlt.
  apply Nat.lt_neq in Hlt. apply Nat.eqb_neq in Hlt.
  rewrite Hlt. reflexivity.
Qed.

(** C3, at the failing input: the syntax ["add <x>"], a literal clause
    and one uniquely named parameter, is rejected with the error for
    duplicate parameters. *)
Theorem from_syntax_rejects_literal :
  from_syntax (Some Sample.literal_syntax)
  = Raise (ParameterError DuplicateParameters).
Proof. vm_compute. reflexivity. Qed.

End Grammar.

(** ** The messenger: the rate limit *)

Section RateLimit.

Import BaseChannel.

(** C5, as stated, fails: with the counter (0) below the limit (20) but
    the bot switched off, [_submit] delivers nothing and leaves the
    counter as it was. *)
Lemma submit_below_limit_not_delivered :
  (Messenger.sent (messenger Sample.room) < ratelimit Sample.room)%Z
  /\ _submit false Sample.room (py "hi") = (Sample.room, [])
  /\ _submit false Sample.room (py "hi")
     <> (with_messenger Sample.room (Messenger.Build 1 (py "hi") [] 0),
         irc_submit (py "room") (py "hi")).
Proof.
  split; [reflexivity |]. split; [reflexivity |].
  vm_compute. discriminate.
Qed.

(** C5, amended: the limit is 20, or 100 when the channel has the bot as
    a moderator.  When the bot is active, the channel is active and its
    live state allows activity, [_submit] with the counter not below the
    limit only prints the warning, and with the counter below the limit
    it submits the message (with the differentiator when it repeats the
    last one) and adds one to the counter.  When one of the three flags
    is off it does nothing at all.  In no case does it put the message
    back on the queue, and a counter that is within the limit stays
    within it. *)
Theorem submit_rate_limit
        (bot_active : bool) (ch : t) (message : str) :
  let m := messenger ch in
  let text :=
    if str_eqb message (Messenger.last_message m)
    then message ++ differentiator else message in
  let gate := bot_active && active ch && activity_allowed ch in
  let after := fst (_submit bot_active ch message) in
  ratelimit ch = (if mod_ ch then 100 else 20)%Z
  /\ (gate = true -> (ratelimit ch <= Messenger.sent m)%Z ->
      _submit bot_active ch message
      = (ch, [Print (RateLimitLine (name ch) (Messenger.sent m)
                                   (ratelimit ch))]))
  /\ (gate = true -> (Messenger.sent m < ratelimit ch)%Z ->
      _submit bot_active ch message
      = (with_messenger ch
           (Messenger.Build (Messenger.sent m + 1) text
                            (Messenger.sendlist m) (Messenger.timeout m)),
         irc_submit (name ch) text))
  /\ (gate = false -> _submit bot_active ch message = (ch, []))
  /\ Messenger.sendlist (messenger after) = Messenger.sendlist m
  /\ ((Messenger.sent m <= ratelimit ch)%Z ->
      (Messenger.sent (messenger after) <= ratelimit after)%Z).
Proof.
  intros m text gate after.
  split; [reflexivity |].
  split; [| split; [| split; [| split]]].
  - intros Hg Hle. unfold _submit. fold m. fold gate. rewrite Hg.
    apply Z.ltb_ge in Hle. rewrite Hle. reflexivity.
  - intros Hg Hlt. unfold _submit. fold m. fold gate. rewrite Hg.
    apply Z.ltb_lt in Hlt. rewrite Hlt. reflexivity.
  - intros Hg. unfold _submit. fold m. fold gate. rewrite Hg. reflexivity.
  - subst after. unfold _submit. fold m. fold gate.
    destruct gate; [| reflexivity].
    destruct (Messenger.sent m <? ratelimit ch)%Z; reflexivity.
  - intros Hle. subst after. unfold _submit. fold m. fold gate.
    destruct gate; [| exact Hle].
    destruct (Z.ltb_spec (Messenger.sent m) (ratelimit ch)) as [Hlt | Hge];
      [| exact Hle].
    destruct ch; simpl in *. unfold ratelimit in *. simpl in *. lia.
Qed.

(** The theorem at the channel with 20 messages sent: the next message
    is only warned about. *)
Lemma submit_rate_limit_witness :
  _submit true Sample.full_room (py "u")
  = (Sample.full_room, [Print (RateLimitLine (py "room") 20 20)]).
Proof.
  apply (proj1 (proj2 (submit_rate_limit true Sample.full_room (py "u")))).
  - reflexivity.
  - vm_compute. discriminate.
Defined.

End RateLimit.

(** ** The messenger: the order of delivery *)

Section DeliveryOrder.

Import Outbound.

Lemma in_order_pending (rest : list str) : in_order rest [].
Proof.
  induction rest as [| m rest IH]; [constructor | now constructor].
Qed.

Lemma in_order_app (q1 s1 q2 s2 : list str) :
  in_order q1 s1 -> in_order q2 s2 -> in_order (q1 ++ q2) (s1 ++ s2).
Proof.
  intros H1 H2. induction H1; simpl;
    [exact H2 | now constructor | now constructor | now constructor].
Qed.

Lemma delivered_app (a b : list Output) :
  delivered (a ++ b) = delivered a ++ delivered b.
Proof. unfold delivered. apply flat_map_app. Qed.

Lemma enqueued_app (a b : list Event) :
  enqueued (a ++ b) = enqueued a ++ enqueued b.
Proof. unfold enqueued. apply flat_map_app. Qed.

(** What [_submit] hands to the transport: nothing, the message, or the
    message with the differentiator. *)
Lemma submit_delivers (bot_active : bool) (ch : BaseChannel.t)
      (message : str) :
  in_order [message]
           (delivered (snd (BaseChannel._submit bot_active ch message)))
  /\ Messenger.sendlist
       (BaseChannel.messenger
          (fst (BaseChannel._submit bot_active ch message)))
     = Messenger.sendlist (BaseChannel.messenger ch).
Proof.
  unfold BaseChannel._submit.
  destruct (bot_active && BaseChannel.active ch
            && BaseChannel.activity_allowed ch);
    [| split; [apply in_order_pending | reflexivity]].
  destruct (Messenger.sent (BaseChannel.messenger ch)
            <? BaseChannel.ratelimit ch)%Z;
    [| split; [apply in_order_pending | reflexivity]].
  split; [| reflexivity].
  simpl.
  destruct (str_eqb message
              (Messenger.last_message (BaseChannel.messenger ch)));
    [apply in_order_mark | apply in_order_keep]; apply in_order_nil.
Qed.

(** A move of the queue task takes at most the head of the queue and
    hands it, at most, to the transport. *)
Lemma move_takes_head (running bot_active : bool) (at0 : BaseChannel.pc)
      (ch : BaseChannel.t) :
  let r := BaseChannel.message_queue_step running bot_active at0 ch in
  exists taken,
    Messenger.sendlist (BaseChannel.messenger ch)
    = taken ++ Messenger.sendlist (BaseChannel.messenger (snd (fst r)))
    /\ in_order taken (delivered (snd r)).
Proof.
  unfold BaseChannel.message_queue_step.
  destruct at0.
  - destruct (negb running); [exists []; split; [reflexivity | constructor] |].
    destruct (Messenger.timeout (BaseChannel.messenger ch) <? 0)%Z;
      [exists []; split; [reflexivity | constructor] |].
    destruct (negb (Messenger.timeout (BaseChannel.messenger ch) =? 0)%Z);
      exists []; split; solve [reflexivity | constructor].
  - destruct (0 <? Messenger.timeout (BaseChannel.messenger ch))%Z;
      exists []; split; solve [reflexivity | constructor].
  - destruct (Messenger.sendlist (BaseChannel.messenger ch))
      as [| message rest] eqn:Hq.
    + exists []. simpl. rewrite Hq. split; [reflexivity | constructor].
    + set (ch' := BaseChannel.with_messenger ch _).
      pose proof (submit_delivers bot_active ch' message) as [Hd Hs].
      destruct (BaseChannel._submit bot_active ch' message) as [ch2 out].
      simpl in *. exists [message]. rewrite Hs. split; [reflexivity | exact Hd].
  - exists []. split; [reflexivity | constructor].
Qed.

(** The invariant of a run: the accepted messages are those taken off
    the queue so far followed by the queue, and the transport got, in
    order, some of the taken ones. *)
Lemma run_invariant (s0 : State) (events : list Event) :
  exists taken,
    Messenger.sendlist (BaseChannel.messenger (channel s0))
    ++ enqueued events
    = taken
      ++ Messenger.sendlist
           (BaseChannel.messenger (channel (run s0 events)))
    /\ exists out,
        wire (run s0 events) = wire s0 ++ out
        /\ in_order taken (delivered out).
Proof.
  induction events as [| e events IH] using rev_ind.
  - exists []. simpl. rewrite app_nil_r. split; [reflexivity |].
    exists []. rewrite app_nil_r. split; [reflexivity | constructor].
  - destruct IH as (taken & Hq & out & Hw & Ho).
    unfold run in *. rewrite fold_left_app. simpl.
    set (s := fold_left step events s0) in *.
    rewrite enqueued_app, app_assoc, Hq.
    destruct e; simpl.
    + (* Send *)
      exists taken. split.
      * unfold BaseChannel.send.
        destruct message as [| c message]; simpl;
          [now rewrite app_nil_r | now rewrite app_assoc].
      * exists out. split; [exact Hw | exact Ho].
    + (* Move *)
      pose proof (move_takes_head (bot_running s) (bot_active s)
                                  (at_ s) (channel s)) as Hm.
      destruct (BaseChannel.message_queue_step
                  (bot_running s) (bot_active s) (at_ s) (channel s))
        as [[at' ch'] out'].
      simpl in *. destruct Hm as (took & Hs & Hd).
      exists (taken ++ took). split.
      * rewrite Hs, app_nil_r, app_assoc. reflexivity.
      * exists (out ++ out'). split.
        -- rewrite Hw, app_assoc. reflexivity.
        -- rewrite delivered_app. now apply in_order_app.
    + exists taken. split; [now rewrite app_nil_r |].
      exists out. split; [exact Hw | exact Ho].
    + exists taken. split; [now rewrite app_nil_r |].
      exists out. split; [exact Hw | exact Ho].
    + exists taken. split; [now rewrite app_nil_r |].
      exists out. split; [exact Hw | exact Ho].
    + exists taken. split; [now rewrite app_nil_r |].
      exists out. split; [exact Hw | exact Ho].
    + exists taken. split; [now rewrite app_nil_r |].
      exists out. split; [exact Hw | exact Ho].
Qed.

(** From a fresh channel, whatever the events: the messages handed to
    the transport are, in order, some of the accepted ones. *)
Lemma delivery_in_order (name : str) (active_online active_offline : bool)
      (events : list Event) :
  in_order (enqueued events)
           (delivered
              (wire (run (initial name active_online active_offline)
                         events))).
Proof.
  destruct (run_invariant (initial name active_online active_offline)
                          events) as (taken & Hq & out & Hw & Ho).
  simpl in Hq, Hw. rewrite Hw, Hq.
  rewrite <- (app_nil_r (delivered out)).
  apply in_order_app; [exact Ho | apply in_order_pending].
Qed.

(** C6, as stated, fails: in the run [Sample.burst] the twenty-first
    message is accepted, but the transport gets the first twenty only;
    after the reset of the window the queue is empty, so the message is
    not delivered later either, and the delivered sequence is not the
    enqueued one. *)
Lemma twenty_first_message_never_delivered :
  let final := run (initial (py "room") true true) Sample.burst in
  enqueued Sample.burst = Sample.letters
  /\ delivered (wire final) = firstn 20 Sample.letters
  /\ Messenger.sendlist (BaseChannel.messenger (channel final)) = []
  /\ Messenger.sent (BaseChannel.messenger (channel final)) = 0%Z
  /\ delivered (wire final) <> enqueued Sample.burst.
Proof.
  vm_compute.
  repeat split; discriminate.
Qed.

(** C6, amended: a non-empty message is always accepted at the end of
    the queue, whatever the counter.  When the queue task takes a
    message while the counter is not below the limit, the message leaves
    the queue and nothing is delivered: it is dropped, not kept for the
    next window.  The warning is printed when the bot is active, the
    channel is active and its live state allows activity; with one of
    these off the message is dropped without any output.  In every run
    from a fresh channel the delivered messages are, in the order of
    their acceptance, some of the accepted ones, each as it was accepted
    or with the differentiator appended. *)
Theorem overflow_dropped_delivery_in_order :
  (forall (ch : BaseChannel.t) (c : char) (m : str),
      Messenger.sendlist
        (BaseChannel.messenger (BaseChannel.send ch (c :: m)))
      = Messenger.sendlist (BaseChannel.messenger ch) ++ [c :: m])
  /\ (forall (bot_active : bool) (ch : BaseChannel.t)
             (message : str) (rest : list str),
         Messenger.sendlist (BaseChannel.messenger ch) = message :: rest ->
         (BaseChannel.ratelimit ch
          <= Messenger.sent (BaseChannel.messenger ch))%Z ->
         BaseChannel.message_queue_step true bot_active BaseChannel.AtGet ch
         = (BaseChannel.AtLoop,
            BaseChannel.with_messenger ch
              (Messenger.Build
                 (Messenger.sent (BaseChannel.messenger ch))
                 (Messenger.last_message (BaseChannel.messenger ch))
                 rest
                 (Messenger.timeout (BaseChannel.messenger ch))),
            if bot_active && BaseChannel.active ch
               && BaseChannel.activity_allowed ch
            then [Print (RateLimitLine
                           (BaseChannel.name ch)
                           (Messenger.sent (BaseChannel.messenger ch))
                           (BaseChannel.ratelimit ch))]
            else []))
  /\ (forall (name : str) (active_online active_offline : bool)
             (events : list Event),
         in_order (enqueued events)
                  (delivered
                     (wire (run (initial name active_online
                                         active_offline) events)))).
Proof.
  split; [| split].
  - intros ch c m. reflexivity.
  - intros bot_active ch message rest Hq Hle.
    unfold BaseChannel.message_queue_step. rewrite Hq.
    destruct ch as [n a l md ao af cd ms ud cn].
    destruct ms as [sent last queue timeout].
    simpl in *. unfold BaseChannel._submit. simpl.
    unfold BaseChannel.activity_allowed in *. simpl in *.
    unfold BaseChannel.ratelimit in *. simpl in *.
    apply Z.ltb_ge in Hle. rewrite Hle.
    destruct (bot_active && a && (l && ao || negb l && af));
      reflexivity.
  - exact delivery_in_order.
Qed.

(** The theorem at the channel with 20 messages sent and ["u"] queued:
    the queue task takes ["u"] and drops it. *)
Lemma overflow_dropped_witness :
  BaseChannel.message_queue_step
    true true BaseChannel.AtGet
    (BaseChannel.send Sample.full_room (py "u"))
  = (BaseChannel.AtLoop, Sample.full_room,
     [Print (RateLimitLine (py "room") 20 20)]).
Proof.
  apply (proj1 (proj2 overflow_dropped_delivery_in_order)
               true (BaseChannel.send Sample.full_room (py "u"))
               (py "u") []).
  - reflexivity.
  - vm_compute. discriminate.
Defined.

End DeliveryOrder.

(** ** Strings and dictionaries *)

Section Dictionaries.

Lemma str_eqb_eq (a b : str) : str_eqb a b = true <-> a = b.
Proof.
  revert b. induction a as [| x a IH]; intros [| y b]; simpl;
    try (split; congruence).
  rewrite andb_true_iff, N.eqb_eq, IH.
  split; [intros [-> ->]; reflexivity | intros H; now inversion H].
Qed.

Lemma str_eqb_refl (a : str) : str_eqb a a = true.
Proof. now apply str_eqb_eq. Qed.

Lemma str_eqb_neq (a b : str) : str_eqb a b = false <-> a <> b.
Proof.
  rewrite <- str_eqb_eq. destruct (str_eqb a b); split; congruence.
Qed.

Variable V : Type.

Lemma get_set_same (d : dict V) (k : str) (v : V) :
  get (Py.set d k v) k = Some v.
Proof.
  induction d as [| [k' v'] d IH]; simpl.
  - now rewrite str_eqb_refl.
  - destruct (str_eqb k k') eqn:E; simpl; rewrite E; [reflexivity | exact IH].
Qed.

Lemma get_set_other (d : dict V) (k k2 : str) (v : V) :
  k <> k2 -> get (Py.set d k v) k2 = get d k2.
Proof.
  intros Hne. induction d as [| [k' v'] d IH]; simpl.
  - assert (E : str_eqb k2 k = false) by (apply str_eqb_neq; congruence).
    now rewrite E.
  - destruct (str_eqb k k') eqn:E; simpl.
    + apply str_eqb_eq in E. subst k'.
      assert (E2 : str_eqb k2 k = false) by (apply str_eqb_neq; congruence).
      now rewrite E2.
    + destruct (str_eqb k2 k'); [reflexivity | exact IH].
Qed.

(** Replacing the value under a key that is present leaves every
    projection that agrees on the old and the new value as it was. *)
Lemma map_set_same (W : Type) (g : V -> W) (d : dict V) (k : str)
      (v v0 : V) :
  get d k = Some v0 -> g v = g v0 ->
  map (fun kv => (fst kv, g (snd kv))) (Py.set d k v)
  = map (fun kv => (fst kv, g (snd kv))) d.
Proof.
  intros Hget Hg. induction d as [| [k' v'] d IH]; simpl in *.
  - discriminate Hget.
  - destruct (str_eqb k k') eqn:E; simpl.
    + inversion Hget; subst v0. now rewrite Hg.
    + f_equal. now apply IH.
Qed.

End Dictionaries.

(** ** Commands: names, aliases and triggers *)

Section Aliases.

Import Command.

Lemma registered_keys (self : t) (aliases : list str) (d : dict t)
      (key : str) :
  In key aliases \/ get d key = Some self ->
  get (fold_left (fun d alias => Py.set d alias self) aliases d) key
  = Some self.
Proof.
  revert d. induction aliases as [| a aliases IH]; intros d H; simpl.
  - destruct H as [[] | H]; exact H.
  - apply IH.
    destruct (str_eqb a key) eqn:E.
    + apply str_eqb_eq in E. subst a. right. apply get_set_same.
    + apply str_eqb_neq in E.
      destruct H as [[Ha | Hin] | Hget];
        [contradiction | now left | right].
      rewrite get_set_other; assumption.
Qed.

Lemma other_keys_kept (self : t) (aliases : list str) (d : dict t)
      (key : str) :
  ~ In key aliases ->
  get (fold_left (fun d alias => Py.set d alias self) aliases d) key
  = get d key.
Proof.
  revert d. induction aliases as [| a aliases IH]; intros d Hnot; simpl;
    [reflexivity |].
  rewrite IH by (intros Hin; apply Hnot; now right).
  apply get_set_other. intros Heq. apply Hnot. now left.
Qed.

(** [get_by_trigger] only ever returns a command whose own trigger,
    prefix and name, is the string asked for. *)
Lemma get_by_trigger_sound (registry : dict t) (default_prefix : str)
      (trigger_ : str) (cmd : t) :
  get_by_trigger registry default_prefix trigger_ = Some cmd ->
  effective_prefix default_prefix cmd ++ name cmd = trigger_
  /\ In cmd (values registry).
Proof.
  unfold get_by_trigger. intros H.
  apply find_some in H. destruct H as [Hin Heq].
  apply str_eqb_eq in Heq. split; assumption.
Qed.

(** C10: registering a command makes [get_by_name] return it for its
    name and for each of its aliases; but [get_by_trigger] returns a
    command only for its prefix followed by its name, so a chat message
    whose first token is the prefix followed by an alias other than the
    name never triggers the command in [check_command]. *)
Theorem aliases_name_but_do_not_trigger
        (registry registry' : dict t) (func : nat) (name : str)
        (syntax : option str) (desc : str) (perm : CommandPerm.t)
        (prefix : option str) (aliases : option (list str))
        (global_cd user_cd : Z) (hide active : bool) (self : t) :
  init registry func name syntax desc perm prefix aliases
       global_cd user_cd hide active = Ok (self, registry') ->
  Command.name self = name
  /\ (forall key,
         key = name \/ In key (Command.aliases self) ->
         get_by_name registry' key = Some self)
  /\ (forall key,
         key <> name -> ~ In key (Command.aliases self) ->
         get_by_name registry' key = get_by_name registry key)
  /\ (forall (w : World) (msg : ChatMessage.t) (alias : str),
         In alias (Command.aliases self) ->
         alias <> name ->
         fst (start_and_args (ChatMessage.message msg))
         = effective_prefix (default_prefix w) self ++ alias ->
         get_by_trigger (commands w) (default_prefix w)
                        (effective_prefix (default_prefix w) self ++ alias)
         <> Some self
         /\ triggered w msg <> Some self).
Proof.
  unfold init. intros H.
  destruct (Parameters_.from_syntax syntax) as [params |]; simpl in H;
    [| discriminate H].
  inversion H as [[Hself Hreg]]. clear H.
  subst registry'. rewrite Hself.
  split; [now rewrite <- Hself |].
  split; [| split].
  - intros key Hkey. unfold get_by_name.
    apply registered_keys.
    destruct Hkey as [-> | Hin]; [right; apply get_set_same | left].
    rewrite <- Hself in Hin. exact Hin.
  - intros key Hname Hnot. unfold get_by_name.
    rewrite <- Hself in Hnot. simpl in Hnot.
    rewrite other_keys_kept by exact Hnot.
    apply get_set_other. congruence.
  - intros w msg alias Hin Hne Hstart.
    assert (Hno : forall cmd,
               get_by_trigger (commands w) (default_prefix w)
                 (effective_prefix (default_prefix w) self ++ alias)
               = Some cmd -> cmd <> self).
    { intros cmd Hget Heq. subst cmd.
      apply get_by_trigger_sound in Hget. destruct Hget as [Ht _].
      apply app_inv_head in Ht. rewrite <- Hself in Ht. simpl in Ht.
      congruence. }
    split.
    + intros Hget. exact (Hno self Hget eq_refl).
    + unfold triggered. rewrite Hstart.
      destruct (get_by_trigger (commands w) (default_prefix w)
                  (effective_prefix (default_prefix w) self ++ alias))
        as [cmd |] eqn:Hget; [| discriminate].
      destruct (Command.active cmd && _); [| discriminate].
      intros Heq. inversion Heq as [Hc]. exact (Hno cmd eq_refl Hc).
Qed.

(** The theorem for the command [shout] with the alias [yell]: both
    names find it, and the message [!yell hi] does not trigger it. *)
Lemma aliases_name_but_do_not_trigger_witness :
  get_by_name Sample.registry (py "shout") = Some Sample.shout
  /\ get_by_name Sample.registry (py "yell") = Some Sample.shout
  /\ triggered (Sample.world_with Sample.room)
               (Sample.chat (py "bob") (py "!yell hi"))
     <> Some Sample.shout.
Proof.
  destruct (aliases_name_but_do_not_trigger
              [] 0 (py "shout") (Some (py "<text+>")) (py "Shout it.")
              CommandPerm.MOD None (Some [py "yell"]) 10 30 false true
              (self := Sample.shout) (registry' := Sample.registry)
              eq_refl) as (_ & Hname & _ & Htrig).
  split; [apply Hname; now left |].
  split; [apply Hname; right; simpl; now left |].
  apply (Htrig (Sample.world_with Sample.room)
               (Sample.chat (py "bob") (py "!yell hi")) (py "yell")).
  - simpl. now left.
  - vm_compute. discriminate.
  - reflexivity.
Defined.

End Aliases.

(** ** Commands: denial *)

Section Denial.

Import Command.

(** Whatever the reason, [handle_denial] changes the channel at most by
    queueing the permission text, which it does only for a reason with
    the Permission bit and without the Blacklist bit, for a command
    that is not hidden; everything else it emits is a console line. *)
Lemma handle_denial_chat (self : t) (channel channel' : BaseChannel.t)
      (username : str) (reason : DenialReason.t) (t_global t_user : Q)
      (out : list Output) :
  handle_denial self channel username reason t_global t_user
  = Ok (channel', out) ->
  channel'
  = (if DenialReason.has reason DenialReason.PERMISSION
        && negb (DenialReason.has reason DenialReason.BLACKLIST)
        && negb (hide self)
     then BaseChannel.send channel (denial_text self username)
     else channel)
  /\ Forall (fun o => exists line, o = Print line) out.
Proof.
  unfold handle_denial.
  destruct (DenialReason.has reason DenialReason.BLACKLIST).
  - intros H. inversion H. rewrite andb_false_r. simpl.
    split; [reflexivity | constructor].
  - rewrite andb_true_r.
    destruct (DenialReason.has reason DenialReason.GLOBAL_COOLDOWN);
      destruct (DenialReason.has reason DenialReason.USER_COOLDOWN);
      simpl;
      repeat match goal with
             | |- context [getitem ?d ?k] =>
                 destruct (getitem d k); simpl
             end;
      intros H; inversion H; subst;
        (split; [reflexivity | repeat constructor; eexists; reflexivity]).
Qed.

(** C4, as stated, fails: for the blacklisted user [eve], under both
    cooldowns of [shout] and below its floor, the combined reason has
    all four bits, and on it [handle_denial] emits nothing, no chat
    message for the Permission bit either; [check_command] leaves the
    world as it was, the send queue empty. *)
Lemma blacklisted_denial_is_silent :
  denial_reason Sample.shout (Sample.world_with Sample.cooled_room)
                Sample.cooled_room
                (Sample.chat (py "eve") (py "!shout hi")) UserRole.NONE
  = Sample.all_reasons
  /\ handle_denial Sample.shout Sample.cooled_room (py "eve")
                   Sample.all_reasons (inject_Z 95) (inject_Z 95)
     = Ok (Sample.cooled_room, [])
  /\ check_command Sample.idle_body Sample.plain_text
                   (Sample.world_with Sample.cooled_room)
                   (Sample.chat (py "eve") (py "!shout hi"))
                   (inject_Z 95) (inject_Z 95)
     = Ok (Sample.world_with Sample.cooled_room, [])
  /\ ~ In (denial_text Sample.shout (py "eve"))
          (Messenger.sendlist (BaseChannel.messenger Sample.cooled_room)).
Proof.
  split; [reflexivity |]. split; [reflexivity |].
  split; [vm_compute; reflexivity |].
  simpl. tauto.
Qed.

(** C4, amended: for a user who is blacklisted, under both cooldowns and
    below the permission floor, the bitwise-or of the three checks has
    the GlobalCooldown, UserCooldown, Permission and Blacklist bits.
    On that reason [handle_denial] returns at its Blacklist test and
    emits nothing, neither in chat nor on the console.  On the same
    reason without the Blacklist bit it prints one console line for
    each cooldown, the global one first, each for the expiry stored for
    the command and the clock reading of its branch, and queues one chat
    message, the permission text, unless the command is hidden. *)
Theorem denial_combination
        (cmd : t) (w : World) (channel : BaseChannel.t)
        (msg : ChatMessage.t) (role : UserRole.t)
        (inner : dict Q) (expiry_global expiry_user : Q)
        (t_global t_user : Q) :
  get (BaseChannel.cooldowns channel) (name cmd) = Some expiry_global ->
  get (UserData.cooldowns (BaseChannel.userdata channel))
      (ChatMessage.user msg) = Some inner ->
  get inner (name cmd) = Some expiry_user ->
  CommandPerm.check_role (perm cmd) role = DenialReason.PERMISSION ->
  mem (ChatMessage.user msg) (Ranks.blacklist (BaseBot.ranks (bot w)))
  = true ->
  denial_reason cmd w channel msg role = Sample.all_reasons
  /\ handle_denial cmd channel (ChatMessage.user msg) Sample.all_reasons
                   t_global t_user
     = Ok (channel, [])
  /\ handle_denial cmd channel (ChatMessage.user msg) Sample.three_reasons
                   t_global t_user
     = Ok (if hide cmd then channel
           else BaseChannel.send channel
                  (denial_text cmd (ChatMessage.user msg)),
           [Print (GlobalCooldownLine (name cmd) expiry_global t_global);
            Print (UserCooldownLine (name cmd) (ChatMessage.user msg)
                                    expiry_user t_user)]).
Proof.
  intros Hg Hu Hi Hp Hb.
  split; [| split].
  - unfold denial_reason, check_cooldowns, has_key, Ranks.check_blacklist.
    rewrite Hg, Hu, Hi, Hp, Hb. reflexivity.
  - reflexivity.
  - unfold handle_denial.
    change (DenialReason.has Sample.three_reasons DenialReason.BLACKLIST)
      with false.
    change (DenialReason.has Sample.three_reasons DenialReason.GLOBAL_COOLDOWN)
      with true.
    change (DenialReason.has Sample.three_reasons DenialReason.USER_COOLDOWN)
      with true.
    change (DenialReason.has Sample.three_reasons DenialReason.PERMISSION)
      with true.
    unfold getitem. rewrite Hg, Hu, Hi. simpl.
    destruct (hide cmd); reflexivity.
Qed.

(** The theorem for [eve] and [shout] in the channel under cooldown. *)
Lemma denial_combination_witness :
  denial_reason Sample.shout (Sample.world_with Sample.cooled_room)
                Sample.cooled_room
                (Sample.chat (py "eve") (py "!shout hi")) UserRole.NONE
  = Sample.all_reasons
  /\ handle_denial Sample.shout Sample.cooled_room (py "eve")
                   Sample.three_reasons (inject_Z 95) (inject_Z 95)
     = Ok (BaseChannel.send Sample.cooled_room
             (py "@eve Insufficient perms (mod)"),
           [Print (GlobalCooldownLine (py "shout")
                                      (inject_Z 100) (inject_Z 95));
            Print (UserCooldownLine (py "shout") (py "eve")
                                    (inject_Z 130) (inject_Z 95))]).
Proof.
  destruct (denial_combination
              Sample.shout (Sample.world_with Sample.cooled_room)
              Sample.cooled_room
              (Sample.chat (py "eve") (py "!shout hi")) UserRole.NONE
              (inner := [(py "shout", inject_Z 130)])
              (expiry_global := inject_Z 100)
              (expiry_user := inject_Z 130)
              (inject_Z 95) (inject_Z 95)
              eq_refl eq_refl eq_refl eq_refl eq_refl)
    as (Hall & _ & Hthree).
  split; [exact Hall | exact Hthree].
Defined.

End Denial.

(** ** Commands: execution and cooldowns *)

Section Execution.

Import Command.

Lemma update_channel_tables (w : World) (key : str)
      (f : BaseChannel.t -> BaseChannel.t) :
  (forall ch,
      BaseChannel.cooldowns (f ch) = BaseChannel.cooldowns ch
      /\ UserData.cooldowns (BaseChannel.userdata (f ch))
         = UserData.cooldowns (BaseChannel.userdata ch)) ->
  cooldown_tables (update_channel w key f) = cooldown_tables w.
Proof.
  intros Hf. unfold update_channel.
  destruct (get (BaseBot.channels (bot w)) key) as [ch |] eqn:Hget;
    [| reflexivity].
  unfold cooldown_tables. simpl.
  apply (map_set_same
           (fun c => (BaseChannel.cooldowns c,
                      UserData.cooldowns (BaseChannel.userdata c)))
           _ _ _ Hget).
  destruct (Hf ch) as [H1 H2]. now rewrite H1, H2.
Qed.

Lemma send_keeps_cooldowns (message : str) (ch : BaseChannel.t) :
  BaseChannel.cooldowns (BaseChannel.send ch message)
  = BaseChannel.cooldowns ch
  /\ UserData.cooldowns (BaseChannel.userdata (BaseChannel.send ch message))
     = UserData.cooldowns (BaseChannel.userdata ch).
Proof.
  unfold BaseChannel.send. destruct (nonempty message); split; reflexivity.
Qed.

(** The [except] branch of [execute] leaves every cooldown table alone. *)
Lemma on_error_tables (error_text : exn -> str) (w : World)
      (channel : str) (error : exn) :
  cooldown_tables (fst (on_error error_text w channel error))
  = cooldown_tables w.
Proof.
  unfold on_error. simpl.
  destruct (BaseConfig.show_errors (BaseBot.config (bot w)));
    [| reflexivity].
  apply update_channel_tables. intros ch. apply send_keeps_cooldowns.
Qed.

(** When the arguments do not parse, what [execute] does is the same for
    every command body: the body plays no part in it. *)
Lemma execute_without_body
      (call call' : nat -> BaseContext.t -> World ->
                    result unit * World * list Output)
      (error_text : exn -> str) (self : t) (w : World)
      (msg : ChatMessage.t) (channel : str) (arg_string : option str)
      (t_global t_user : Q) (role : UserRole.t) (error : exn) :
  UserRole.from_message (BaseBot.ranks (bot w)) msg = Ok role ->
  Parameters_.parse_args (params self) arg_string role = Raise error ->
  execute call error_text self w msg channel arg_string t_global t_user
  = execute call' error_text self w msg channel arg_string t_global t_user.
Proof.
  intros Hrole Hparse. unfold execute. rewrite Hrole. simpl.
  rewrite Hparse. reflexivity.
Qed.

(** C8: [execute] returns, and it applies the cooldowns exactly when the
    arguments parse, the body returns without raising, and the role is
    below Mod.  When [parse_args] raises, the body is not invoked and the
    cooldown tables stay as they were; when the body raises, the error is
    caught and the tables stay as the body left them; after a body that
    returned, a role at or above Mod leaves the world as the body left
    it, and a role below Mod has [apply_cooldown] run on the channel. *)
Theorem execute_applies_cooldown
        (call : nat -> BaseContext.t -> World ->
                result unit * World * list Output)
        (error_text : exn -> str) (self : t) (w : World)
        (msg : ChatMessage.t) (channel : str) (arg_string : option str)
        (t_global t_user : Q) (role : UserRole.t) :
  UserRole.from_message (BaseBot.ranks (bot w)) msg = Ok role ->
  exists r,
    execute call error_text self w msg channel arg_string t_global t_user
    = Ok r
    /\ (cooldown_applied r = true <->
        exists args u w' out,
          Parameters_.parse_args (params self) arg_string role = Ok args
          /\ call (func self) (BaseContext.Build msg channel args) w
             = (Ok u, w', out)
          /\ (role < UserRole.MOD)%N)
    /\ (forall error,
           Parameters_.parse_args (params self) arg_string role
           = Raise error ->
           body_invoked r = false
           /\ cooldown_applied r = false
           /\ cooldown_tables (world r) = cooldown_tables w)
    /\ (forall args error w' out,
           Parameters_.parse_args (params self) arg_string role = Ok args ->
           call (func self) (BaseContext.Build msg channel args) w
           = (Raise error, w', out) ->
           body_invoked r = true
           /\ cooldown_applied r = false
           /\ cooldown_tables (world r) = cooldown_tables w')
    /\ (forall args u w' out,
           Parameters_.parse_args (params self) arg_string role = Ok args ->
           call (func self) (BaseContext.Build msg channel args) w
           = (Ok u, w', out) ->
           ((UserRole.MOD <= role)%N ->
            cooldown_applied r = false /\ world r = w')
           /\ ((role < UserRole.MOD)%N ->
               cooldown_applied r = true
               /\ world r
                  = update_channel w' channel
                      (fun ch => apply_cooldown self ch msg None None
                                                t_global t_user))).
Proof.
  intros Hrole. unfold execute. rewrite Hrole. simpl.
  destruct (Parameters_.parse_args (params self) arg_string role)
    as [args | error] eqn:Hparse.
  - destruct (call (func self) (BaseContext.Build msg channel args) w)
      as [[[u | error] w'] out] eqn:Hcall.
    + destruct (N.ltb_spec role UserRole.MOD) as [Hlt | Hge].
      * eexists. split; [reflexivity |]. simpl.
        split; [| split; [| split]].
        -- split; [intros _ | reflexivity].
           exists args, u, w', out. repeat split; assumption.
        -- intros e He. discriminate He.
        -- intros a e w2 o Ha Hc. inversion Ha; subst a.
           rewrite Hcall in Hc. discriminate Hc.
        -- intros a u2 w2 o Ha Hc. inversion Ha; subst a.
           rewrite Hcall in Hc. inversion Hc; subst.
           split; [intros Hle; lia | intros _; split; reflexivity].
      * eexists. split; [reflexivity |]. simpl.
        split; [| split; [| split]].
        -- split; [discriminate |].
           intros (a & u2 & w2 & o & _ & _ & Hlt). lia.
        -- intros e He. discriminate He.
        -- intros a e w2 o Ha Hc. inversion Ha; subst a.
           rewrite Hcall in Hc. discriminate Hc.
        -- intros a u2 w2 o Ha Hc. inversion Ha; subst a.
           rewrite Hcall in Hc. inversion Hc; subst.
           split; [intros _; split; reflexivity | intros Hlt; lia].
    + pose proof (on_error_tables error_text w' channel error) as Ht.
      eexists. split; [reflexivity |]. simpl.
      split; [| split; [| split]].
      * split; [discriminate |].
        intros (a & u2 & w3 & o & Ha & Hc & _). inversion Ha; subst a.
        rewrite Hcall in Hc. discriminate Hc.
      * intros e He. discriminate He.
      * intros a e w3 o Ha Hc. inversion Ha; subst a.
        rewrite Hcall in Hc. inversion Hc; subst.
        repeat split; try reflexivity. exact Ht.
      * intros a u2 w3 o Ha Hc. inversion Ha; subst a.
        rewrite Hcall in Hc. discriminate Hc.
  - pose proof (on_error_tables error_text w channel error) as Ht.
    eexists. split; [reflexivity |]. simpl.
    split; [| split; [| split]].
    + split; [discriminate |].
      intros (a & u2 & w3 & o & Ha & _). discriminate Ha.
    + intros e _. repeat split; try reflexivity. exact Ht.
    + intros a e w3 o Ha. discriminate Ha.
    + intros a u2 w3 o Ha. discriminate Ha.
Qed.

(** The theorem for [bob], who is below Mod, running [shout] with a body
    that returns: both cooldowns of the command are set on the channel. *)
Lemma execute_applies_cooldown_witness :
  exists r,
    execute Sample.idle_body Sample.plain_text Sample.shout
            (Sample.world_with Sample.room)
            (Sample.chat (py "bob") (py "!shout hi")) (py "room")
            (Some (py "hi")) (inject_Z 5) (inject_Z 5)
    = Ok r
    /\ cooldown_applied r = true
    /\ cooldown_tables (world r)
       = [(py "room",
           ([(py "shout", Qmake 15 1)],
            [(py "bob", [(py "shout", Qmake 35 1)])]))].
Proof.
  destruct (execute_applies_cooldown
              Sample.idle_body Sample.plain_text Sample.shout
              (Sample.world_with Sample.room)
              (Sample.chat (py "bob") (py "!shout hi")) (py "room")
              (Some (py "hi")) (inject_Z 5) (inject_Z 5)
              (role := UserRole.NONE) eq_refl)
    as (r & Hr & _ & _ & _ & Hok).
  exists r. split; [exact Hr |].
  destruct (Hok [(py "text", py "hi")] tt (Sample.world_with Sample.room) []
                eq_refl eq_refl) as [_ Hbelow].
  destruct (Hbelow eq_refl) as [Hc Hw].
  split; [exact Hc |]. rewrite Hw. reflexivity.
Defined.

End Execution.

(** ** The dispatch loop *)

Section Dispatch.

Import Command Bot.

(** Whatever the world, a JOIN for a channel that is not in
    [bot.channels] reaches [_handle_join] with [None] for the channel,
    and the handler raises. *)
Lemma join_untracked_raises
      (console_handler : str -> option BaseChannel.t -> Message -> World ->
                         result (World * list Output))
      (w : World) (raw channel user : str) :
  get (BaseBot.channels (bot w)) channel = None ->
  message_handler console_handler w
                  (JoinMessage raw (py "JOIN") channel user)
  = Raise AttributeError.
Proof.
  intros Hget. unfold message_handler. simpl. rewrite Hget. reflexivity.
Qed.

(** The same holds for the events PART and 353, whose handlers read the
    channel before anything else; a ROOMSTATE event for such a channel is
    passed over in silence, but only when [rich_irc] is off. *)
Lemma part_and_names_untracked_raise
      (console_handler : str -> option BaseChannel.t -> Message -> World ->
                         result (World * list Output))
      (w : World) (raw channel user : str) (users : list str)
      (tags : dict str) :
  get (BaseBot.channels (bot w)) channel = None ->
  message_handler console_handler w
                  (PartMessage raw (py "PART") channel user)
  = Raise AttributeError
  /\ message_handler console_handler w
                     (NamesMessage raw (py "353") channel users)
     = Raise AttributeError
  /\ (BaseConfig.rich_irc (BaseBot.config (bot w)) = false ->
      message_handler console_handler w
                      (RoomstateMessage raw (py "ROOMSTATE") channel tags)
      = Ok (w, [])).
Proof.
  intros Hget. unfold message_handler. simpl. rewrite Hget.
  split; [reflexivity |]. split; [reflexivity |].
  intros Hrich. rewrite Hrich. reflexivity.
Qed.

(** For a tracked channel the same event adds the user to the channel's
    user set. *)
Lemma join_tracked_adds_user
      (console_handler : str -> option BaseChannel.t -> Message -> World ->
                         result (World * list Output)) :
  message_handler console_handler (Sample.world_with Sample.room)
                  (JoinMessage (py "raw") (py "JOIN") (py "room") (py "bob"))
  = Ok (Sample.world_with
          (with_users Sample.room [py "bob"]), []).
Proof. reflexivity. Qed.

(** C9, at the failing input: with [room] the only tracked channel, the
    line by which user [bob] joins the channel [lobby] decodes to a
    [JoinMessage], and this event is not ignored: the handler is invoked
    with [None] for the channel and [message_handler] raises
    [AttributeError]. *)
Theorem untracked_join_is_not_ignored
        (console_handler : str -> option BaseChannel.t -> Message ->
                           World -> result (World * list Output)) :
  MessageParser.from_raw Sample.join_line
  = Ok (JoinMessage Sample.join_line (py "JOIN") (py "lobby") (py "bob"))
  /\ get (BaseBot.channels (bot (Sample.world_with Sample.room)))
         (py "lobby")
     = None
  /\ _handle_join None
       (JoinMessage Sample.join_line (py "JOIN") (py "lobby") (py "bob"))
     = Raise AttributeError
  /\ (m <- MessageParser.from_raw Sample.join_line ;;
      message_handler console_handler (Sample.world_with Sample.room) m)
     = Raise AttributeError.
Proof.
  split; [vm_compute; reflexivity |].
  split; [reflexivity |]. split; [reflexivity |].
  replace (MessageParser.from_raw Sample.join_line)
    with (Ok (JoinMessage Sample.join_line (py "JOIN") (py "lobby")
                          (py "bob")))
    by (vm_compute; reflexivity).
  simpl bind. apply join_untracked_raises. reflexivity.
Qed.

End Dispatch.

(** ** The line parser *)

Section Parser.

Import MessageParser.

Lemma startswith_app (p s : str) : startswith p (p ++ s) = true.
Proof.
  induction p as [| x p IH]; simpl; [reflexivity |].
  now rewrite N.eqb_refl.
Qed.


Lemma find_unfold (sub s : str) :
  find sub s
  = if startswith sub s then Some 0%nat
    else match s with
         | [] => None
         | _ :: s' => option_map S (find sub s')
         end.
Proof. destruct s; reflexivity. Qed.

Lemma find_app (pre sub post : str) : find sub (pre ++ sub ++ post) <> None.
Proof.
  induction pre as [| c pre IH]; rewrite find_unfold.
  - simpl. rewrite startswith_app. discriminate.
  - destruct (startswith sub ((c :: pre) ++ sub ++ post)); [discriminate |].
    simpl.
    destruct (find sub (pre ++ sub ++ post)); [discriminate | contradiction].
Qed.

Lemma split_ws_aux_sub (s cur p : str) :
  In p (split_ws_aux s cur) ->
  exists pre post, rev cur ++ s = pre ++ p ++ post.
Proof.
  revert cur. induction s as [| c s IH]; intros cur H; simpl in H.
  - destruct cur as [| x cur]; [destruct H |].
    destruct H as [<- | []]. exists [], []. now rewrite !app_nil_r.
  - destruct (is_space c).
    + destruct cur as [| x cur].
      * apply IH in H. destruct H as (pre & post & E). simpl in E.
        exists (c :: pre), post. simpl. now rewrite E.
      * destruct H as [<- | H].
        -- exists [], (c :: s). reflexivity.
        -- apply IH in H. destruct H as (pre & post & E). simpl in E.
           exists (rev (x :: cur) ++ c :: pre), post.
           rewrite E, <- app_assoc. reflexivity.
    + apply IH in H. destruct H as (pre & post & E).
      exists pre, post. rewrite <- E. simpl. now rewrite <- app_assoc.
Qed.

Lemma parse_type_found (command t : str) :
  _parse_type command = Ok t -> find t command <> None.
Proof.
  unfold _parse_type, contains.
  destruct (find (py "CAP * ACK") command) eqn:Hf.
  - intros H. inversion H. subst t. rewrite Hf. discriminate.
  - destruct (nth_error (split_ws command) 1) as [t' |] eqn:Hn;
      [| discriminate].
    intros H. inversion H. subst t'.
    apply nth_error_In in Hn. apply split_ws_aux_sub in Hn.
    destruct Hn as (pre & post & E). simpl in E. rewrite E.
    apply find_app.
Qed.

Lemma parse_type_raises (command : str) (e : exn) :
  _parse_type command = Raise e -> e = IndexError.
Proof.
  unfold _parse_type.
  destruct (contains _ _); [discriminate |].
  destruct (nth_error _ _); [discriminate |].
  intros H. now inversion H.
Qed.

Lemma parse_params_ok (command t : str) :
  _parse_type command = Ok t -> exists p, _parse_params command t = Ok p.
Proof.
  intros H. apply parse_type_found in H. unfold _parse_params.
  destruct (find t command); [eexists; reflexivity | contradiction].
Qed.

Lemma parse_message_raises (data : list str) (e : exn) :
  _parse_message data = Raise e -> e = IndexError.
Proof.
  unfold _parse_message. destruct data; [discriminate |].
  destruct (join _ _); [intros H; now inversion H | discriminate].
Qed.

Lemma required_ok (x : option str) (s : str) :
  required x = Ok s -> nonempty s = true.
Proof.
  destruct x as [[| c x] |]; simpl; intros H; inversion H; reflexivity.
Qed.

Lemma required_raises (x : option str) (e : exn) :
  required x = Raise e -> e = AssertionError.
Proof.
  destruct x as [[| c x] |]; simpl; intros H; inversion H; reflexivity.
Qed.

Ltac finish_ok :=
  split; [reflexivity |];
  unfold well_formed;
  cbn [ChatMessage.type_ ChatMessage.channel ChatMessage.user
       ChatMessage.message];
  first
    [ assumption
    | rewrite ?andb_true_iff; repeat split;
      solve [assumption | eapply required_ok; eassumption]
    | unfold mem, matched_types; cbn [existsb];
      repeat match goal with
             | H : str_eqb _ _ = false |- _ => rewrite H; clear H
             end;
      reflexivity ].

Ltac finish_raise :=
  first
    [ right; eapply required_raises; eassumption
    | left; eapply parse_type_raises; eassumption
    | left; eapply parse_message_raises; eassumption ].

Ltac step :=
  lazymatch goal with
  | |- match (if ?b then _ else _) with Ok _ => _ | Raise _ => _ end =>
      destruct b eqn:?
  | |- match bind (_parse_params ?c ?t) _ with Ok _ => _ | Raise _ => _ end =>
      let p := fresh "params" in
      let Hp := fresh "Hparams" in
      destruct (@parse_params_ok c t ltac:(eassumption)) as [p Hp];
      rewrite Hp; unfold bind at 1; cbv beta iota
  | |- match bind ?r _ with Ok _ => _ | Raise _ => _ end =>
      destruct r eqn:?; unfold bind at 1; cbv beta iota
  | |- match Ok _ with Ok _ => _ | Raise _ => _ end =>
      cbv beta iota; finish_ok
  | |- match Raise _ with Ok _ => _ | Raise _ => _ end =>
      cbv beta iota; finish_raise
  end.



(** A chat line decodes to a [ChatMessage] with its tags, channel, user
    and text. *)
Example from_raw_chat_line :
  from_raw Sample.chat_line
  = Ok (Chat (ChatMessage.Build
                Sample.chat_line (py "PRIVMSG") (py "room") (py "bob")
                (py "hello : there")
                [(py "mod", py "0"); (py "a=b", py "c")])).
Proof. vm_compute. reflexivity. Qed.


End Parser.

(* ================================================================== *)
(** * Further properties of the messenger *)
(* ================================================================== *)

From Stdlib Require Import Lqa.

Section MessengerRuns.

Import Outbound.

Lemma no_repeat_snoc (texts : list str) (text : str) :
  no_repeat texts = true ->
  (forall prev, last texts text = prev -> texts <> [] -> prev <> text) ->
  no_repeat (texts ++ [text]) = true.
Proof.
  induction texts as [| a texts IH]; intros Hn Hlast; [reflexivity |].
  destruct texts as [| b texts].
  - simpl. rewrite andb_true_r. apply negb_true_iff. apply str_eqb_neq.
    apply (Hlast a); [reflexivity | discriminate].
  - simpl in Hn. apply andb_true_iff in Hn. destruct Hn as [Hab Hn].
    change ((a :: b :: texts) ++ [text])
      with (a :: (b :: texts) ++ [text]).
    simpl. simpl in Hab. rewrite Hab. simpl.
    apply IH; [exact Hn |].
    intros prev Hp _. apply Hlast; [exact Hp | discriminate].
Qed.

Lemma differentiated_is_new (message : str) :
  message ++ BaseChannel.differentiator <> message.
Proof.
  intros H. apply (f_equal (@List.length _)) in H.
  rewrite length_app in H. simpl in H. lia.
Qed.

(** What [_submit] hands over is never the text it handed over last. *)
Lemma submit_text_is_new (bot_active : bool) (ch : BaseChannel.t)
      (message text : str) :
  In text (delivered (snd (BaseChannel._submit bot_active ch message))) ->
  text <> Messenger.last_message (BaseChannel.messenger ch)
  /\ delivered (snd (BaseChannel._submit bot_active ch message)) = [text]
  /\ Messenger.last_message
       (BaseChannel.messenger
          (fst (BaseChannel._submit bot_active ch message)))
     = text.
Proof.
  unfold BaseChannel._submit.
  destruct (bot_active && BaseChannel.active ch
            && BaseChannel.activity_allowed ch); [| intros []].
  destruct (Messenger.sent (BaseChannel.messenger ch)
            <? BaseChannel.ratelimit ch)%Z; [| intros []].
  simpl. intros [<- | []].
  split; [| split; reflexivity].
  destruct (str_eqb message
              (Messenger.last_message (BaseChannel.messenger ch))) eqn:E.
  - apply str_eqb_eq in E. rewrite <- E. apply differentiated_is_new.
  - now apply str_eqb_neq.
Qed.

Lemma submit_keeps_last (bot_active : bool) (ch : BaseChannel.t)
      (message : str) :
  delivered (snd (BaseChannel._submit bot_active ch message)) = [] ->
  Messenger.last_message
    (BaseChannel.messenger (fst (BaseChannel._submit bot_active ch message)))
  = Messenger.last_message (BaseChannel.messenger ch).
Proof.
  unfold BaseChannel._submit.
  destruct (bot_active && BaseChannel.active ch
            && BaseChannel.activity_allowed ch); [| reflexivity].
  destruct (Messenger.sent (BaseChannel.messenger ch)
            <? BaseChannel.ratelimit ch)%Z; [| reflexivity].
  simpl. discriminate.
Qed.

(** A move of the queue task delivers nothing, and then keeps the last
    text, or delivers one text, which is new and becomes the last. *)
Lemma move_delivers_new (running bot_active : bool) (at0 : BaseChannel.pc)
      (ch : BaseChannel.t) :
  let r := BaseChannel.message_queue_step running bot_active at0 ch in
  (delivered (snd r) = []
   /\ Messenger.last_message (BaseChannel.messenger (snd (fst r)))
      = Messenger.last_message (BaseChannel.messenger ch))
  \/ (exists text,
         delivered (snd r) = [text]
         /\ text <> Messenger.last_message (BaseChannel.messenger ch)
         /\ Messenger.last_message (BaseChannel.messenger (snd (fst r)))
            = text).
Proof.
  unfold BaseChannel.message_queue_step.
  destruct at0.
  - destruct (negb running); [left; split; reflexivity |].
    destruct (Messenger.timeout (BaseChannel.messenger ch) <? 0)%Z;
      [left; split; reflexivity |].
    destruct (negb (Messenger.timeout (BaseChannel.messenger ch) =? 0)%Z);
      left; split; reflexivity.
  - destruct (0 <? Messenger.timeout (BaseChannel.messenger ch))%Z;
      left; split; reflexivity.
  - destruct (Messenger.sendlist (BaseChannel.messenger ch))
      as [| message rest]; [left; split; reflexivity |].
    set (ch' := BaseChannel.with_messenger ch _).
    assert (Hlast : Messenger.last_message (BaseChannel.messenger ch')
                    = Messenger.last_message (BaseChannel.messenger ch))
      by reflexivity.
    pose proof (fun text => @submit_text_is_new bot_active ch' message text)
      as Hnew.
    pose proof (@submit_keeps_last bot_active ch' message) as Hkeep.
    destruct (BaseChannel._submit bot_active ch' message) as [ch2 out].
    cbn [fst snd] in *. destruct (delivered out) as [| text more] eqn:Hd.
    + left. split; [reflexivity |]. rewrite <- Hlast. now apply Hkeep.
    + right. destruct (Hnew text (or_introl eq_refl)) as (Hne & Hone & Hl).
      exists text. rewrite <- Hlast. repeat split; assumption.
  - left. split; reflexivity.
Qed.

Lemma last_snoc (texts : list str) (text d : str) :
  last (texts ++ [text]) d = text.
Proof. apply last_last. Qed.

Lemma last_default (texts : list str) (d d' : str) :
  texts <> [] -> last texts d = last texts d'.
Proof.
  induction texts as [| a texts IH]; intros H; [contradiction |].
  destruct texts as [| b texts]; [reflexivity |].
  change (last (b :: texts) d = last (b :: texts) d').
  apply IH. discriminate.
Qed.

(** X1: in every run from a fresh channel, no two consecutive deliveries
    carry the same text: a message that repeats the last delivered one
    goes out with the differentiator appended. *)
Theorem deliveries_never_repeat
        (name : str) (active_online active_offline : bool)
        (events : list Event) :
  no_repeat
    (delivered
       (wire (run (initial name active_online active_offline) events)))
  = true.
Proof.
  set (s0 := initial name active_online active_offline).
  assert (Inv : no_repeat (delivered (wire (run s0 events))) = true
                /\ (delivered (wire (run s0 events)) <> [] ->
                    last (delivered (wire (run s0 events))) []
                    = Messenger.last_message
                        (BaseChannel.messenger
                           (channel (run s0 events))))).
  { induction events as [| e events IH] using rev_ind.
    - split; [reflexivity | intros H; now contradiction H].
    - destruct IH as [Hn Hl]. unfold run in *. rewrite fold_left_app.
      simpl. set (s := fold_left step events s0) in *.
      destruct e; simpl;
        try (split; [exact Hn |];
             first [ exact Hl
                   | intros H; rewrite (Hl H); unfold BaseChannel.send;
                     destruct (nonempty _); reflexivity ]).
      pose proof (move_delivers_new (bot_running s) (bot_active s)
                                    (at_ s) (channel s)) as Hm.
      destruct (BaseChannel.message_queue_step
                  (bot_running s) (bot_active s) (at_ s) (channel s))
        as [[at' ch'] out].
      simpl in *. rewrite delivered_app.
      destruct Hm as [[Hd Hlast] | (text & Hd & Hne & Hlast)]; rewrite Hd.
      + rewrite app_nil_r. split; [exact Hn |].
        intros H. rewrite Hlast. now apply Hl.
      + split.
        * apply no_repeat_snoc; [exact Hn |].
          intros prev Hp Hnil. subst prev.
          rewrite (@last_default _ text [] Hnil).
          intros Heq. apply Hne. rewrite <- (Hl Hnil). now symmetry.
        * intros _. rewrite last_snoc. now rewrite Hlast. }
  exact (proj1 Inv).
Qed.

(** A move of the queue task adds to the counter what it delivers, and
    leaves the moderator flag alone. *)
Lemma move_counts (running bot_active : bool) (at0 : BaseChannel.pc)
      (ch : BaseChannel.t) :
  let r := BaseChannel.message_queue_step running bot_active at0 ch in
  Messenger.sent (BaseChannel.messenger (snd (fst r)))
  = (Messenger.sent (BaseChannel.messenger ch)
     + Z.of_nat (List.length (delivered (snd r))))%Z
  /\ BaseChannel.mod_ (snd (fst r)) = BaseChannel.mod_ ch
  /\ ((Messenger.sent (BaseChannel.messenger ch)
       <= BaseChannel.ratelimit ch)%Z ->
      (Messenger.sent (BaseChannel.messenger (snd (fst r)))
       <= BaseChannel.ratelimit ch)%Z).
Proof.
  cbv zeta. unfold BaseChannel.message_queue_step.
  destruct at0.
  - destruct (negb running); [simpl; repeat split; solve [reflexivity | lia] |].
    destruct (Messenger.timeout (BaseChannel.messenger ch) <? 0)%Z;
      [simpl; repeat split; solve [reflexivity | lia] |].
    destruct (negb (Messenger.timeout (BaseChannel.messenger ch) =? 0)%Z);
      simpl; repeat split; solve [reflexivity | lia].
  - destruct (0 <? Messenger.timeout (BaseChannel.messenger ch))%Z;
      simpl; repeat split; solve [reflexivity | lia].
  - destruct (Messenger.sendlist (BaseChannel.messenger ch))
      as [| message rest]; [simpl; repeat split; solve [reflexivity | lia] |].
    destruct ch as [n a l md ao af cd ms ud cn].
    destruct ms as [sent last queue timeout].
    unfold BaseChannel._submit, BaseChannel.activity_allowed,
      BaseChannel.ratelimit.
    simpl.
    destruct (bot_active && a && (l && ao || negb l && af)); simpl;
      [| destruct md; repeat split; solve [reflexivity | lia]].
    destruct md;
      [ destruct (Z.ltb_spec sent 100) | destruct (Z.ltb_spec sent 20) ];
      simpl; repeat split; solve [reflexivity | lia].
  - simpl. repeat split; solve [reflexivity | lia].
Qed.

(** X2: within a window, that is from a state whose counter is 0 through
    events that neither reset the counter nor change the moderator flag,
    the counter is the number of messages delivered, and it does not
    exceed the channel's limit: at most 20 messages go out, or 100 where
    the bot is a moderator. *)
Theorem window_delivers_at_most_limit (s : State) (events : list Event) :
  Messenger.sent (BaseChannel.messenger (channel s)) = 0%Z ->
  forallb in_window events = true ->
  exists out,
    wire (run s events) = wire s ++ out
    /\ Messenger.sent (BaseChannel.messenger (channel (run s events)))
       = Z.of_nat (List.length (delivered out))
    /\ (Z.of_nat (List.length (delivered out))
        <= BaseChannel.ratelimit (channel s))%Z.
Proof.
  intros Hzero Hwin.
  assert (Inv : exists out,
             wire (run s events) = wire s ++ out
             /\ Messenger.sent
                  (BaseChannel.messenger (channel (run s events)))
                = Z.of_nat (List.length (delivered out))
             /\ BaseChannel.mod_ (channel (run s events))
                = BaseChannel.mod_ (channel s)
             /\ (Messenger.sent
                   (BaseChannel.messenger (channel (run s events)))
                 <= BaseChannel.ratelimit (channel s))%Z).
  { induction events as [| e events IH] using rev_ind.
    - exists []. simpl. rewrite app_nil_r, Hzero.
      repeat split. unfold BaseChannel.ratelimit.
      destruct (BaseChannel.mod_ (channel s)); lia.
    - rewrite forallb_app in Hwin. apply andb_true_iff in Hwin.
      destruct Hwin as [Hwin He]. simpl in He. rewrite andb_true_r in He.
      destruct (IH Hwin) as (out & Hw & Hs & Hm & Hb). clear IH.
      unfold run in *. rewrite fold_left_app. simpl.
      set (s1 := fold_left step events s) in *.
      destruct e; try discriminate He; simpl.
      + exists out. unfold BaseChannel.send.
        destruct (nonempty message); simpl; repeat split; assumption.
      + pose proof (move_counts (bot_running s1) (bot_active s1)
                                (at_ s1) (channel s1)) as Hc.
        destruct (BaseChannel.message_queue_step
                    (bot_running s1) (bot_active s1) (at_ s1) (channel s1))
          as [[at' ch'] out'].
        cbn [fst snd wire channel] in *.
        destruct Hc as (Hsent & Hmod & Hbound).
        exists (out ++ out'). rewrite delivered_app, length_app.
        assert (Hlim : BaseChannel.ratelimit (channel s1)
                       = BaseChannel.ratelimit (channel s)).
        { unfold BaseChannel.ratelimit. now rewrite Hm. }
        repeat split.
        * rewrite Hw. now rewrite app_assoc.
        * rewrite Hsent, Hs. lia.
        * now rewrite Hmod.
        * rewrite <- Hlim. apply Hbound. now rewrite Hlim.
      + exists out. repeat split; assumption.
      + exists out. repeat split; assumption.
      + exists out. repeat split; assumption. }
  destruct Inv as (out & Hw & Hs & _ & Hb).
  exists out. rewrite <- Hs. repeat split; assumption.
Qed.

(** The theorem for twenty-one messages sent to a fresh channel and taken
    one by one: twenty are delivered. *)
Lemma window_delivers_at_most_limit_witness :
  exists out,
    wire (run (initial (py "room") true true) Sample.flood) = out
    /\ Messenger.sent
         (BaseChannel.messenger
            (channel (run (initial (py "room") true true) Sample.flood)))
       = Z.of_nat (List.length (delivered out))
    /\ (Z.of_nat (List.length (delivered out)) <= 20)%Z.
Proof.
  destruct (@window_delivers_at_most_limit
              (initial (py "room") true true) Sample.flood
              eq_refl eq_refl) as (out & Hw & Hs & Hb).
  exists out. repeat split; assumption.
Defined.

(** X3: a queue task that finds the suspension counter negative at the
    head of its loop delivers nothing from then on, whatever is sent to
    the channel, until another task sets the counter: the queued messages
    stay queued and the task stays at the head of the loop (or ends, when
    the bot stops). *)
Theorem suspended_delivers_nothing (s : State) (events : list Event) :
  at_ s = BaseChannel.AtLoop ->
  (Messenger.timeout (BaseChannel.messenger (channel s)) < 0)%Z ->
  forallb keeps_timeout events = true ->
  wire (run s events) = wire s
  /\ (at_ (run s events) = BaseChannel.AtLoop
      \/ at_ (run s events) = BaseChannel.Finished)
  /\ exists more,
      Messenger.sendlist (BaseChannel.messenger (channel (run s events)))
      = Messenger.sendlist (BaseChannel.messenger (channel s)) ++ more.
Proof.
  intros Hat Hneg Hkeep.
  assert (Inv : wire (run s events) = wire s
                /\ (at_ (run s events) = BaseChannel.AtLoop
                    \/ at_ (run s events) = BaseChannel.Finished)
                /\ (Messenger.timeout
                      (BaseChannel.messenger (channel (run s events)))
                    < 0)%Z
                /\ exists more,
                    Messenger.sendlist
                      (BaseChannel.messenger (channel (run s events)))
                    = Messenger.sendlist (BaseChannel.messenger (channel s))
                      ++ more).
  { induction events as [| e events IH] using rev_ind.
    - simpl. repeat split; [now left | exact Hneg |].
      exists []. now rewrite app_nil_r.
    - rewrite forallb_app in Hkeep. apply andb_true_iff in Hkeep.
      destruct Hkeep as [Hkeep He]. simpl in He. rewrite andb_true_r in He.
      destruct (IH Hkeep) as (Hw & Hpc & Ht & more & Hq). clear IH.
      unfold run in *. rewrite fold_left_app. simpl.
      set (s1 := fold_left step events s) in *.
      destruct e; try discriminate He; simpl.
      + unfold BaseChannel.send.
        destruct message as [| c message]; simpl.
        * repeat split; try assumption. now exists more.
        * repeat split; try assumption.
          exists (more ++ [c :: message]). rewrite Hq.
          now rewrite app_assoc.
      + unfold BaseChannel.message_queue_step.
        destruct Hpc as [Hpc | Hpc]; rewrite Hpc.
        * destruct (negb (bot_running s1)); simpl.
          -- rewrite app_nil_r. repeat split; try assumption;
               [now right | now exists more].
          -- apply Z.ltb_lt in Ht. rewrite Ht. simpl. apply Z.ltb_lt in Ht.
             rewrite app_nil_r. repeat split; try assumption;
               [now left | now exists more].
        * simpl. rewrite app_nil_r. repeat split; try assumption;
            [now right | now exists more].
      + repeat split; try assumption. now exists more.
      + repeat split; try assumption. now exists more.
      + repeat split; try assumption. now exists more.
      + repeat split; try assumption. now exists more. }
  destruct Inv as (Hw & Hpc & _ & Hq). repeat split; assumption.
Qed.

(** The theorem for a banned bot with two messages queued: two more are
    sent and the task moves three times, and nothing goes out. *)
Lemma suspended_delivers_nothing_witness :
  wire (run Sample.banned
            [Move; Send (py "c"); Move; Send (py "d"); Move])
  = []
  /\ exists more,
      Messenger.sendlist
        (BaseChannel.messenger
           (channel (run Sample.banned
                         [Move; Send (py "c"); Move; Send (py "d"); Move])))
      = [py "a"; py "b"] ++ more.
Proof.
  destruct (@suspended_delivers_nothing
              Sample.banned
              [Move; Send (py "c"); Move; Send (py "d"); Move]
              eq_refl eq_refl eq_refl) as (Hw & _ & Hq).
  split; [exact Hw | exact Hq].
Defined.

End MessengerRuns.

(* ================================================================== *)
(** * Further properties of the dispatch loop *)
(* ================================================================== *)

Section Membership.

Import Command Bot.

Lemma mem_In (x : str) (s : list str) : mem x s = true <-> In x s.
Proof.
  unfold mem. rewrite existsb_exists. split.
  - intros (y & Hin & Heq). apply str_eqb_eq in Heq. now subst y.
  - intros Hin. exists x. split; [exact Hin | apply str_eqb_refl].
Qed.

Lemma str_eqb_sym (a b : str) : str_eqb a b = str_eqb b a.
Proof.
  destruct (str_eqb a b) eqn:E1, (str_eqb b a) eqn:E2; try reflexivity.
  - apply str_eqb_eq in E1. subst b. now rewrite str_eqb_refl in E2.
  - apply str_eqb_eq in E2. subst b. now rewrite str_eqb_refl in E1.
Qed.

Lemma mem_set_add (x y : str) (s : list str) :
  mem x (set_add y s) = mem x s || str_eqb x y.
Proof.
  unfold set_add. destruct (mem y s) eqn:Hy.
  - destruct (str_eqb x y) eqn:E; [| now rewrite orb_false_r].
    apply str_eqb_eq in E. subst y. now rewrite Hy.
  - unfold mem. rewrite existsb_app. simpl. now rewrite orb_false_r.
Qed.

Lemma mem_set_discard (x y : str) (s : list str) :
  mem x (set_discard y s) = mem x s && negb (str_eqb x y).
Proof.
  unfold set_discard, mem. induction s as [| z s IH]; [reflexivity |].
  simpl. destruct (str_eqb y z) eqn:Eyz; simpl.
  - rewrite IH. apply str_eqb_eq in Eyz. subst z.
    destruct (str_eqb x y); simpl; [now rewrite andb_false_r | reflexivity].
  - rewrite IH. destruct (str_eqb x z) eqn:Exz; simpl; [| reflexivity].
    apply str_eqb_eq in Exz. subst z.
    rewrite str_eqb_sym, Eyz. reflexivity.
Qed.

Lemma users_in_updated (w : World) (key : str) (ch ch' : BaseChannel.t) :
  get (BaseBot.channels (bot w)) key = Some ch ->
  users_in (update_channel w key (fun _ => ch')) key
  = UserData.users (BaseChannel.userdata ch')
  /\ get (BaseBot.channels (bot (update_channel w key (fun _ => ch')))) key
     = Some ch'.
Proof.
  intros Hget. unfold users_in, update_channel. rewrite Hget. simpl.
  rewrite get_set_same. split; reflexivity.
Qed.

(** X4: for a tracked channel, a JOIN event puts the user into the
    channel's user set and a later PART event of the same user takes the
    user out again, neither raising nor printing; the membership of all
    other users is as before. *)
Theorem join_then_part
        (console_handler : str -> option BaseChannel.t -> Message -> World ->
                           result (World * list Output))
        (w : World) (key : str) (ch : BaseChannel.t)
        (raw1 raw2 user : str) :
  get (BaseBot.channels (bot w)) key = Some ch ->
  exists w1 w2,
    message_handler console_handler w
                    (JoinMessage raw1 (py "JOIN") key user)
    = Ok (w1, [])
    /\ mem user (users_in w1 key) = true
    /\ message_handler console_handler w1
                       (PartMessage raw2 (py "PART") key user)
       = Ok (w2, [])
    /\ mem user (users_in w2 key) = false
    /\ forall other,
        other <> user ->
        mem other (users_in w2 key) = mem other (users_in w key).
Proof.
  intros Hget.
  set (ch1 := with_users ch (set_add user (UserData.users
                                             (BaseChannel.userdata ch)))).
  set (w1 := update_channel w key (fun _ => ch1)).
  destruct (@users_in_updated w key ch ch1 Hget) as [Hu1 Hg1].
  fold w1 in Hu1, Hg1.
  set (ch2 := with_users ch1 (set_discard user (UserData.users
                                                  (BaseChannel.userdata ch1)))).
  set (w2 := update_channel w1 key (fun _ => ch2)).
  destruct (@users_in_updated w1 key ch1 ch2 Hg1) as [Hu2 Hg2].
  fold w2 in Hu2, Hg2.
  exists w1, w2. split; [| split; [| split; [| split]]].
  - unfold message_handler. simpl. rewrite Hget. reflexivity.
  - rewrite Hu1. simpl. rewrite mem_set_add, str_eqb_refl.
    apply orb_true_r.
  - unfold message_handler. simpl. rewrite Hg1. reflexivity.
  - rewrite Hu2. simpl. rewrite mem_set_discard, str_eqb_refl.
    apply andb_false_r.
  - intros other Hne. rewrite Hu2. simpl.
    rewrite mem_set_discard, mem_set_add.
    apply str_eqb_neq in Hne. rewrite Hne. simpl.
    unfold users_in. rewrite Hget.
    now rewrite orb_false_r, andb_true_r.
Qed.

(** The theorem for [bob] joining and leaving the tracked channel
    [room]. *)
Lemma join_then_part_witness :
  exists w1 w2,
    message_handler (fun _ _ _ w => Ok (w, []))
                    (Sample.world_with Sample.room)
                    (JoinMessage (py "raw") (py "JOIN") (py "room")
                                 (py "bob"))
    = Ok (w1, [])
    /\ mem (py "bob") (users_in w1 (py "room")) = true
    /\ message_handler (fun _ _ _ w => Ok (w, [])) w1
                       (PartMessage (py "raw") (py "PART") (py "room")
                                    (py "bob"))
       = Ok (w2, [])
    /\ mem (py "bob") (users_in w2 (py "room")) = false.
Proof.
  destruct (@join_then_part
              (fun _ _ _ w => Ok (w, [])) (Sample.world_with Sample.room)
              (py "room") Sample.room (py "raw") (py "raw") (py "bob")
              eq_refl) as (w1 & w2 & H1 & H2 & H3 & H4 & _).
  exists w1, w2. repeat split; assumption.
Defined.

(** X5: a USERSTATE event for a tracked channel sets the channel's
    moderator flag from the tag [mod], and with it the messenger's limit:
    100 when the tag is [1], else 20; the messenger's own state is left
    alone.  Without the tag the handler raises [KeyError]. *)
Theorem userstate_sets_limit
        (console_handler : str -> option BaseChannel.t -> Message -> World ->
                           result (World * list Output))
        (w : World) (key : str) (ch : BaseChannel.t) (raw : str)
        (tags : dict str) :
  get (BaseBot.channels (bot w)) key = Some ch ->
  match get tags (py "mod") with
  | Some v =>
      exists w' ch',
        message_handler console_handler w
                        (UserstateMessage raw (py "USERSTATE") key tags)
        = Ok (w', [])
        /\ get (BaseBot.channels (bot w')) key = Some ch'
        /\ BaseChannel.ratelimit ch'
           = (if str_eqb v (py "1") then 100 else 20)%Z
        /\ BaseChannel.messenger ch' = BaseChannel.messenger ch
  | None =>
      message_handler console_handler w
                      (UserstateMessage raw (py "USERSTATE") key tags)
      = Raise (KeyError (py "mod"))
  end.
Proof.
  intros Hget. unfold message_handler. simpl. rewrite Hget.
  unfold _handle_userstate, getitem.
  destruct (get tags (py "mod")) as [v |] eqn:Hv; simpl; [| reflexivity].
  set (ch' := BaseChannel.with_mod ch (str_eqb v (py "1"))).
  exists (update_channel w key (fun _ => ch')), ch'.
  split; [reflexivity |].
  split; [apply (@users_in_updated w key ch ch' Hget) |].
  split; [| reflexivity].
  unfold BaseChannel.ratelimit. simpl. reflexivity.
Qed.

(** The theorem for the channel [room] and the tag [mod=1]. *)
Lemma userstate_sets_limit_witness :
  exists w' ch',
    message_handler (fun _ _ _ w => Ok (w, []))
                    (Sample.world_with Sample.room)
                    (UserstateMessage (py "raw") (py "USERSTATE") (py "room")
                                      [(py "mod", py "1")])
    = Ok (w', [])
    /\ get (BaseBot.channels (bot w')) (py "room") = Some ch'
    /\ BaseChannel.ratelimit ch' = 100%Z.
Proof.
  destruct (@userstate_sets_limit
              (fun _ _ _ w => Ok (w, [])) (Sample.world_with Sample.room)
              (py "room") Sample.room (py "raw") [(py "mod", py "1")]
              eq_refl) as (w' & ch' & H1 & H2 & H3 & _).
  exists w', ch'. repeat split; assumption.
Defined.

(** X6: when the configuration requests capabilities, the handler of the
    capability acknowledgement accepts the acknowledged list exactly when
    it has the same members as the requested one, order and repetition
    apart, and raises [RuntimeError] otherwise; when the configuration
    requests none, every acknowledgement is accepted. *)
Theorem cap_ack_needs_same_set (w : World) (raw type_ : str)
        (capabilities : list str) :
  let wanted := BaseConfig.capability (BaseBot.config (bot w)) in
  let result_ :=
    _handle_cap_ack w (CapabilitiesMessage raw type_ capabilities) in
  (wanted = [] -> exists out, result_ = Ok (w, out))
  /\ (wanted <> [] ->
      (forall c, In c capabilities <-> In c wanted) ->
      exists out, result_ = Ok (w, out))
  /\ (wanted <> [] ->
      ~ (forall c, In c capabilities <-> In c wanted) ->
      exists text, result_ = Raise (RuntimeError text)).
Proof.
  cbv zeta. unfold _handle_cap_ack.
  set (wanted := BaseConfig.capability (BaseBot.config (bot w))).
  split; [| split].
  - intros ->. simpl.
    destruct (BaseConfig.rich_irc _); eexists; reflexivity.
  - intros Hne Hsame.
    assert (Hn : set_neq capabilities wanted = false).
    { unfold set_neq. apply negb_false_iff. apply andb_true_iff.
      split; apply forallb_forall; intros x Hx; apply mem_In;
        now apply Hsame. }
    rewrite Hn, andb_false_r.
    destruct (BaseConfig.rich_irc _); eexists; reflexivity.
  - intros Hne Hdiff.
    assert (Hn : set_neq capabilities wanted = true).
    { unfold set_neq.
      destruct (forallb (fun x => mem x wanted) capabilities
                && forallb (fun x => mem x capabilities) wanted) eqn:E;
        [| reflexivity].
      exfalso. apply Hdiff. apply andb_true_iff in E. destruct E as [E1 E2].
      rewrite forallb_forall in E1, E2.
      intros c. split; intros Hc; apply mem_In; auto. }
    rewrite Hn. destruct wanted; [contradiction |]. simpl.
    eexists. reflexivity.
Qed.

(** The theorem for the three standard capabilities acknowledged in
    another order. *)
Lemma cap_ack_needs_same_set_witness :
  exists out,
    _handle_cap_ack Sample.standard_world
      (CapabilitiesMessage (py "raw") (py "CAP * ACK")
                           [py "tags"; py "commands"; py "membership"])
    = Ok (Sample.standard_world, out).
Proof.
  apply (proj1 (proj2 (@cap_ack_needs_same_set
                         Sample.standard_world (py "raw") (py "CAP * ACK")
                         [py "tags"; py "commands"; py "membership"]))).
  - discriminate.
  - intros c. simpl. tauto.
Defined.

End Membership.

(* ================================================================== *)
(** * Further properties of the parameter grammar *)
(* ================================================================== *)

Section CompiledGrammar.

Import Parameters_.

Lemma to_set_full (xs : list str) :
  List.length (to_set xs) = List.length xs -> NoDup xs.
Proof.
  induction xs as [| x xs IH]; intros H; [constructor |].
  simpl in H. pose proof (to_set_length xs) as Hle.
  destruct (mem x xs) eqn:Hm; [lia |].
  simpl in H. constructor.
  - intros Hin. apply mem_In in Hin. congruence.
  - apply IH. lia.
Qed.

Lemma names_of_length (params : t) :
  (List.length (names_of params) <= List.length params)%nat.
Proof.
  induction params as [| [p | s] params IH]; simpl; lia.
Qed.

(** One clause adds one entry; the entry is not a required parameter when
    an optional one came before; it is a remainder parameter only at the
    last index. *)
Lemma compile_clause_adds (count i : nat) (params params' : t)
      (clause : str) :
  compile_clause count i params clause = Ok params' ->
  exists e,
    params' = params ++ [e]
    /\ (any_optional params = true -> is_required_parameter e = false)
    /\ (is_remainder e = true -> i = (count - 1)%nat).
Proof.
  unfold compile_clause.
  destruct (is_bracketed clause);
    [| intros H; inversion H; eexists; split; [reflexivity |];
       split; [reflexivity | discriminate]].
  destruct (startswith (py "<") clause).
  - destruct (any_optional params) eqn:Hopt; simpl; [discriminate |].
    destruct (contains (py ":") (removelast (tl clause))); simpl.
    + destruct (split_once _ _) as [[pn tg] |]; simpl; [| discriminate].
      destruct (getitem roles pn) as [perm |]; simpl; [| discriminate].
      destruct (contains (py "=") tg).
      * destruct (split_once _ _) as [[nm tg2] |]; simpl; [| discriminate].
        intros H; inversion H. eexists. split; [reflexivity |].
        split; [discriminate | discriminate].
      * destruct (contains (py "+") tg).
        -- destruct (i =? count - 1)%nat eqn:Ei; simpl; [| discriminate].
           intros H; inversion H. eexists. split; [reflexivity |].
           split; [discriminate | intros _; now apply Nat.eqb_eq].
        -- intros H; inversion H. eexists. split; [reflexivity |].
           split; [discriminate | discriminate].
    + destruct (contains (py "=") (removelast (tl clause))).
      * destruct (split_once _ _) as [[nm tg2] |]; simpl; [| discriminate].
        intros H; inversion H. eexists. split; [reflexivity |].
        split; [discriminate | discriminate].
      * destruct (contains (py "+") (removelast (tl clause))).
        -- destruct (i =? count - 1)%nat eqn:Ei; simpl; [| discriminate].
           intros H; inversion H. eexists. split; [reflexivity |].
           split; [discriminate | intros _; now apply Nat.eqb_eq].
        -- intros H; inversion H. eexists. split; [reflexivity |].
           split; [discriminate | discriminate].
  - simpl.
    destruct (contains (py ":") (removelast (tl clause))); simpl.
    + destruct (split_once _ _) as [[pn tg] |]; simpl; [| discriminate].
      destruct (getitem roles pn) as [perm |]; simpl; [| discriminate].
      destruct (contains (py "=") tg).
      * destruct (split_once _ _) as [[nm tg2] |]; simpl; [| discriminate].
        intros H; inversion H. eexists. split; [reflexivity |].
        split; [reflexivity | discriminate].
      * destruct (contains (py "+") tg).
        -- destruct (i =? count - 1)%nat eqn:Ei; simpl; [| discriminate].
           intros H; inversion H. eexists. split; [reflexivity |].
           split; [reflexivity | intros _; now apply Nat.eqb_eq].
        -- intros H; inversion H. eexists. split; [reflexivity |].
           split; [reflexivity | discriminate].
    + destruct (contains (py "=") (removelast (tl clause))).
      * destruct (split_once _ _) as [[nm tg2] |]; simpl; [| discriminate].
        intros H; inversion H. eexists. split; [reflexivity |].
        split; [reflexivity | discriminate].
      * destruct (contains (py "+") (removelast (tl clause))).
        -- destruct (i =? count - 1)%nat eqn:Ei; simpl; [| discriminate].
           intros H; inversion H. eexists. split; [reflexivity |].
           split; [reflexivity | intros _; now apply Nat.eqb_eq].
        -- intros H; inversion H. eexists. split; [reflexivity |].
           split; [reflexivity | discriminate].
Qed.

Lemma compile_clause_length (count i : nat) (params params' : t)
      (clause : str) :
  compile_clause count i params clause = Ok params' ->
  List.length params' = S (List.length params).
Proof.
  intros H. apply compile_clause_adds in H. destruct H as (e & -> & _).
  rewrite length_app. simpl. lia.
Qed.

Lemma any_optional_app (a b : t) :
  any_optional (a ++ b) = any_optional a || any_optional b.
Proof. apply existsb_app. Qed.

Lemma required_first_snoc (params : t) (e : Entry) :
  required_first params = true ->
  (any_optional params = true -> is_required_parameter e = false) ->
  required_first (params ++ [e]) = true.
Proof.
  induction params as [| a params IH]; intros Hrf Hopt.
  - simpl. destruct (match e with Param p => _ | Literal _ => _ end);
      reflexivity.
  - change ((a :: params) ++ [e]) with (a :: (params ++ [e])).
    change (a :: params) with ([a] ++ params) in Hopt.
    rewrite any_optional_app in Hopt.
    cbn [required_first] in *.
    apply andb_true_iff in Hrf. destruct Hrf as [Ha Hrf].
    apply andb_true_iff. split.
    + destruct (any_optional [a]) eqn:Ea; [| reflexivity].
      rewrite existsb_app. simpl.
      rewrite (Hopt eq_refl), orb_false_r.
      apply negb_true_iff in Ha. now rewrite Ha.
    + apply IH; [exact Hrf |].
      intros Hp. apply Hopt. rewrite Hp. apply orb_true_r.
Qed.

Lemma remainder_last_snoc (params : t) (e : Entry) :
  existsb is_remainder params = false ->
  remainder_last (params ++ [e]) = true.
Proof.
  induction params as [| a params IH]; intros H; [reflexivity |].
  simpl in H. apply orb_false_iff in H. destruct H as [Ha H].
  change ((a :: params) ++ [e]) with (a :: (params ++ [e])).
  specialize (IH H).
  destruct (params ++ [e]) as [| x l] eqn:E;
    [destruct params; discriminate |].
  change (negb (is_remainder a) && remainder_last (x :: l) = true).
  now rewrite Ha, IH.
Qed.

Lemma remainder_none_last (params : t) :
  existsb is_remainder params = false -> remainder_last params = true.
Proof.
  induction params as [| a params IH]; intros H; [reflexivity |].
  simpl in H. apply orb_false_iff in H. destruct H as [Ha H].
  destruct params as [| x l]; [reflexivity |].
  change (negb (is_remainder a) && remainder_last (x :: l) = true).
  now rewrite Ha, (IH H).
Qed.

Lemma compile_clauses_keep (count : nat) (clauses : list str) :
  forall (i : nat) (params params' : t),
    compile_clauses count i params clauses = Ok params' ->
    (i + List.length clauses)%nat = count ->
    required_first params = true ->
    existsb is_remainder params = false ->
    required_first params' = true
    /\ remainder_last params' = true
    /\ List.length params'
       = (List.length params + List.length clauses)%nat.
Proof.
  induction clauses as [| clause rest IH];
    intros i params params' Hc Hcount Hrf Hrem.
  - simpl in Hc. inversion Hc; subst params'.
    split; [exact Hrf |]. split; [now apply remainder_none_last |].
    simpl. lia.
  - simpl in Hc.
    destruct (compile_clause count i params clause) as [params1 | e1]
      eqn:E1; simpl in Hc; [| discriminate].
    destruct (@compile_clause_adds _ _ _ _ _ E1)
      as (e & -> & Hopt & Hlast).
    assert (Hrf1 : required_first (params ++ [e]) = true)
      by now apply required_first_snoc.
    destruct (is_remainder e) eqn:Er.
    + specialize (Hlast eq_refl). simpl in Hcount.
      destruct rest as [| c rest']; [| simpl in Hcount; lia].
      simpl in Hc. inversion Hc; subst params'.
      split; [exact Hrf1 |]. split; [now apply remainder_last_snoc |].
      rewrite length_app. simpl. lia.
    + assert (Hrem1 : existsb is_remainder (params ++ [e]) = false)
        by (rewrite existsb_app, Hrem; simpl; now rewrite Er).
      simpl in Hcount.
      destruct (IH (S i) (params ++ [e]) params' Hc ltac:(lia) Hrf1 Hrem1)
        as (H1 & H2 & H3).
      split; [exact H1 |]. split; [exact H2 |].
      rewrite H3, length_app. simpl. lia.
Qed.

(** X7.  Whatever [from_syntax] returns is a well-formed parameter list:
    it holds one entry per whitespace-separated clause of the syntax, no
    entry is a bare literal, the parameter names are pairwise distinct, no
    required parameter follows an optional one, and only the last entry
    can be a remainder parameter. *)
Theorem from_syntax_well_formed (syntax : option str) (params : t) :
  from_syntax syntax = Ok params ->
  List.length params
  = match syntax with
    | Some s => List.length (split_ws s)
    | None => 0%nat
    end
  /\ existsb is_literal params = false
  /\ NoDup (names_of params)
  /\ required_first params = true
  /\ remainder_last params = true.
Proof.
  intros H. unfold from_syntax in H.
  destruct syntax as [[| c s] |];
    try (inversion H; subst params; simpl;
         repeat split; constructor).
  remember (c :: s) as syntax eqn:Es. clear Es.
  destruct (compile_clauses (List.length (split_ws syntax)) 0 []
              (split_ws syntax)) as [ps | e] eqn:Ec;
    simpl in H; [| discriminate].
  destruct (List.length (parameter_names ps) =? List.length ps)%nat eqn:El;
    simpl in H; [| discriminate].
  inversion H; subst params. apply Nat.eqb_eq in El.
  destruct (@compile_clauses_keep _ _ _ _ _ Ec eq_refl eq_refl eq_refl)
    as (Hrf & Hrl & Hlen).
  split; [exact Hlen |].
  split.
  { destruct (existsb is_literal ps) eqn:Elit; [| reflexivity].
    pose proof (parameter_names_short ps Elit). lia. }
  split; [| split; assumption].
  apply to_set_full. unfold parameter_names in El. fold (names_of ps) in El.
  pose proof (to_set_length (names_of ps)).
  pose proof (names_of_length ps).
  assert (Hll : List.length (names_of ps) = List.length ps).
  { destruct (existsb is_literal ps) eqn:Elit.
    - pose proof (parameter_names_short ps Elit) as Hs.
      unfold parameter_names in Hs. fold (names_of ps) in Hs. lia.
    - lia. }
  lia.
Qed.

Lemma from_syntax_well_formed_witness :
  from_syntax (Some Sample.legal_syntax)
  = Ok (match from_syntax (Some Sample.legal_syntax) with
        | Ok ps => ps | Raise _ => [] end)
  /\ existsb is_literal
       (match from_syntax (Some Sample.legal_syntax) with
        | Ok ps => ps | Raise _ => [] end) = false.
Proof.
  split; [vm_compute; reflexivity |].
  apply (@from_syntax_well_formed (Some Sample.legal_syntax)).
  vm_compute. reflexivity.
Defined.

End CompiledGrammar.

(* ================================================================== *)
(** * What [parse_args] returns *)
(* ================================================================== *)

Section ParsedArguments.

Import Parameters_.

Lemma set_In (V : Type) (d : dict V) (k k' : str) (v v' : V) :
  In (k, v) (Py.set d k' v') -> (k = k' /\ v = v') \/ In (k, v) d.
Proof.
  induction d as [| [k0 v0] d IH]; simpl.
  - intros [H | []]. inversion H. now left.
  - destruct (str_eqb k' k0) eqn:E; simpl.
    + apply str_eqb_eq in E. subst k0.
      intros [H | H]; [inversion H; now left | right; now right].
    + intros [H | H]; [right; now left |].
      destruct (IH H) as [Hl | Hr]; [now left | right; now right].
Qed.

Lemma set_keys_In (V : Type) (d : dict V) (k k' : str) (v' : V) :
  In k (keys (Py.set d k' v')) -> k = k' \/ In k (keys d).
Proof.
  unfold keys. intros H. apply in_map_iff in H.
  destruct H as ([k0 v0] & <- & H). simpl.
  apply set_In in H. destruct H as [[-> _] | H]; [now left | right].
  apply in_map_iff. now exists (k0, v0).
Qed.

Lemma set_keys_NoDup (V : Type) (d : dict V) (k : str) (v : V) :
  NoDup (keys d) -> NoDup (keys (Py.set d k v)).
Proof.
  induction d as [| [k0 v0] d IH]; simpl; intros H.
  - constructor; [intros [] | constructor].
  - inversion H as [| ? ? Hnin Hnd]; subst.
    destruct (str_eqb k k0) eqn:E; simpl.
    + now constructor.
    + constructor; [| now apply IH].
      intros Hin. apply set_keys_In in Hin.
      destruct Hin as [-> | Hin]; [| contradiction].
      now rewrite str_eqb_refl in E.
Qed.

(** A value the walk records was accepted by the parameter it is recorded
    for; the walk raises nothing but [ArgumentError] as long as there are
    no more arguments than entries. *)
Lemma walk_sound (role : UserRole.t) (entries : t) :
  forall (args : list str) (matched : dict str),
    (List.length args <= List.length entries)%nat ->
    NoDup (keys matched) ->
    match walk entries args role matched with
    | Ok m =>
        NoDup (keys m)
        /\ forall k v, In (k, v) m ->
             In (k, v) matched
             \/ exists p, In (Param p) entries
                  /\ Parameter_.name p = k
                  /\ (CommandPerm.value (Parameter_.perm p) <= role)%N
                  /\ (has_options p = true -> in_options v p = true)
    | Raise e => exists why, e = ArgumentError why
    end.
Proof.
  induction entries as [| e entries IH]; intros args matched Hlen Hnd.
  - destruct args; [| simpl in Hlen; lia].
    simpl. split; [exact Hnd | intros; now left].
  - destruct args as [| arg args].
    { simpl. split; [exact Hnd | intros; now left]. }
    simpl in Hlen. assert (Hlen' : (List.length args <= List.length entries)%nat)
      by lia.
    destruct e as [p | s]; cbn [walk].
    + destruct (has_options p && negb (in_options arg p)) eqn:Eo;
        [eexists; reflexivity |].
      destruct (role <? CommandPerm.value (Parameter_.perm p))%N eqn:Er.
      * destruct (Parameter_.required p); [eexists; reflexivity |].
        specialize (IH args matched Hlen' Hnd).
        destruct (walk entries args role matched); [| exact IH].
        destruct IH as [H1 H2]. split; [exact H1 |].
        intros k v Hin. destruct (H2 k v Hin) as [Hl | (q & Hq & Hr)];
          [now left | right].
        exists q. split; [now right | exact Hr].
      * specialize (IH args (Py.set matched (Parameter_.name p) arg) Hlen'
                       (set_keys_NoDup _ _ _ Hnd)).
        destruct (walk entries args role _); [| exact IH].
        destruct IH as [H1 H2]. split; [exact H1 |].
        intros k v Hin. destruct (H2 k v Hin) as [Hl | (q & Hq & Hr)].
        -- apply set_In in Hl. destruct Hl as [[-> ->] | Hl]; [| now left].
           right. exists p. split; [now left |].
           split; [reflexivity |].
           split; [apply N.ltb_ge in Er; exact Er |].
           intros Ho. rewrite Ho in Eo. simpl in Eo.
           now apply negb_false_iff in Eo.
        -- right. exists q. split; [now right | exact Hr].
    + destruct (negb (str_eqb arg s)); [eexists; reflexivity |].
      specialize (IH args matched Hlen' Hnd).
      destruct (walk entries args role matched); [| exact IH].
      destruct IH as [H1 H2]. split; [exact H1 |].
      intros k v Hin. destruct (H2 k v Hin) as [Hl | (q & Hq & Hr)];
        [now left | right].
      exists q. split; [now right | exact Hr].
Qed.

(** X8.  [parse_args] either returns a dictionary or raises
    [ArgumentError], never another exception (the index into the entries
    stays in range).  A returned dictionary has no key twice, and each of
    its items [k: v] comes from a parameter named [k] whose permission the
    role reaches and whose options, when it has any, contain [v]. *)
Theorem parse_args_sound (self : t) (arg_string : option str)
        (role : UserRole.t) :
  match parse_args self arg_string role with
  | Ok matched =>
      NoDup (keys matched)
      /\ forall k v, In (k, v) matched ->
           exists p, In (Param p) self
             /\ Parameter_.name p = k
             /\ (CommandPerm.value (Parameter_.perm p) <= role)%N
             /\ (has_options p = true -> in_options v p = true)
  | Raise e => exists why, e = ArgumentError why
  end.
Proof.
  unfold parse_args.
  destruct self as [| e0 self0]; [split; [constructor | intros k v []] |].
  remember (e0 :: self0) as self eqn:Es. clear Es.
  destruct arg_string as [[| c s] |].
  - destruct (negb (existsb counts_as_required self));
      [split; [constructor | intros k v []] | eexists; reflexivity].
  - cbv zeta.
    set (args := if last_is_remainder self then _ else _).
    destruct (negb _) eqn:Ec; [eexists; reflexivity |].
    apply negb_false_iff, andb_true_iff in Ec. destruct Ec as [_ Ec].
    apply Nat.leb_le in Ec.
    pose proof (@walk_sound role self args [] Ec (NoDup_nil _)) as H.
    destruct (walk self args role []); [| exact H].
    destruct H as [H1 H2]. split; [exact H1 |].
    intros k v Hin. destruct (H2 k v Hin) as [[] | Hp]. exact Hp.
  - destruct (negb (existsb counts_as_required self));
      [split; [constructor | intros k v []] | eexists; reflexivity].
Qed.

(** ** Splitting a line that was joined with single spaces *)

Lemma split_aux_piece (c : char) (mx : option nat) (w rest : str) :
  mx <> Some 0%nat ->
  forallb (fun x => negb (N.eqb c x)) w = true ->
  forall cur,
    split_aux [c] mx (w ++ c :: rest) 0 cur
    = rev (rev w ++ cur) :: split_aux [c] (option_map pred mx) rest 0 [].
Proof.
  intros Hmx Hw. induction w as [| x w IH]; intros cur.
  - simpl. rewrite N.eqb_refl. simpl.
    destruct mx as [[| m] |]; [congruence | reflexivity | reflexivity].
  - simpl in Hw. apply andb_true_iff in Hw. destruct Hw as [Hx Hw].
    apply negb_true_iff in Hx.
    change ((x :: w) ++ c :: rest) with (x :: (w ++ c :: rest)).
    cbn [split_aux startswith]. rewrite Hx. cbn [andb].
    replace (rev (rev (x :: w) ++ cur)) with (rev (rev w ++ x :: cur))
      by (simpl; now rewrite <- app_assoc).
    destruct mx as [[| m] |]; [congruence | |]; now rewrite (IH Hw).
Qed.

Lemma split_aux_whole (c : char) (w : str) :
  forallb (fun x => negb (N.eqb c x)) w = true ->
  forall mx cur, split_aux [c] mx w 0 cur = [rev (rev w ++ cur)].
Proof.
  intros Hw. induction w as [| x w IH]; intros mx cur; [reflexivity |].
  simpl in Hw. apply andb_true_iff in Hw. destruct Hw as [Hx Hw].
  apply negb_true_iff in Hx.
  cbn [split_aux startswith]. rewrite Hx. cbn [andb].
  replace (rev (rev (x :: w) ++ cur)) with (rev (rev w ++ x :: cur))
    by (simpl; now rewrite <- app_assoc).
  destruct mx as [[| m] |]; now rewrite (IH Hw).
Qed.

Lemma split_aux_spent (sep s : str) :
  forall cur, split_aux sep (Some 0%nat) s 0 cur = [rev (rev s ++ cur)].
Proof.
  induction s as [| x s IH]; intros cur; [reflexivity |].
  cbn [split_aux]. rewrite IH. simpl. now rewrite <- app_assoc.
Qed.

Lemma join_cons (sep p : str) (rest : list str) :
  rest <> [] -> join sep (p :: rest) = p ++ sep ++ join sep rest.
Proof. destruct rest; [congruence | reflexivity]. Qed.

(** [sep.join(words + [t]).split(sep)] gives the pieces back when none of
    them holds the separator. *)
Lemma split_join (c : char) (words : list str) (t : str) :
  Forall (fun w => forallb (fun x => negb (N.eqb c x)) w = true)
         (words ++ [t]) ->
  split [c] (join [c] (words ++ [t])) = words ++ [t].
Proof.
  unfold split. induction words as [| w words IH]; intros H.
  - simpl. inversion H; subst. rewrite split_aux_whole by assumption.
    now rewrite app_nil_r, rev_involutive.
  - change ((w :: words) ++ [t]) with (w :: (words ++ [t])) in *.
    inversion H; subst.
    rewrite join_cons by (destruct words; discriminate).
    change (w ++ [c] ++ join [c] (words ++ [t]))
      with (w ++ c :: join [c] (words ++ [t])).
    rewrite split_aux_piece by (congruence || assumption).
    rewrite app_nil_r, rev_involutive. simpl. f_equal. now apply IH.
Qed.

(** With [maxsplit] equal to the number of words, the last piece is kept
    whole, separators and all. *)
Lemma split_max_join (c : char) (words : list str) (t : str) :
  Forall (fun w => forallb (fun x => negb (N.eqb c x)) w = true) words ->
  split_max [c] (List.length words) (join [c] (words ++ [t]))
  = words ++ [t].
Proof.
  unfold split_max. induction words as [| w words IH]; intros H.
  - simpl. rewrite split_aux_spent.
    now rewrite app_nil_r, rev_involutive.
  - change ((w :: words) ++ [t]) with (w :: (words ++ [t])) in *.
    inversion H; subst.
    rewrite join_cons by (destruct words; discriminate).
    change (w ++ [c] ++ join [c] (words ++ [t]))
      with (w ++ c :: join [c] (words ++ [t])).
    rewrite split_aux_piece by (simpl; congruence || assumption).
    rewrite app_nil_r, rev_involutive. simpl. f_equal. now apply IH.
Qed.

(** ** Stripping a line that has no whitespace at its ends *)

Lemma dropwhile_length (p : char -> bool) (s : str) :
  (List.length (dropwhile p s) <= List.length s)%nat.
Proof.
  induction s as [| x s IH]; simpl; [lia |].
  destruct (p x); simpl; lia.
Qed.

Lemma dropwhile_same (p : char -> bool) (s : str) :
  List.length (dropwhile p s) = List.length s -> dropwhile p s = s.
Proof.
  destruct s as [| x s]; simpl; [reflexivity |].
  pose proof (dropwhile_length p s).
  destruct (p x); simpl; [lia | reflexivity].
Qed.

Lemma trimmed_strip (s : str) : trimmed s -> strip s = s.
Proof.
  intros (_ & H1 & H2). unfold strip, strip_with.
  now rewrite H1, H2, rev_involutive.
Qed.

Lemma is_text_trimmed (s : str) : is_text s = true -> trimmed s.
Proof.
  unfold is_text. intros H. apply andb_true_iff in H.
  destruct H as [Hne Hs]. apply str_eqb_eq in Hs.
  split; [destruct s; [discriminate | congruence] |].
  unfold strip, strip_with in Hs.
  pose proof (dropwhile_length is_space s) as L1.
  pose proof (dropwhile_length is_space (rev (dropwhile is_space s))) as L2.
  pose proof (f_equal (@List.length _) Hs) as L3.
  rewrite length_rev in L3. rewrite length_rev in L2.
  assert (E1 : dropwhile is_space s = s) by (apply dropwhile_same; lia).
  split; [exact E1 |].
  rewrite E1 in L3. apply dropwhile_same. rewrite length_rev. lia.
Qed.

Lemma is_word_no_space (s : str) :
  is_word s = true ->
  forallb (fun x => negb (N.eqb 32 x)) s = true.
Proof.
  unfold is_word. intros H. apply andb_true_iff in H. destruct H as [_ H].
  rewrite forallb_forall in *. intros x Hx. specialize (H x Hx).
  destruct (N.eqb 32 x) eqn:E; [| reflexivity].
  apply N.eqb_eq in E. subst x. discriminate H.
Qed.

Lemma is_word_text (s : str) : is_word s = true -> is_text s = true.
Proof.
  unfold is_word, is_text. intros H. apply andb_true_iff in H.
  destruct H as [Hne H]. rewrite Hne. simpl. apply str_eqb_eq.
  unfold strip, strip_with.
  assert (D : forall l, forallb (fun c => negb (is_space c)) l = true ->
                        dropwhile is_space l = l).
  { intros [| x l] Hl; simpl in *; [reflexivity |].
    apply andb_true_iff in Hl. destruct Hl as [Hx _].
    apply negb_true_iff in Hx. now rewrite Hx. }
  rewrite (D s H). rewrite D; [apply rev_involutive |].
  rewrite forallb_forall in *. intros x Hx. apply H. now apply in_rev.
Qed.

Lemma trimmed_join (words : list str) (t : str) :
  Forall (fun w => is_word w = true) words ->
  trimmed t ->
  trimmed (join (py " ") (words ++ [t])).
Proof.
  induction words as [| w words IH]; intros Hw Ht; [exact Ht |].
  inversion Hw as [| ? ? Hw1 Hw2]; subst.
  specialize (IH Hw2 Ht).
  change ((w :: words) ++ [t]) with (w :: (words ++ [t])).
  rewrite join_cons by (destruct words; discriminate).
  destruct IH as (Jne & _ & J2).
  destruct (@is_text_trimmed _ (@is_word_text _ Hw1)) as (Wne & W1 & _).
  destruct w as [| x w]; [congruence |].
  split; [discriminate |]. split.
  - simpl in W1 |- *. destruct (is_space x); [| reflexivity].
    exfalso. pose proof (dropwhile_length is_space w) as L.
    apply (f_equal (@List.length _)) in W1. simpl in W1. lia.
  - rewrite !rev_app_distr.
    destruct (rev (join (py " ") (words ++ [t]))) as [| y r] eqn:Er.
    { exfalso. apply Jne. apply (f_equal (@rev _)) in Er.
      now rewrite rev_involutive in Er. }
    simpl in J2 |- *. destruct (is_space y); [| reflexivity].
    exfalso. pose proof (dropwhile_length is_space r) as L.
    apply (f_equal (@List.length _)) in J2. simpl in J2. lia.
Qed.

(** ** The walk over accepted arguments *)

Lemma set_fresh (V : Type) (d : dict V) (k : str) (v : V) :
  get d k = None -> Py.set d k v = d ++ [(k, v)].
Proof.
  induction d as [| [k0 v0] d IH]; simpl; [reflexivity |].
  destruct (str_eqb k k0); [discriminate |].
  intros H. now rewrite IH.
Qed.

Lemma fold_set_fresh (V : Type) (kvs : list (str * V)) :
  forall d : dict V,
    NoDup (map fst kvs) ->
    (forall k, In k (map fst kvs) -> get d k = None) ->
    fold_left (fun d kv => Py.set d (fst kv) (snd kv)) kvs d = d ++ kvs.
Proof.
  induction kvs as [| [k v] kvs IH]; intros d Hnd Hfresh; simpl.
  - now rewrite app_nil_r.
  - inversion Hnd as [| ? ? Hnin Hnd']; subst.
    rewrite IH; [| exact Hnd' |].
    + rewrite set_fresh by (apply Hfresh; now left).
      now rewrite <- app_assoc.
    + intros k' Hk'. rewrite get_set_other.
      * apply Hfresh. now right.
      * intros ->. contradiction.
Qed.

Lemma combine_fst (A B : Type) (l1 : list A) :
  forall l2 : list B,
    List.length l1 = List.length l2 -> map fst (combine l1 l2) = l1.
Proof.
  induction l1 as [| a l1 IH]; intros [| b l2] H; simpl in *;
    try reflexivity; try discriminate.
  f_equal. apply IH. lia.
Qed.

Lemma walk_accepted (role : UserRole.t) (ps : list Parameter_.t)
      (args : list str) :
  Forall2 (accepts role) ps args ->
  forall matched,
    walk (map Param ps) args role matched
    = Ok (fold_left (fun d kv => Py.set d (fst kv) (snd kv))
                    (combine (map Parameter_.name ps) args) matched).
Proof.
  induction 1 as [| p arg ps args [Hperm Hopt] _ IH]; intros matched;
    [reflexivity |].
  cbn [map walk combine fold_left fst snd].
  assert (E1 : has_options p && negb (in_options arg p) = false).
  { destruct (has_options p); [| reflexivity].
    now rewrite (Hopt eq_refl). }
  rewrite E1.
  assert (E2 : (role <? CommandPerm.value (Parameter_.perm p))%N = false)
    by now apply N.ltb_ge.
  rewrite E2. apply IH.
Qed.

Lemma parse_args_given (self : t) (arg_string : str)
      (role : UserRole.t) :
  self <> [] -> arg_string <> [] ->
  parse_args self (Some arg_string) role
  = let args :=
      if last_is_remainder self
      then split_max (py " ") (List.length self - 1) (strip arg_string)
      else split (py " ") (strip arg_string) in
    if negb ((List.length (filter counts_as_required self)
              <=? List.length args)%nat
             && (List.length args <=? List.length self)%nat)
    then Raise (ArgumentError
                  (ArgumentCount
                     (List.length (filter counts_as_required self))
                     (List.length self)))
    else walk self args role [].
Proof.
  destruct self; [congruence |]. destruct arg_string; [congruence |].
  reflexivity.
Qed.

(** X9.  Arguments round-trip through the argument string.  Take a
    parameter list without literals and with distinct names, and as many
    arguments as parameters, each accepted by its parameter (permission
    and options); the arguments are words, except that the last one may
    be any text with inner whitespace when the last parameter is a
    remainder parameter.  Joined with single spaces and parsed, they come
    back as the dictionary that pairs the names with the arguments, in
    order. *)
Theorem parse_args_round_trip (role : UserRole.t)
        (ps : list Parameter_.t) (words : list str) (t : str) :
  NoDup (map Parameter_.name ps) ->
  Forall2 (accepts role) ps (words ++ [t]) ->
  Forall (fun w => is_word w = true) words ->
  (if last_is_remainder (map Param ps) then is_text t else is_word t)
  = true ->
  parse_args (map Param ps) (Some (join (py " ") (words ++ [t]))) role
  = Ok (combine (map Parameter_.name ps) (words ++ [t])).
Proof.
  intros Hnd Hacc Hwords Ht.
  pose proof (Forall2_length Hacc) as Hlen.
  rewrite length_app in Hlen. simpl in Hlen.
  assert (Htr : trimmed t).
  { apply is_text_trimmed.
    destruct (last_is_remainder (map Param ps));
      [exact Ht | now apply is_word_text]. }
  pose proof (trimmed_join Hwords Htr) as HJ.
  pose proof (trimmed_strip HJ) as Hstrip.
  destruct HJ as (HJne & _).
  rewrite parse_args_given;
    [| destruct ps; [simpl in Hlen; lia | discriminate] | exact HJne].
  cbv zeta. rewrite Hstrip.
  assert (Eargs : (if last_is_remainder (map Param ps)
                   then split_max (py " ")
                          (List.length (map Param ps) - 1)
                          (join (py " ") (words ++ [t]))
                   else split (py " ") (join (py " ") (words ++ [t])))
                  = words ++ [t]).
  { assert (Hno : Forall (fun w => forallb (fun x => negb (N.eqb 32 x)) w
                                   = true) words).
    { eapply Forall_impl; [| exact Hwords].
      intros w Hw. now apply is_word_no_space. }
    destruct (last_is_remainder (map Param ps)).
    - rewrite length_map.
      replace (List.length ps - 1)%nat with (List.length words) by lia.
      apply (@split_max_join 32%N words t Hno).
    - apply (@split_join 32%N words t).
      apply Forall_app. split; [exact Hno |].
      constructor; [now apply is_word_no_space | constructor]. }
  rewrite Eargs.
  assert (Ecount :
            negb ((List.length (filter counts_as_required (map Param ps))
                   <=? List.length (words ++ [t]))%nat
                  && (List.length (words ++ [t])
                      <=? List.length (map Param ps))%nat) = false).
  { apply negb_false_iff, andb_true_iff.
    pose proof (filter_length_le counts_as_required (map Param ps)) as Hf.
    rewrite length_map in *. rewrite length_app. simpl.
    split; apply Nat.leb_le; lia. }
  rewrite Ecount.
  rewrite (walk_accepted Hacc).
  rewrite fold_set_fresh; [reflexivity | | intros; reflexivity].
  rewrite combine_fst; [exact Hnd |].
  rewrite length_map, length_app. simpl. lia.
Qed.

Lemma split_max_enough (c : char) (words : list str) (t : str) :
  Forall (fun w => forallb (fun x => negb (N.eqb c x)) w = true)
         (words ++ [t]) ->
  forall m,
    (List.length words <= m)%nat ->
    split_max [c] m (join [c] (words ++ [t])) = words ++ [t].
Proof.
  unfold split_max. induction words as [| w words IH]; intros H m Hm.
  - simpl. inversion H; subst. rewrite split_aux_whole by assumption.
    now rewrite app_nil_r, rev_involutive.
  - change ((w :: words) ++ [t]) with (w :: (words ++ [t])) in *.
    inversion H; subst.
    destruct m as [| m]; [simpl in Hm; lia |].
    rewrite join_cons by (destruct words; discriminate).
    change (w ++ [c] ++ join [c] (words ++ [t]))
      with (w ++ c :: join [c] (words ++ [t])).
    rewrite split_aux_piece by (congruence || assumption).
    rewrite app_nil_r, rev_involutive. simpl. f_equal.
    apply IH; [assumption | simpl in Hm; lia].
Qed.

(** X24.  The bounds on the number of arguments.  For words joined by
    single spaces: when there are fewer words than entries that count
    as required, or more words than entries while the last entry is not
    a remainder parameter, [parse_args] raises the [ArgumentError] that
    names the two bounds, whatever the role and the words are. *)
Theorem parse_args_counts (self : t) (words : list str) (last_word : str)
        (role : UserRole.t) :
  self <> [] ->
  Forall (fun w => is_word w = true) (words ++ [last_word]) ->
  (List.length (words ++ [last_word])
   < List.length (filter counts_as_required self))%nat
  \/ (last_is_remainder self = false
      /\ (List.length self < List.length (words ++ [last_word]))%nat) ->
  parse_args self (Some (join (py " ") (words ++ [last_word]))) role
  = Raise (ArgumentError
             (ArgumentCount
                (List.length (filter counts_as_required self))
                (List.length self))).
Proof.
  intros Hself Hwords Hcount.
  pose proof Hwords as Hw2. apply Forall_app in Hw2.
  destruct Hw2 as [Hws Hlast]. inversion Hlast as [| ? ? Hl _]; subst.
  pose proof (trimmed_join Hws
                (is_text_trimmed _ (is_word_text _ Hl))) as HJ.
  pose proof (trimmed_strip HJ) as Hstrip. destruct HJ as (HJne & _).
  rewrite parse_args_given by assumption.
  cbv zeta. rewrite Hstrip.
  assert (Hno : Forall (fun w => forallb (fun x => negb (N.eqb 32 x)) w
                                 = true) (words ++ [last_word])).
  { eapply Forall_impl; [| exact Hwords].
    intros w Hw. now apply is_word_no_space. }
  pose proof (filter_length_le counts_as_required self) as Hf.
  assert (Eargs : (if last_is_remainder self
                   then split_max (py " ") (List.length self - 1)
                          (join (py " ") (words ++ [last_word]))
                   else split (py " ")
                          (join (py " ") (words ++ [last_word])))
                  = words ++ [last_word]).
  { destruct (last_is_remainder self) eqn:Er.
    - destruct Hcount as [Hlt | [Hfalse _]]; [| discriminate].
      apply (@split_max_enough 32%N words last_word Hno).
      rewrite length_app in Hlt. simpl in Hlt. lia.
    - apply (@split_join 32%N words last_word Hno). }
  rewrite Eargs.
  assert (Ec : negb ((List.length (filter counts_as_required self)
                      <=? List.length (words ++ [last_word]))%nat
                     && (List.length (words ++ [last_word])
                         <=? List.length self)%nat) = true).
  { apply negb_true_iff, andb_false_iff.
    destruct Hcount as [Hlt | [_ Hgt]].
    - left. apply Nat.leb_gt. exact Hlt.
    - right. apply Nat.leb_gt. exact Hgt. }
  rewrite Ec. reflexivity.
Qed.

Lemma parse_args_counts_witness :
  parse_args
    (map Param
       [Parameter_.Build (py "channel") true CommandPerm.NONE None false;
        Parameter_.Build (py "message") true CommandPerm.NONE None false])
    (Some (py "lobby hello there")) UserRole.OWNER
  = Raise (ArgumentError (ArgumentCount 2 2)).
Proof.
  apply (@parse_args_counts
           (map Param
              [Parameter_.Build (py "channel") true CommandPerm.NONE
                                None false;
               Parameter_.Build (py "message") true CommandPerm.NONE
                                None false])
           [py "lobby"; py "hello"] (py "there") UserRole.OWNER).
  - discriminate.
  - repeat constructor.
  - right. split; [reflexivity | simpl; lia].
Defined.

Lemma parse_args_round_trip_witness :
  parse_args
    (map Param
       [Parameter_.Build (py "a") true CommandPerm.NONE None false;
        Parameter_.Build (py "b") false CommandPerm.NONE
          (Some [py "x"; py "y"]) false;
        Parameter_.Build (py "c") false CommandPerm.NONE None true])
    (Some (py "lamp y on the desk")) UserRole.NONE
  = Ok [(py "a", py "lamp"); (py "b", py "y");
        (py "c", py "on the desk")].
Proof.
  apply (@parse_args_round_trip UserRole.NONE
           [Parameter_.Build (py "a") true CommandPerm.NONE None false;
            Parameter_.Build (py "b") false CommandPerm.NONE
              (Some [py "x"; py "y"]) false;
            Parameter_.Build (py "c") false CommandPerm.NONE None true]
           [py "lamp"; py "y"] (py "on the desk")).
  - repeat constructor; simpl; intuition discriminate.
  - repeat constructor; try (intros _; reflexivity);
      try (vm_compute; discriminate).
  - repeat constructor.
  - vm_compute. reflexivity.
Defined.

End ParsedArguments.

(* ================================================================== *)
(** * Cooldowns, registration and toggling of commands *)
(* ================================================================== *)

Section CommandState.

Import Command.

Lemma has_key_set_same (V : Type) (d : dict V) (k : str) (v : V) :
  has_key (Py.set d k v) k = true.
Proof. unfold has_key. now rewrite get_set_same. Qed.

Lemma has_key_set_other (V : Type) (d : dict V) (k k2 : str) (v : V) :
  k <> k2 -> has_key (Py.set d k v) k2 = has_key d k2.
Proof. intros H. unfold has_key. now rewrite get_set_other. Qed.

(** The two bits of [check_cooldowns], read off the two tables. *)
Lemma check_cooldowns_bits (self : t) (ch : BaseChannel.t)
      (msg : ChatMessage.t) :
  DenialReason.has (check_cooldowns self ch msg)
                   DenialReason.GLOBAL_COOLDOWN
  = has_key (BaseChannel.cooldowns ch) (name self)
  /\ DenialReason.has (check_cooldowns self ch msg)
                      DenialReason.USER_COOLDOWN
     = match get (UserData.cooldowns (BaseChannel.userdata ch))
                 (ChatMessage.user msg) with
       | Some inner => has_key inner (name self)
       | None => false
       end.
Proof.
  unfold check_cooldowns.
  destruct (has_key (BaseChannel.cooldowns ch) (name self));
    destruct (get (UserData.cooldowns (BaseChannel.userdata ch))
                  (ChatMessage.user msg)) as [inner |];
    try destruct (has_key inner (name self)); split; reflexivity.
Qed.

(** The tables that [apply_cooldown] leaves, with the command's own
    lengths. *)
Lemma apply_cooldown_tables (self : t) (ch : BaseChannel.t)
      (msg : ChatMessage.t) (tg tu : Q) :
  let ch' := apply_cooldown self ch msg None None tg tu in
  let c1 :=
    if truthy (global_cd self)
    then Py.set (BaseChannel.cooldowns ch) (name self)
                (Qplus tg (inject_Z (global_cd self)))
    else BaseChannel.cooldowns ch in
  let u := UserData.cooldowns (BaseChannel.userdata ch) in
  BaseChannel.cooldowns ch'
  = (if truthy (user_cd self) && negb (nonempty (ChatMessage.user msg))
     then Py.set c1 (name self) (Qplus tu (inject_Z (user_cd self)))
     else c1)
  /\ UserData.cooldowns (BaseChannel.userdata ch')
     = (if truthy (user_cd self) && nonempty (ChatMessage.user msg)
        then Py.set u (ChatMessage.user msg)
               (Py.set (match get u (ChatMessage.user msg) with
                        | Some d => d
                        | None => []
                        end)
                       (name self)
                       (Qplus tu (inject_Z (user_cd self))))
        else u).
Proof.
  unfold apply_cooldown. cbn [truthy_opt or_else orb andb].
  rewrite !orb_false_r.
  destruct (truthy (global_cd self)); destruct (truthy (user_cd self));
    destruct (ChatMessage.user msg) as [| c user]; split; reflexivity.
Qed.

Lemma apply_sets_user_bit (self : t) (ch : BaseChannel.t)
      (msg : ChatMessage.t) (tg tu : Q) :
  user_cd self <> 0%Z -> ChatMessage.user msg <> [] ->
  DenialReason.has
    (check_cooldowns self (apply_cooldown self ch msg None None tg tu) msg)
    DenialReason.USER_COOLDOWN = true.
Proof.
  intros Hucd Huser.
  destruct (apply_cooldown_tables self ch msg tg tu) as [_ Hu].
  cbv zeta in Hu.
  destruct (check_cooldowns_bits self
              (apply_cooldown self ch msg None None tg tu) msg)
    as [_ ->].
  rewrite Hu.
  assert (Eu : truthy (user_cd self) = true)
    by (unfold truthy; apply negb_true_iff; now apply Z.eqb_neq).
  rewrite Eu.
  destruct (ChatMessage.user msg) as [| c user] eqn:Euser;
    [congruence |].
  cbn [nonempty andb]. rewrite get_set_same. apply has_key_set_same.
Qed.

(** X10.  A cooldown that [apply_cooldown] sets is what
    [check_cooldowns] then reports: the global bit for a command with a
    global cooldown, the user bit for the user of the message when the
    command has a user cooldown.  Commands of another name are not
    affected, for any user; and a command without cooldowns leaves the
    channel as it was. *)
Theorem applied_cooldown_is_checked (self : t) (ch : BaseChannel.t)
        (msg : ChatMessage.t) (tg tu : Q) :
  (global_cd self <> 0%Z ->
   DenialReason.has
     (check_cooldowns self (apply_cooldown self ch msg None None tg tu)
                      msg)
     DenialReason.GLOBAL_COOLDOWN = true)
  /\ (user_cd self <> 0%Z -> ChatMessage.user msg <> [] ->
      DenialReason.has
        (check_cooldowns self (apply_cooldown self ch msg None None tg tu)
                         msg)
        DenialReason.USER_COOLDOWN = true)
  /\ (forall (other : t) (msg' : ChatMessage.t),
         name other <> name self ->
         check_cooldowns other
           (apply_cooldown self ch msg None None tg tu) msg'
         = check_cooldowns other ch msg')
  /\ (global_cd self = 0%Z -> user_cd self = 0%Z ->
      apply_cooldown self ch msg None None tg tu = ch).
Proof.
  destruct (apply_cooldown_tables self ch msg tg tu) as [Hc Hu].
  cbv zeta in Hc, Hu.
  split; [| split; [| split]].
  - intros Hg.
    destruct (check_cooldowns_bits self
                (apply_cooldown self ch msg None None tg tu) msg)
      as [-> _].
    rewrite Hc.
    assert (Eg : truthy (global_cd self) = true)
      by (unfold truthy; apply negb_true_iff; now apply Z.eqb_neq).
    rewrite Eg.
    destruct (truthy (user_cd self) && _);
      [apply has_key_set_same | apply has_key_set_same].
  - now apply apply_sets_user_bit.
  - intros other msg' Hne.
    assert (Hne' : name self <> name other) by congruence.
    unfold check_cooldowns. rewrite Hc, Hu.
    assert (E1 : has_key
                   (if truthy (user_cd self)
                       && negb (nonempty (ChatMessage.user msg))
                    then Py.set
                           (if truthy (global_cd self)
                            then Py.set (BaseChannel.cooldowns ch)
                                   (name self)
                                   (Qplus tg (inject_Z (global_cd self)))
                            else BaseChannel.cooldowns ch)
                           (name self)
                           (Qplus tu (inject_Z (user_cd self)))
                    else
                      if truthy (global_cd self)
                      then Py.set (BaseChannel.cooldowns ch) (name self)
                             (Qplus tg (inject_Z (global_cd self)))
                      else BaseChannel.cooldowns ch)
                   (name other)
                 = has_key (BaseChannel.cooldowns ch) (name other)).
    { destruct (truthy (user_cd self) && _);
        destruct (truthy (global_cd self));
        rewrite ?has_key_set_other by exact Hne'; reflexivity. }
    rewrite E1.
    destruct (truthy (user_cd self) && nonempty (ChatMessage.user msg));
      [| reflexivity].
    destruct (str_eqb (ChatMessage.user msg) (ChatMessage.user msg'))
      eqn:Eusers.
    + apply str_eqb_eq in Eusers. rewrite <- Eusers.
      rewrite get_set_same.
      rewrite has_key_set_other by exact Hne'.
      destruct (get (UserData.cooldowns (BaseChannel.userdata ch))
                    (ChatMessage.user msg));
        reflexivity.
    + apply str_eqb_neq in Eusers.
      now rewrite get_set_other by exact Eusers.
  - intros Hg Hucd. unfold apply_cooldown. rewrite Hg, Hucd.
    reflexivity.
Qed.

(** X11.  Registration keeps a user cooldown only when it is longer than
    the global one.  A command registered with a user cooldown that does
    not exceed its global cooldown has user cooldown 0, and applying its
    cooldown never writes to the per-user table of the channel.  A
    longer user cooldown, not 0, is kept, and applying it sets the user
    bit for the user of the message. *)
Theorem registered_user_cooldown
        (registry registry' : dict t) (func : nat) (name : str)
        (syntax : option str) (desc : str) (perm : CommandPerm.t)
        (prefix : option str) (aliases : option (list str))
        (global_cd user_cd : Z) (hide active : bool) (self : t) :
  init registry func name syntax desc perm prefix aliases
       global_cd user_cd hide active = Ok (self, registry') ->
  Command.global_cd self = global_cd
  /\ Command.user_cd self
     = (if (user_cd <=? global_cd)%Z then 0%Z else user_cd)
  /\ ((user_cd <= global_cd)%Z ->
      forall (ch : BaseChannel.t) (msg : ChatMessage.t) (tg tu : Q),
        BaseChannel.userdata (apply_cooldown self ch msg None None tg tu)
        = BaseChannel.userdata ch)
  /\ ((global_cd < user_cd)%Z -> user_cd <> 0%Z ->
      forall (ch : BaseChannel.t) (msg : ChatMessage.t) (tg tu : Q),
        ChatMessage.user msg <> [] ->
        DenialReason.has
          (check_cooldowns self
             (apply_cooldown self ch msg None None tg tu) msg)
          DenialReason.USER_COOLDOWN = true).
Proof.
  unfold init. intros H.
  destruct (Parameters_.from_syntax syntax) as [params |]; simpl in H;
    [| discriminate].
  inversion H; subst self registry'. clear H.
  split; [reflexivity |]. split; [reflexivity |]. split.
  - intros Hle ch msg tg tu.
    apply Z.leb_le in Hle. unfold apply_cooldown.
    cbn [Command.user_cd Command.global_cd Command.name truthy_opt
         or_else orb andb].
    rewrite Hle. cbn [truthy Z.eqb negb orb].
    destruct (truthy global_cd || false); reflexivity.
  - intros Hlt Hnz ch msg tg tu Huser.
    apply apply_sets_user_bit; [| exact Huser].
    cbn [Command.user_cd].
    assert (E : (user_cd <=? global_cd)%Z = false) by (apply Z.leb_gt; lia).
    rewrite E. exact Hnz.
Qed.

Lemma registered_user_cooldown_witness :
  Command.user_cd Sample.shout = 30%Z
  /\ Command.global_cd Sample.shout = 10%Z.
Proof.
  destruct (@registered_user_cooldown
              [] Sample.registry 0 (py "shout") (Some (py "<text+>"))
              (py "Shout it.") CommandPerm.MOD None (Some [py "yell"])
              10 30 false true Sample.shout eq_refl)
    as (Hg & Hu & _).
  split; [exact Hu | exact Hg].
Defined.

Lemma find_unique (A : Type) (p : A -> bool) (x : A) (l : list A) :
  (forall y, In y l -> p y = true -> y = x) ->
  In x l -> p x = true -> List.find p l = Some x.
Proof.
  induction l as [| a l IH]; intros Hu Hin Hp; [contradiction |].
  simpl. destruct (p a) eqn:Ea.
  - f_equal. apply Hu; [now left | exact Ea].
  - apply IH; [intros y Hy; apply Hu; now right | | exact Hp].
    destruct Hin as [-> | Hin]; [congruence | exact Hin].
Qed.

Lemma get_In_values (V : Type) (d : dict V) (k : str) (v : V) :
  get d k = Some v -> In v (values d).
Proof.
  induction d as [| [k0 v0] d IH]; simpl; [discriminate |].
  destruct (str_eqb k k0); intros H;
    [inversion H; now left | right; now apply IH].
Qed.

Lemma values_set_In (V : Type) (d : dict V) (k : str) (v c : V) :
  In c (values (Py.set d k v)) -> c = v \/ In c (values d).
Proof.
  unfold values. intros H. apply in_map_iff in H.
  destruct H as ([k0 v0] & <- & H). simpl.
  apply set_In in H. destruct H as [[_ ->] | H]; [now left | right].
  apply in_map_iff. now exists (k0, v0).
Qed.

Lemma values_fold_set_In (self : t) (aliases : list str) :
  forall (d : dict t) (c : t),
    In c (values (fold_left (fun d alias => Py.set d alias self)
                            aliases d)) ->
    c = self \/ In c (values d).
Proof.
  induction aliases as [| a aliases IH]; intros d c H; simpl in H;
    [now right |].
  apply IH in H. destruct H as [H | H]; [now left |].
  now apply values_set_In in H.
Qed.

(** X12.  A command registered while no command of the registry has its
    trigger is the one that [get_by_trigger] returns for that trigger. *)
Theorem registered_command_is_found
        (registry registry' : dict t) (func : nat) (name : str)
        (syntax : option str) (desc : str) (perm : CommandPerm.t)
        (prefix : option str) (aliases : option (list str))
        (global_cd user_cd : Z) (hide active : bool) (self : t)
        (default_prefix : str) :
  init registry func name syntax desc perm prefix aliases
       global_cd user_cd hide active = Ok (self, registry') ->
  (forall cmd, In cmd (values registry) ->
               trigger default_prefix cmd <> trigger default_prefix self) ->
  get_by_trigger registry' default_prefix (trigger default_prefix self)
  = Some self.
Proof.
  unfold init. intros H Hfree.
  destruct (Parameters_.from_syntax syntax) as [params |]; simpl in H;
    [| discriminate].
  inversion H as [[Hself Hreg]]. rewrite Hself in *. clear H.
  unfold get_by_trigger. apply find_unique.
  - intros y Hy Hp. apply str_eqb_eq in Hp.
    apply values_fold_set_In in Hy. destruct Hy as [Hy | Hy]; [exact Hy |].
    apply values_set_In in Hy. destruct Hy as [Hy | Hy]; [exact Hy |].
    exfalso. exact (Hfree y Hy Hp).
  - apply get_In_values with (k := name).
    apply registered_keys. right. apply get_set_same.
  - apply str_eqb_refl.
Qed.

Lemma registered_command_is_found_witness :
  get_by_trigger Sample.registry (py "!") (py "!shout")
  = Some Sample.shout.
Proof.
  apply (@registered_command_is_found
           [] Sample.registry 0 (py "shout") (Some (py "<text+>"))
           (py "Shout it.") CommandPerm.MOD None (Some [py "yell"])
           10 30 false true Sample.shout (py "!") eq_refl).
  intros cmd [].
Defined.

Lemma mem_filter_out (x : str) (s : list str) :
  mem x (filter (fun c => negb (str_eqb x c)) s) = false.
Proof.
  induction s as [| y s IH]; simpl; [reflexivity |].
  destruct (str_eqb x y) eqn:E; simpl; [exact IH |].
  now rewrite E.
Qed.

Lemma mem_filter_other (x y : str) (s : list str) :
  x <> y ->
  mem x (filter (fun c => negb (str_eqb y c)) s) = mem x s.
Proof.
  intros Hne. induction s as [| z s IH]; simpl; [reflexivity |].
  destruct (str_eqb y z) eqn:E; simpl.
  - apply str_eqb_eq in E. subst z.
    assert (E2 : str_eqb x y = false) by now apply str_eqb_neq.
    now rewrite E2.
  - now rewrite IH.
Qed.

(** X13.  Toggling a command off for a channel puts the channel in its
    disabled set, and toggling it on again takes it out; other channels
    and the global flag are untouched by a per-channel toggle, and the
    disabled set by a global one.  While the command is off for the
    channel of a message, or off globally, the message does not trigger
    it. *)
Theorem toggle_controls_trigger (self : t) (ch : str) :
  mem ch (disabled_channels (toggle self false (Some ch))) = true
  /\ mem ch (disabled_channels
               (toggle (toggle self false (Some ch)) true (Some ch)))
     = false
  /\ (forall (other : str) (b : bool),
         other <> ch ->
         mem other (disabled_channels (toggle self b (Some ch)))
         = mem other (disabled_channels self))
  /\ (forall b : bool,
         active (toggle self b (Some ch)) = active self
         /\ disabled_channels (toggle self b None)
            = disabled_channels self)
  /\ (forall (w : World) (msg : ChatMessage.t) (scope : option str),
         scope = None \/ scope = Some (ChatMessage.channel msg) ->
         get_by_trigger (commands w) (default_prefix w)
           (fst (start_and_args (ChatMessage.message msg)))
         = Some (toggle self false scope) ->
         triggered w msg = None).
Proof.
  split; [| split; [| split; [| split]]].
  - cbn [toggle disabled_channels].
    destruct (mem ch (disabled_channels self)) eqn:E; [exact E |].
    unfold mem. rewrite existsb_app. simpl.
    now rewrite str_eqb_refl, orb_true_r.
  - cbn [toggle disabled_channels]. apply mem_filter_out.
  - intros other b Hne. cbn [toggle disabled_channels].
    destruct b; [now apply mem_filter_other |].
    destruct (mem ch (disabled_channels self)); [reflexivity |].
    unfold mem. rewrite existsb_app. simpl.
    assert (E : str_eqb other ch = false) by now apply str_eqb_neq.
    now rewrite E, !orb_false_r.
  - intros b. split; reflexivity.
  - intros w msg scope Hscope Hget. unfold triggered. rewrite Hget.
    destruct Hscope as [-> | ->].
    + cbn [toggle active]. reflexivity.
    + cbn [toggle active disabled_channels].
      assert (E : mem (ChatMessage.channel msg)
                      (if mem (ChatMessage.channel msg)
                              (disabled_channels self)
                       then disabled_channels self
                       else disabled_channels self
                              ++ [ChatMessage.channel msg]) = true).
      { destruct (mem (ChatMessage.channel msg) (disabled_channels self))
          eqn:E0; [exact E0 |].
        unfold mem. rewrite existsb_app. simpl.
        now rewrite str_eqb_refl, orb_true_r. }
      rewrite E. now rewrite andb_false_r.
Qed.

End CommandState.

(* ================================================================== *)
(** * Round trips through the parser *)
(* ================================================================== *)

Section ParsedLines.

Import MessageParser.

(** ** Searching and splitting *)

Lemma forallb_imp (A : Type) (p q : A -> bool) (l : list A) :
  (forall x, p x = true -> q x = true) ->
  forallb p l = true -> forallb q l = true.
Proof.
  intros Hpq. rewrite !forallb_forall. intros H x Hx. now apply Hpq, H.
Qed.

(** A string without the first character of [sub] does not hold [sub]. *)
Lemma find_absent (h : char) (sub s : str) :
  forallb (fun c => negb (N.eqb h c)) s = true ->
  find (h :: sub) s = None.
Proof.
  induction s as [| c s IH]; intros H; [reflexivity |].
  simpl in H. apply andb_true_iff in H. destruct H as [Hc Hs].
  apply negb_true_iff in Hc.
  rewrite find_unfold. cbn [startswith]. rewrite Hc. cbn [andb].
  now rewrite (IH Hs).
Qed.

(** [sub] is first found right after a prefix that lacks its first
    character. *)
Lemma find_first (h : char) (sub pre post : str) :
  forallb (fun c => negb (N.eqb h c)) pre = true ->
  find (h :: sub) (pre ++ (h :: sub) ++ post) = Some (List.length pre).
Proof.
  induction pre as [| c pre IH]; intros H.
  - rewrite find_unfold. change ([] ++ (h :: sub) ++ post)
      with ((h :: sub) ++ post). now rewrite startswith_app.
  - simpl in H. apply andb_true_iff in H. destruct H as [Hc Hs].
    apply negb_true_iff in Hc.
    rewrite find_unfold.
    change ((c :: pre) ++ (h :: sub) ++ post)
      with (c :: (pre ++ (h :: sub) ++ post)).
    cbn [startswith]. rewrite Hc. cbn [andb].
    now rewrite (IH Hs).
Qed.

(** A two-character separator whose second character the prefix lacks. *)
Lemma find_second (x y : char) (pre post : str) :
  x <> y ->
  forallb (fun c => negb (N.eqb y c)) (tl pre) = true ->
  find [x; y] (pre ++ [x; y] ++ post) = Some (List.length pre).
Proof.
  intros Hxy. induction pre as [| c pre IH]; intros Hs.
  - rewrite find_unfold. change ([] ++ [x; y] ++ post)
      with ([x; y] ++ post). now rewrite startswith_app.
  - cbn [tl] in Hs.
    rewrite find_unfold.
    change ((c :: pre) ++ [x; y] ++ post)
      with (c :: (pre ++ [x; y] ++ post)).
    assert (E : startswith [x; y] (c :: (pre ++ [x; y] ++ post)) = false).
    { cbn [startswith]. destruct pre as [| d pre].
      - cbn [app]. assert (Eyx : N.eqb y x = false)
          by (apply N.eqb_neq; congruence).
        now rewrite Eyx, andb_false_r.
      - simpl in Hs. apply andb_true_iff in Hs. destruct Hs as [Hd _].
        apply negb_true_iff in Hd. cbn [app]. rewrite Hd.
        now rewrite andb_false_r. }
    rewrite E. rewrite IH; [reflexivity |].
    destruct pre as [| d pre]; [reflexivity |].
    simpl in Hs. apply andb_true_iff in Hs. now destruct Hs.
Qed.

Lemma find_second_none (x y c : char) (s : str) :
  forallb (fun d => negb (N.eqb y d)) s = true ->
  find [x; y] (c :: s) = None.
Proof.
  revert c. induction s as [| d s IH]; intros c H.
  - rewrite find_unfold. cbn [startswith]. rewrite andb_false_r.
    reflexivity.
  - simpl in H. apply andb_true_iff in H. destruct H as [Hd Hs].
    apply negb_true_iff in Hd.
    rewrite find_unfold. cbn [startswith]. rewrite Hd.
    rewrite andb_false_r. now rewrite (IH d Hs).
Qed.

Lemma split_aux_skip (sep : str) (mx : option nat) (p rest cur : str) :
  split_aux sep mx (p ++ rest) (List.length p) cur
  = split_aux sep mx rest 0 cur.
Proof. induction p as [| c p IH]; [reflexivity | exact IH]. Qed.

(** The piece before the first occurrence of the separator. *)
Lemma split_aux_first (h : char) (sep pre post : str) :
  forall cur,
    find (h :: sep) (pre ++ (h :: sep) ++ post) = Some (List.length pre) ->
    split_aux (h :: sep) None (pre ++ (h :: sep) ++ post) 0 cur
    = rev (rev pre ++ cur) :: split_aux (h :: sep) None post 0 [].
Proof.
  induction pre as [| c pre IH]; intros cur H.
  - assert (E : startswith (h :: sep) (h :: (sep ++ post)) = true)
      by apply (startswith_app (h :: sep) post).
    cbn [app split_aux rev]. rewrite E.
    replace (List.length (h :: sep) - 1)%nat with (List.length sep)
      by (simpl; lia).
    f_equal. apply split_aux_skip.
  - rewrite find_unfold in H.
    change ((c :: pre) ++ (h :: sep) ++ post)
      with (c :: (pre ++ (h :: sep) ++ post)) in *.
    destruct (startswith (h :: sep) (c :: pre ++ (h :: sep) ++ post))
      eqn:E; [discriminate |].
    destruct (find (h :: sep) (pre ++ (h :: sep) ++ post)) as [i |] eqn:Ef;
      [| discriminate].
    simpl in H. inversion H; subst i.
    cbn [split_aux]. rewrite E.
    rewrite (IH (c :: cur) eq_refl).
    simpl. now rewrite <- app_assoc.
Qed.

(** A string without the separator is one piece. *)
Lemma split_aux_none (sep s : str) :
  forall cur,
    find sep s = None ->
    split_aux sep None s 0 cur = [rev (rev s ++ cur)].
Proof.
  induction s as [| c s IH]; intros cur H; [reflexivity |].
  rewrite find_unfold in H.
  destruct (startswith sep (c :: s)) eqn:E; [discriminate |].
  destruct (find sep s) eqn:Ef; [discriminate |].
  cbn [split_aux]. rewrite E. rewrite (IH (c :: cur) eq_refl).
  simpl. now rewrite <- app_assoc.
Qed.

Lemma split_aux_nonempty (sep s : str) :
  forall mx k cur, split_aux sep mx s k cur <> [].
Proof.
  induction s as [| c s IH]; intros mx' k cur; [discriminate |].
  cbn [split_aux]. destruct k; [| apply IH].
  destruct mx' as [[| m] |]; try apply IH;
    destruct (startswith sep (c :: s)); try apply IH; discriminate.
Qed.

Lemma startswith_skipn (p s : str) :
  startswith p s = true -> s = p ++ skipn (List.length p) s.
Proof.
  revert s. induction p as [| x p IH]; intros s H; [reflexivity |].
  destruct s as [| y s]; simpl in *; [discriminate |].
  apply andb_true_iff in H. destruct H as [Hx Hp].
  apply N.eqb_eq in Hx. subst y. f_equal. now apply IH.
Qed.

(** [sep.join(s.split(sep, maxsplit))] is [s] again. *)
Lemma join_split_aux (h : char) (sep s : str) :
  forall mx k cur,
    join (h :: sep) (split_aux (h :: sep) mx s k cur)
    = rev cur ++ skipn k s.
Proof.
  induction s as [| c s IH]; intros mx k cur.
  - simpl. destruct k; now rewrite app_nil_r.
  - cbn [split_aux]. destruct k as [| k]; [| apply IH].
    assert (Hkeep : join (h :: sep)
                      (split_aux (h :: sep) mx s 0 (c :: cur))
                    = rev cur ++ skipn 0 (c :: s)).
    { rewrite IH. simpl. now rewrite <- app_assoc. }
    assert (Hcut : startswith (h :: sep) (c :: s) = true ->
                   join (h :: sep)
                     (rev cur ::
                      split_aux (h :: sep) (option_map pred mx) s
                        (List.length (h :: sep) - 1) [])
                   = rev cur ++ skipn 0 (c :: s)).
    { intros E. rewrite join_cons by apply split_aux_nonempty.
      rewrite IH. f_equal. cbn [rev app skipn].
      cbn [startswith] in E. apply andb_true_iff in E.
      destruct E as [Eh Es]. apply N.eqb_eq in Eh. subst c.
      apply startswith_skipn in Es.
      replace (List.length (h :: sep) - 1)%nat with (List.length sep)
        by (simpl; lia).
      f_equal. now symmetry. }
    destruct mx as [[| m] |]; [exact Hkeep | |];
      destruct (startswith (h :: sep) (c :: s)) eqn:E;
      [now apply Hcut | exact Hkeep | now apply Hcut | exact Hkeep].
Qed.

Lemma join_split (h : char) (sep s : str) :
  join (h :: sep) (split (h :: sep) s) = s.
Proof. unfold split. now rewrite join_split_aux. Qed.

Lemma split_join_all (c : char) (parts : list str) :
  parts <> [] ->
  Forall (fun w => forallb (fun x => negb (N.eqb c x)) w = true) parts ->
  split [c] (join [c] parts) = parts.
Proof.
  intros Hne H. destruct (exists_last Hne) as (words & t & ->).
  now apply split_join.
Qed.

Lemma skipn_past (A : Type) (a b : list A) (x : A) :
  skipn (S (List.length a)) (a ++ x :: b) = b.
Proof. induction a as [| y a IH]; [reflexivity | exact IH]. Qed.

Lemma firstn_exact (A : Type) (a b : list A) :
  firstn (List.length a) (a ++ b) = a.
Proof. induction a as [| y a IH]; simpl; [reflexivity | now rewrite IH]. Qed.

Lemma skipn_exact (A : Type) (a b : list A) :
  skipn (List.length a) (a ++ b) = b.
Proof. induction a as [| y a IH]; [reflexivity | exact IH]. Qed.

Lemma forallb_rev (p : char -> bool) (s : str) :
  forallb p s = true -> forallb p (rev s) = true.
Proof.
  rewrite !forallb_forall. intros H x Hx. apply H. now apply in_rev.
Qed.

(** ** Tags *)

(** Cutting [a=b] at its last [=], for [b] without one. *)
Lemma cut_at_last (x : char) (a b : str) :
  forallb (fun c => negb (N.eqb x c)) b = true ->
  match find [x] (rev (a ++ [x] ++ b)) with
  | Some j => Some (rev (skipn (S j) (rev (a ++ [x] ++ b))),
                    rev (firstn j (rev (a ++ [x] ++ b))))
  | None => None
  end = Some (a, b).
Proof.
  intros Hb.
  assert (Er : rev (a ++ [x] ++ b) = rev b ++ [x] ++ rev a).
  { rewrite !rev_app_distr. simpl. now rewrite <- app_assoc. }
  rewrite Er.
  rewrite (@find_first x [] (rev b) (rev a)) by now apply forallb_rev.
  change ([x] ++ rev a) with (x :: rev a).
  rewrite skipn_past, firstn_exact, !rev_involutive. reflexivity.
Qed.

Lemma match_tag_pair (k v : str) :
  Server.is_tag_key k = true -> Server.is_tag_value v = true ->
  match_tag (k ++ py "=" ++ v) = Some (k, v).
Proof.
  unfold Server.is_tag_key, Server.is_tag_value. intros Hk Hv.
  unfold match_tag, contains.
  rewrite find_absent.
  2:{ rewrite !forallb_app. rewrite andb_true_iff. split;
        [| rewrite andb_true_iff; split; [reflexivity |]].
      - eapply forallb_imp; [| exact Hk]. intros x Hx. cbv beta in *.
        apply andb_true_iff in Hx. tauto.
      - eapply forallb_imp; [| exact Hv]. intros x Hx. cbv beta in *.
        rewrite !andb_true_iff in Hx. tauto. }
  apply (@cut_at_last 61%N k v).
  eapply forallb_imp; [| exact Hv].
  intros x Hx. cbv beta in *. rewrite !andb_true_iff in Hx. tauto.
Qed.

Lemma parse_tags_fold (tags : list (str * str)) :
  Forall (fun kv => Server.is_tag_key (fst kv) = true
                    /\ Server.is_tag_value (snd kv) = true) tags ->
  forall d : dict str,
    fold_left (fun tags tag =>
                 match match_tag tag with
                 | Some (k, v) => Py.set tags k v
                 | None => tags
                 end)
              (map (fun kv => fst kv ++ py "=" ++ snd kv) tags) d
    = fold_left (fun d kv => Py.set d (fst kv) (snd kv)) tags d.
Proof.
  induction 1 as [| [k v] tags [Hk Hv] _ IH]; intros d; [reflexivity |].
  cbn [fst snd] in Hk, Hv.
  cbn [map fold_left fst snd]. rewrite (@match_tag_pair k v Hk Hv).
  apply IH.
Qed.

(** X14.  Tags round-trip through [_parse_tags]: the string
    [k1=v1;k2=v2;...] made of distinct keys, with no semicolon and no
    newline in keys and values and no equals sign in the values, parses
    back to the keys with their values, in order. *)
Theorem parse_tags_round_trip (tags : list (str * str)) :
  NoDup (map fst tags) ->
  Forall (fun kv => Server.is_tag_key (fst kv) = true
                    /\ Server.is_tag_value (snd kv) = true) tags ->
  _parse_tags (Server.tag_string tags) = tags.
Proof.
  intros Hnd Hok. destruct tags as [| kv0 tags0]; [reflexivity |].
  remember (kv0 :: tags0) as tags eqn:Et.
  unfold _parse_tags, Server.tag_string.
  change (py ";") with [59%N].
  rewrite split_join_all.
  - rewrite (parse_tags_fold Hok).
    rewrite fold_set_fresh; [reflexivity | exact Hnd |].
    intros; reflexivity.
  - subst tags. discriminate.
  - apply Forall_map. eapply Forall_impl; [| exact Hok].
    intros [k v] [Hk Hv]. cbn [fst snd] in *.
    unfold Server.is_tag_key, Server.is_tag_value in *.
    rewrite !forallb_app. rewrite andb_true_iff. split;
      [| rewrite andb_true_iff; split; [reflexivity |]].
    + eapply forallb_imp; [| exact Hk]. intros x Hx. cbv beta in *.
      apply andb_true_iff in Hx. tauto.
    + eapply forallb_imp; [| exact Hv]. intros x Hx. cbv beta in *.
      rewrite !andb_true_iff in Hx. tauto.
Qed.

Lemma parse_tags_round_trip_witness :
  _parse_tags (py "color=#FF0000;display-name=Bob;mod=0")
  = [(py "color", py "#FF0000"); (py "display-name", py "Bob");
     (py "mod", py "0")].
Proof.
  apply (@parse_tags_round_trip
           [(py "color", py "#FF0000"); (py "display-name", py "Bob");
            (py "mod", py "0")]).
  - repeat constructor; simpl; intuition discriminate.
  - repeat constructor.
Defined.

(** ** The pieces of a line *)

(** [raw.split(" :")] for a line of three parts, the first without the
    first character of the separator and the second without its second
    character past its head. *)
Lemma split_three (x y : char) (p c m : str) :
  x <> y ->
  forallb (fun d => negb (N.eqb x d)) p = true ->
  forallb (fun d => negb (N.eqb y d)) (tl c) = true ->
  split [x; y] (p ++ [x; y] ++ c ++ [x; y] ++ m)
  = p :: c :: split [x; y] m.
Proof.
  intros Hxy Hp Hc. unfold split.
  rewrite split_aux_first by now apply find_first.
  rewrite split_aux_first by now apply find_second.
  now rewrite !app_nil_r, !rev_involutive.
Qed.

Lemma split_two (x y : char) (c m : str) :
  x <> y ->
  forallb (fun d => negb (N.eqb y d)) (tl c) = true ->
  split [x; y] (c ++ [x; y] ++ m) = c :: split [x; y] m.
Proof.
  intros Hxy Hc. unfold split.
  rewrite split_aux_first by now apply find_second.
  now rewrite !app_nil_r, !rev_involutive.
Qed.

Lemma split_one (x y : char) (c : str) :
  forallb (fun d => negb (N.eqb y d)) (tl c) = true ->
  split [x; y] c = [c].
Proof.
  intros Hc. unfold split. rewrite split_aux_none.
  - now rewrite app_nil_r, rev_involutive.
  - destruct c as [| d c]; [reflexivity |]. now apply find_second_none.
Qed.

Lemma required_nonempty (s : str) :
  s <> [] -> required (Some s) = Ok s.
Proof. destruct s; [congruence | reflexivity]. Qed.

(** The message of a line is its text after the command, whatever
    separators it holds. *)
Lemma parse_message_text (m : str) :
  is_text m = true -> hd 0%N m <> 1%N ->
  _parse_message (split (py " :") m) = Ok (Some m).
Proof.
  intros Ht Hh.
  assert (EJ : join (py " :") (split (py " :") m) = m)
    by exact (@join_split 32%N [58%N] m).
  unfold _parse_message.
  destruct (split (py " :") m) as [| d data] eqn:Es.
  { exfalso. revert Es. apply split_aux_nonempty. }
  rewrite EJ.
  pose proof (trimmed_strip (is_text_trimmed _ Ht)) as Hstrip.
  destruct m as [| c0 m]; [discriminate Ht |].
  cbn [hd] in Hh. apply N.eqb_neq in Hh. rewrite Hh. cbn [andb].
  now rewrite Hstrip.
Qed.

(** ** Characters of names *)

Lemma name_char_range (c : char) :
  is_name_char c = true ->
  (97 <= c <= 122 \/ 48 <= c <= 57 \/ c = 95)%N.
Proof.
  unfold is_name_char.
  rewrite !orb_true_iff, !andb_true_iff, !N.leb_le, N.eqb_eq. tauto.
Qed.

Lemma name_char_other (h c : char) :
  ~ (97 <= h <= 122 \/ 48 <= h <= 57 \/ h = 95)%N ->
  is_name_char c = true -> negb (N.eqb h c) = true.
Proof.
  intros Hh Hc. apply name_char_range in Hc.
  apply negb_true_iff, N.eqb_neq. intros ->. contradiction.
Qed.

Lemma name_char_not_space (c : char) :
  is_name_char c = true -> negb (is_space c) = true.
Proof.
  intros Hc. apply name_char_range in Hc.
  apply negb_true_iff, not_true_is_false. unfold is_space.
  rewrite !orb_true_iff, !andb_true_iff, !N.leb_le, !N.eqb_eq. lia.
Qed.

Lemma is_name_chars (s : str) :
  Server.is_name s = true ->
  s <> [] /\ forallb is_name_char s = true.
Proof.
  unfold Server.is_name. intros H. apply andb_true_iff in H.
  destruct H as [Hne H]. split; [| exact H].
  destruct s; [discriminate | discriminate].
Qed.

(** A property of name characters that the fixed characters of the host
    mask share holds for the whole mask. *)
Lemma hostmask_chars (q : char -> bool) (user : str) :
  (forall c, is_name_char c = true -> q c = true) ->
  forallb q (py "!@.tmi.twitch.tv") = true ->
  Server.is_name user = true ->
  forallb q (Server.hostmask user) = true.
Proof.
  intros Hq Hfix Hu. apply is_name_chars in Hu. destruct Hu as [_ Hu].
  pose proof (forallb_imp _ _ _ Hq Hu) as Hqu.
  unfold Server.hostmask. rewrite !forallb_app, Hqu.
  cbn [andb]. rewrite forallb_forall in Hfix.
  assert (F : forall l, incl l (py "!@.tmi.twitch.tv") ->
                        forallb q l = true).
  { intros l Hl. apply forallb_forall. intros x Hx. apply Hfix.
    now apply Hl. }
  rewrite !F; [reflexivity | ..];
    intros x Hx; vm_compute in Hx |- *; tauto.
Qed.

(** ** The fields of a command part *)

Lemma takewhile_app (p : char -> bool) (u : str) (b : char) (r : str) :
  forallb p u = true -> p b = false -> takewhile p (u ++ b :: r) = u.
Proof.
  intros Hu Hb. induction u as [| c u IH]; simpl.
  - now rewrite Hb.
  - simpl in Hu. apply andb_true_iff in Hu. destruct Hu as [Hc Hu].
    now rewrite Hc, (IH Hu).
Qed.

(** Two strings whose runs of [q]-characters end on different characters
    do not start alike. *)
Lemma startswith_other_stop (q : char -> bool) (p1 : str) (d : char)
      (p2 u : str) (b : char) (r : str) :
  forallb q p1 = true -> q d = false ->
  forallb q u = true -> q b = false -> d <> b ->
  startswith (p1 ++ d :: p2) (u ++ b :: r) = false.
Proof.
  intros Hp1 Hd Hu Hb Hdb. revert u Hu.
  induction p1 as [| e p1 IH]; intros u Hu.
  - destruct u as [| c u]; cbn [app startswith].
    + apply N.eqb_neq in Hdb. now rewrite Hdb.
    + simpl in Hu. apply andb_true_iff in Hu. destruct Hu as [Hc _].
      assert (E : N.eqb d c = false)
        by (apply N.eqb_neq; intros ->; congruence).
      now rewrite E.
  - simpl in Hp1. apply andb_true_iff in Hp1. destruct Hp1 as [He Hp1].
    destruct u as [| c u]; cbn [app startswith].
    + assert (E : N.eqb e b = false)
        by (apply N.eqb_neq; intros ->; congruence).
      now rewrite E.
    + simpl in Hu. apply andb_true_iff in Hu. destruct Hu as [_ Hu].
      rewrite (IH Hp1 u Hu). apply andb_false_r.
Qed.

Lemma parse_user_hostmask (user rest : str) :
  Server.is_name user = true ->
  _parse_user (Server.hostmask user ++ rest) = Some user.
Proof.
  intros Hname. destruct (is_name_chars _ Hname) as [Hne Hu].
  assert (Eshape : Server.hostmask user ++ rest
                   = user ++ 33%N :: (user ++ py "@" ++ user
                                           ++ py ".tmi.twitch.tv" ++ rest)).
  { unfold Server.hostmask. rewrite <- !app_assoc. reflexivity. }
  rewrite Eshape. unfold _parse_user.
  assert (E1 : startswith (py "jtv ")
                 (user ++ 33%N :: (user ++ py "@" ++ user
                                        ++ py ".tmi.twitch.tv" ++ rest))
               = false)
    by exact (@startswith_other_stop is_name_char (py "jtv") 32%N []
                user 33%N _ eq_refl eq_refl Hu eq_refl
                ltac:(discriminate)).
  assert (E2 : startswith (py "tmi.twitch.tv ")
                 (user ++ 33%N :: (user ++ py "@" ++ user
                                        ++ py ".tmi.twitch.tv" ++ rest))
               = false)
    by exact (@startswith_other_stop is_name_char (py "tmi") 46%N
                (py "twitch.tv ") user 33%N _ eq_refl eq_refl Hu eq_refl
                ltac:(discriminate)).
  rewrite E1, E2. cbn [orb]. unfold match_user. cbv zeta.
  rewrite takewhile_app by (exact Hu || reflexivity).
  rewrite skipn_exact.
  assert (E3 : startswith (py "!" ++ user ++ py "@" ++ user)
                 (33%N :: (user ++ py "@" ++ user
                                ++ py ".tmi.twitch.tv" ++ rest)) = true).
  { replace (33%N :: (user ++ py "@" ++ user
                           ++ py ".tmi.twitch.tv" ++ rest))
      with ((py "!" ++ user ++ py "@" ++ user)
              ++ py ".tmi.twitch.tv" ++ rest)
      by (rewrite <- !app_assoc; reflexivity).
    apply startswith_app. }
  rewrite E3. destruct user; [congruence | reflexivity].
Qed.

Lemma split_ws_word (w : str) (c : char) (rest : str) :
  forallb (fun x => negb (is_space x)) w = true ->
  is_space c = true ->
  forall cur,
    rev w ++ cur <> [] ->
    split_ws_aux (w ++ c :: rest) cur
    = rev (rev w ++ cur) :: split_ws_aux rest [].
Proof.
  intros Hw Hc. induction w as [| x w IH]; intros cur Hne.
  - cbn [app split_ws_aux rev] in *. rewrite Hc.
    destruct cur; [congruence | reflexivity].
  - simpl in Hw. apply andb_true_iff in Hw. destruct Hw as [Hx Hw].
    apply negb_true_iff in Hx.
    cbn [app split_ws_aux]. rewrite Hx.
    rewrite (IH Hw (x :: cur)).
    + simpl. now rewrite <- app_assoc.
    + destruct (rev w); discriminate.
Qed.

Lemma is_word_chars (s : str) :
  is_word s = true ->
  s <> [] /\ forallb (fun x => negb (is_space x)) s = true.
Proof.
  unfold is_word. intros H. apply andb_true_iff in H.
  destruct H as [Hne H]. split; [| exact H].
  destruct s; discriminate.
Qed.

Lemma parse_type_verb (pre verb post : str) :
  forallb (fun c => negb (N.eqb 67 c))
          (pre ++ py " " ++ verb ++ py " " ++ post) = true ->
  is_word pre = true -> is_word verb = true ->
  _parse_type (pre ++ py " " ++ verb ++ py " " ++ post) = Ok verb.
Proof.
  intros Hno Hpre Hverb.
  destruct (is_word_chars _ Hpre) as [Hpne Hpw].
  destruct (is_word_chars _ Hverb) as [Hvne Hvw].
  unfold _parse_type, contains.
  assert (E : find (py "CAP * ACK")
                (pre ++ py " " ++ verb ++ py " " ++ post) = None)
    by exact (@find_absent 67%N (py "AP * ACK") _ Hno).
  rewrite E. unfold split_ws.
  assert (E1 : split_ws_aux (pre ++ py " " ++ verb ++ py " " ++ post) []
               = pre :: verb :: split_ws_aux post []).
  { change (pre ++ py " " ++ verb ++ py " " ++ post)
      with (pre ++ 32%N :: (verb ++ 32%N :: post)).
    rewrite (@split_ws_word pre 32%N _ Hpw eq_refl [])
      by (rewrite app_nil_r; destruct pre; [congruence |];
          simpl; destruct (rev pre); discriminate).
    rewrite (@split_ws_word verb 32%N _ Hvw eq_refl [])
      by (rewrite app_nil_r; destruct verb; [congruence |];
          simpl; destruct (rev verb); discriminate).
    now rewrite !app_nil_r, !rev_involutive. }
  rewrite E1. reflexivity.
Qed.

Lemma parse_params_verb (pre : str) (h : char) (verb post : str) :
  forallb (fun c => negb (N.eqb h c)) (pre ++ py " ") = true ->
  _parse_params (pre ++ py " " ++ (h :: verb) ++ py " " ++ post)
                (h :: verb)
  = Ok (if nonempty post then Some post else None).
Proof.
  intros Hno. unfold _parse_params.
  assert (Eshape : pre ++ py " " ++ (h :: verb) ++ py " " ++ post
                   = (pre ++ py " ") ++ (h :: verb) ++ (py " " ++ post))
    by now rewrite <- !app_assoc.
  rewrite Eshape. rewrite find_first by exact Hno.
  cbv zeta. unfold slice_from.
  assert (Eskip : skipn (List.length (pre ++ py " ") + 1
                         + List.length (h :: verb))
                    ((pre ++ py " ") ++ (h :: verb) ++ py " " ++ post)
                  = post).
  { replace ((pre ++ py " ") ++ (h :: verb) ++ py " " ++ post)
      with (((pre ++ py " ") ++ (h :: verb) ++ py " ") ++ post)
      by now rewrite <- !app_assoc.
    replace (List.length (pre ++ py " ") + 1 + List.length (h :: verb))%nat
      with (List.length ((pre ++ py " ") ++ (h :: verb) ++ py " "))
      by (rewrite !length_app; simpl; lia).
    apply skipn_exact. }
  rewrite Eskip. reflexivity.
Qed.

Lemma parse_channel_hash (channel : str) :
  forallb (fun c => negb (N.eqb 32 c)) channel = true ->
  _parse_channel (Some (py "#" ++ channel)) = Some channel.
Proof.
  intros Hno. unfold _parse_channel.
  change (py "#" ++ channel) with (35%N :: channel).
  rewrite find_unfold. cbn [startswith py]. 
  change (startswith (py "#") (35%N :: channel)) with true.
  cbv iota. unfold find_from. cbn [skipn].
  assert (E : find (py " ") (35%N :: channel) = None)
    by exact (@find_absent 32%N [] (35%N :: channel) Hno).
  rewrite E. reflexivity.
Qed.

Lemma dropwhile_clean (p : char -> bool) (s : str) :
  forallb (fun c => negb (p c)) s = true -> dropwhile p s = s.
Proof.
  destruct s as [| c s]; [reflexivity |]. simpl. intros H.
  apply andb_true_iff in H. destruct H as [Hc _].
  apply negb_true_iff in Hc. now rewrite Hc.
Qed.

Lemma strip_with_clean (p : char -> bool) (s : str) :
  forallb (fun c => negb (p c)) s = true -> strip_with p s = s.
Proof.
  intros H. unfold strip_with.
  rewrite (dropwhile_clean _ _ H).
  rewrite (dropwhile_clean _ _ (forallb_rev _ _ H)).
  apply rev_involutive.
Qed.

Lemma verb_chars (verb : str) :
  Server.is_verb verb = true ->
  verb <> []
  /\ forallb (fun c => (65 <=? c)%N && (c <=? 90)%N
                       && negb (N.eqb 67 c)) verb = true.
Proof.
  unfold Server.is_verb. intros H. apply andb_true_iff in H.
  destruct H as [Hne H]. split; [| exact H]. destruct verb; discriminate.
Qed.

Lemma capital_range (c : char) :
  (65 <=? c)%N && (c <=? 90)%N && negb (N.eqb 67 c) = true ->
  (65 <= c <= 90)%N /\ c <> 67%N.
Proof.
  rewrite !andb_true_iff, !N.leb_le, negb_true_iff, N.eqb_neq.
  intros [[H1 H2] H3]. split; [lia | congruence].
Qed.

(** A property shared by name characters, capitals other than [C], the
    fixed characters of the host mask, the space and the hash holds for
    the whole command part. *)
Lemma command_chars (q : char -> bool) (user verb channel : str) :
  (forall c, is_name_char c = true -> q c = true) ->
  (forall c, (65 <= c <= 90)%N -> c <> 67%N -> q c = true) ->
  forallb q (py "!@.tmi.twitch.tv #") = true ->
  Server.is_name user = true -> Server.is_verb verb = true ->
  Server.is_name channel = true ->
  forallb q (Server.command user verb channel) = true.
Proof.
  intros Hname Hcap Hfix Hu Hv Hc.
  unfold Server.command. rewrite !forallb_app.
  rewrite hostmask_chars; [| exact Hname | | exact Hu].
  2:{ rewrite forallb_forall in *. intros x Hx. apply Hfix.
      vm_compute in Hx |- *. tauto. }
  destruct (verb_chars _ Hv) as [_ Hvc].
  destruct (is_name_chars _ Hc) as [_ Hcc].
  rewrite (@forallb_imp _ is_name_char q channel Hname Hcc).
  assert (Hqv : forallb q verb = true).
  { eapply forallb_imp; [| exact Hvc]. intros x Hx. cbv beta in Hx.
    apply capital_range in Hx. now apply Hcap. }
  rewrite Hqv.
  rewrite forallb_forall in Hfix.
  assert (F : forall l, incl l (py "!@.tmi.twitch.tv #") ->
                        forallb q l = true).
  { intros l Hl. apply forallb_forall. intros x Hx. apply Hfix.
    now apply Hl. }
  rewrite !F; [reflexivity | ..];
    intros x Hx; vm_compute in Hx |- *; tauto.
Qed.

(** What the parser reads off the command part [mask VERB #channel]. *)
Lemma command_fields (user verb channel : str) :
  Server.is_name user = true -> Server.is_verb verb = true ->
  Server.is_name channel = true ->
  strip_chars (py ":") (Server.command user verb channel)
  = Server.command user verb channel
  /\ strip_chars (py ":") (py ":" ++ Server.command user verb channel)
     = Server.command user verb channel
  /\ startswith (py "PING") (Server.command user verb channel) = false
  /\ startswith (py "@") (py ":" ++ Server.command user verb channel)
     = false
  /\ forallb (fun c => negb (N.eqb 58 c))
             (Server.command user verb channel) = true
  /\ _parse_user (Server.command user verb channel) = Some user
  /\ _parse_type (Server.command user verb channel) = Ok verb
  /\ _parse_params (Server.command user verb channel) verb
     = Ok (Some (py "#" ++ channel))
  /\ _parse_channel (Some (py "#" ++ channel)) = Some channel.
Proof.
  intros Hu Hv Hc.
  assert (Hcolon : forallb (fun c => negb (N.eqb 58 c))
                     (Server.command user verb channel) = true).
  { apply command_chars; try assumption; [| | reflexivity].
    - intros c. apply name_char_other. lia.
    - intros c Hr _. apply negb_true_iff, N.eqb_neq. lia. }
  assert (Hclean : forallb
                     (fun c => negb (existsb (N.eqb c) (py ":")))
                     (Server.command user verb channel) = true).
  { eapply forallb_imp; [| exact Hcolon]. intros x Hx. cbv beta in *.
    cbn [existsb py map list_ascii_of_string]. rewrite orb_false_r.
    rewrite N.eqb_sym. exact Hx. }
  destruct (is_name_chars _ Hu) as [Hune Huc].
  destruct (is_name_chars _ Hc) as [Hcne Hcc].
  destruct (verb_chars _ Hv) as [Hvne Hvc].
  split; [| split; [| split; [| split; [| split; [| split;
    [| split; [| split]]]]]]].
  - unfold strip_chars. now apply strip_with_clean.
  - unfold strip_chars, strip_with.
    change (dropwhile (fun c => existsb (N.eqb c) (py ":"))
              (py ":" ++ Server.command user verb channel))
      with (dropwhile (fun c => existsb (N.eqb c) (py ":"))
              (Server.command user verb channel)).
    now apply strip_with_clean.
  - unfold Server.command, Server.hostmask.
    destruct user as [| c user]; [congruence |].
    simpl in Huc. apply andb_true_iff in Huc. destruct Huc as [Hc0 _].
    assert (E : N.eqb 80 c = false).
    { pose proof (@name_char_other 80%N c ltac:(lia) Hc0) as E.
      now apply negb_true_iff in E. }
    change (py "PING") with (80%N :: py "ING").
    cbn [app startswith]. now rewrite E.
  - reflexivity.
  - exact Hcolon.
  - unfold Server.command. now apply parse_user_hostmask.
  - unfold Server.command. apply parse_type_verb.
    + apply (@command_chars (fun c => negb (N.eqb 67 c)) user verb channel);
        try assumption; [| | reflexivity].
      * intros c. apply name_char_other. lia.
      * intros c _ Hn. apply negb_true_iff, N.eqb_neq. congruence.
    + unfold is_word. apply andb_true_iff. split.
      * unfold Server.hostmask. destruct user; [congruence | reflexivity].
      * apply hostmask_chars; [| reflexivity | exact Hu].
        apply name_char_not_space.
    + unfold is_word. apply andb_true_iff. split.
      * destruct verb; [congruence | reflexivity].
      * eapply forallb_imp; [| exact Hvc]. intros x Hx. cbv beta in *.
        apply capital_range in Hx. destruct Hx as [Hx _].
        apply negb_true_iff, not_true_is_false. unfold is_space.
        rewrite !orb_true_iff, !andb_true_iff, !N.leb_le, !N.eqb_eq. lia.
  - unfold Server.command.
    destruct verb as [| h verb]; [congruence |].
    simpl in Hvc. apply andb_true_iff in Hvc. destruct Hvc as [Hh _].
    apply capital_range in Hh. destruct Hh as [Hh _].
    rewrite parse_params_verb; [reflexivity |].
    rewrite forallb_app. apply andb_true_iff. split.
    + apply hostmask_chars; [| | exact Hu].
      * intros c. apply name_char_other. lia.
      * apply forallb_forall. intros x Hx.
        apply negb_true_iff, N.eqb_neq. intros Heq.
        vm_compute in Hx.
        repeat (destruct Hx as [Hx | Hx]; [lia |]).
        exact Hx.
    + change (py " ") with [32%N]. cbn [forallb].
      rewrite andb_true_r. apply negb_true_iff, N.eqb_neq. lia.
  - apply parse_channel_hash.
    eapply forallb_imp; [| exact Hcc]. intros x.
    apply name_char_other. lia.
Qed.

Lemma forallb_tl (p : char -> bool) (s : str) :
  forallb p s = true -> forallb p (tl s) = true.
Proof.
  destruct s as [| c s]; [reflexivity |]. simpl. intros H.
  apply andb_true_iff in H. now destruct H.
Qed.

(** Decides the tests of [from_raw] on a type that is a literal. *)
Ltac dispatch :=
  repeat match goal with
         | |- context [str_eqb (py ?a) (py ?b)] =>
             let v := eval vm_compute in (str_eqb (py a) (py b)) in
             change (str_eqb (py a) (py b)) with v; cbv iota
         end.

(** X15.  A chat message comes back as it was sent.  Take the line that
    [submit] writes for a channel and a text, relayed by the server with
    tags and the host mask of the sender: [from_raw] returns the
    [ChatMessage] of that channel, sender and text, with the parsed tags.
    The names are runs of [[a-z0-9_]], the tags hold no space, and the
    text has no whitespace at its ends and does not start with the
    character 1. *)
Theorem relayed_chat_line_round_trip
        (raw_tags user channel message data : str) :
  forallb (fun c => negb (N.eqb 32 c)) raw_tags = true ->
  Server.is_name user = true -> Server.is_name channel = true ->
  is_text message = true -> hd 0%N message <> 1%N ->
  In (WsSend data) (irc_submit channel message) ->
  from_raw (Server.relayed raw_tags user data)
  = Ok (Chat (ChatMessage.Build (Server.relayed raw_tags user data)
                                (py "PRIVMSG") channel user message
                                (_parse_tags raw_tags))).
Proof.
  intros Htags Hu Hc Hm Hh Hin.
  assert (Edata : data = py "PRIVMSG #" ++ channel ++ py " :" ++ message)
    by (destruct Hin as [Hin | [Hin | []]];
        [now inversion Hin | discriminate Hin]).
  subst data. clear Hin.
  destruct (@command_fields user (py "PRIVMSG") channel Hu eq_refl Hc)
    as (Hstrip & _ & Hping & _ & Hcolon & Huser & Htype & Hparams & Hchan).
  remember (Server.relayed raw_tags user
              (py "PRIVMSG #" ++ channel ++ py " :" ++ message))
    as raw eqn:Eraw.
  assert (Hsplit : split (py " :") raw
                   = (py "@" ++ raw_tags)
                       :: Server.command user (py "PRIVMSG") channel
                       :: split (py " :") message).
  { assert (Eshape : raw
                     = (py "@" ++ raw_tags) ++ py " :"
                         ++ Server.command user (py "PRIVMSG") channel
                         ++ py " :" ++ message).
    { subst raw. unfold Server.relayed, Server.command.
      rewrite <- !app_assoc. reflexivity. }
    rewrite Eshape.
    exact (@split_three 32%N 58%N (py "@" ++ raw_tags) _ message
             ltac:(discriminate) Htags (forallb_tl _ _ Hcolon)). }
  unfold from_raw. rewrite Hsplit.
  cbv beta iota zeta.
  rewrite startswith_app. cbv beta iota zeta.
  rewrite Hstrip, Hping, Huser, Htype.
  cbn [bind]. rewrite Hparams. cbn [bind]. rewrite Hchan.
  rewrite (parse_message_text _ Hm Hh). cbn [bind].
  dispatch.
  destruct (is_name_chars _ Hu) as [Hune _].
  destruct (is_name_chars _ Hc) as [Hcne _].
  rewrite !required_nonempty by
    (assumption || (destruct message; [discriminate Hm | discriminate])).
  reflexivity.
Qed.

Lemma relayed_chat_line_round_trip_witness :
  from_raw
    (py "@mod=0;color=#FF0000 :bob!bob@bob.tmi.twitch.tv PRIVMSG #room :hi :) all")
  = Ok (Chat (ChatMessage.Build
                (py "@mod=0;color=#FF0000 :bob!bob@bob.tmi.twitch.tv PRIVMSG #room :hi :) all")
                (py "PRIVMSG") (py "room") (py "bob") (py "hi :) all")
                [(py "mod", py "0"); (py "color", py "#FF0000")])).
Proof.
  exact (@relayed_chat_line_round_trip
           (py "mod=0;color=#FF0000") (py "bob") (py "room")
           (py "hi :) all") (py "PRIVMSG #room :hi :) all")
           eq_refl eq_refl eq_refl eq_refl ltac:(discriminate)
           (or_introl eq_refl)).
Defined.

(** The common part of the two membership lines. *)
Ltac echoed_line verb :=
  match goal with
  | Hu : Server.is_name ?user = true,
    Hc : Server.is_name ?channel = true |- _ =>
      destruct (@command_fields user verb channel Hu eq_refl Hc)
        as (_ & Hstrip & Hping & Hat & Hcolon & Huser & Htype & Hparams
            & Hchan);
      let raw := fresh "raw" in
      let Eraw := fresh "Eraw" in
      remember (py ":" ++ Server.command user verb channel)
        as raw eqn:Eraw;
      assert (Hsplit : split (py " :") raw = [raw])
        by (subst raw;
            exact (@split_one 32%N 58%N
                     (py ":" ++ Server.command user verb channel)
                     Hcolon));
      unfold from_raw; rewrite Hsplit; cbv beta iota zeta;
      rewrite Hat; cbv beta iota zeta;
      rewrite Hstrip, Hping, Huser, Htype;
      cbn [bind]; rewrite Hparams; cbn [bind]; rewrite Hchan;
      cbn [_parse_message bind]; dispatch;
      rewrite !required_nonempty by
        (apply is_name_chars; assumption);
      reflexivity
  end.

Lemma echoed_join_line (user channel : str) :
  Server.is_name user = true -> Server.is_name channel = true ->
  from_raw (Server.echoed user (TwitchIRCClient.join_request channel))
  = Ok (JoinMessage
          (Server.echoed user (TwitchIRCClient.join_request channel))
          (py "JOIN") channel user).
Proof.
  intros Hu Hc.
  replace (Server.echoed user (TwitchIRCClient.join_request channel))
    with (py ":" ++ Server.command user (py "JOIN") channel)
    by (unfold Server.echoed, Server.command,
          TwitchIRCClient.join_request;
        reflexivity).
  echoed_line (py "JOIN").
Qed.

Lemma echoed_part_line (user channel : str) :
  Server.is_name user = true -> Server.is_name channel = true ->
  from_raw (Server.echoed user (TwitchIRCClient.part_request channel))
  = Ok (PartMessage
          (Server.echoed user (TwitchIRCClient.part_request channel))
          (py "PART") channel user).
Proof.
  intros Hu Hc.
  replace (Server.echoed user (TwitchIRCClient.part_request channel))
    with (py ":" ++ Server.command user (py "PART") channel)
    by (unfold Server.echoed, Server.command,
          TwitchIRCClient.part_request;
        reflexivity).
  echoed_line (py "PART").
Qed.

(** X16.  Membership lines come back as they were sent.  The line that
    [join] (or [part]) writes for a channel, echoed by the server with
    the host mask of the user, parses to the [JoinMessage] (or
    [PartMessage]) of that channel and user. *)
Theorem echoed_membership_round_trip (user channel : str) :
  Server.is_name user = true -> Server.is_name channel = true ->
  from_raw (Server.echoed user (TwitchIRCClient.join_request channel))
  = Ok (JoinMessage
          (Server.echoed user (TwitchIRCClient.join_request channel))
          (py "JOIN") channel user)
  /\ from_raw (Server.echoed user (TwitchIRCClient.part_request channel))
     = Ok (PartMessage
             (Server.echoed user (TwitchIRCClient.part_request channel))
             (py "PART") channel user).
Proof.
  intros Hu Hc. split;
    [now apply echoed_join_line | now apply echoed_part_line].
Qed.

Lemma echoed_membership_round_trip_witness :
  from_raw (py ":bob!bob@bob.tmi.twitch.tv JOIN #room")
  = Ok (JoinMessage (py ":bob!bob@bob.tmi.twitch.tv JOIN #room")
                    (py "JOIN") (py "room") (py "bob")).
Proof.
  exact (proj1 (@echoed_membership_round_trip (py "bob") (py "room")
                  eq_refl eq_refl)).
Defined.

(** ** The acknowledgement of capabilities *)

Lemma split_ws_last (w : str) :
  forallb (fun x => negb (is_space x)) w = true ->
  forall cur,
    rev w ++ cur <> [] ->
    split_ws_aux w cur = [rev (rev w ++ cur)].
Proof.
  intros Hw. induction w as [| x w IH]; intros cur Hne.
  - cbn [app split_ws_aux rev] in *.
    destruct cur; [congruence | reflexivity].
  - simpl in Hw. apply andb_true_iff in Hw. destruct Hw as [Hx Hw].
    apply negb_true_iff in Hx.
    cbn [split_ws_aux]. rewrite Hx.
    rewrite (IH Hw (x :: cur)).
    + simpl. now rewrite <- app_assoc.
    + destruct (rev w); discriminate.
Qed.

Lemma rev_nonempty (s : str) : s <> [] -> rev s ++ [] <> [].
Proof.
  intros H E. rewrite app_nil_r in E. apply H.
  rewrite <- (rev_involutive s), E. reflexivity.
Qed.

(** [" ".join(words).split()] gives the words back. *)
Lemma split_ws_join (words : list str) :
  Forall (fun w => is_word w = true) words ->
  split_ws (join (py " ") words) = words.
Proof.
  unfold split_ws. induction 1 as [| w words Hw _ IH]; [reflexivity |].
  destruct (is_word_chars _ Hw) as [Hne Hc].
  destruct words as [| w2 words].
  - cbn [join]. rewrite split_ws_last by (exact Hc || now apply rev_nonempty).
    now rewrite app_nil_r, rev_involutive.
  - rewrite join_cons by discriminate.
    change (w ++ py " " ++ join (py " ") (w2 :: words))
      with (w ++ 32%N :: join (py " ") (w2 :: words)).
    rewrite (@split_ws_word w 32%N _ Hc eq_refl [])
      by now apply rev_nonempty.
    rewrite IH. now rewrite app_nil_r, rev_involutive.
Qed.

Lemma trimmed_is_text (s : str) : trimmed s -> is_text s = true.
Proof.
  intros H. pose proof (trimmed_strip H) as Hs. destruct H as (Hne & _).
  unfold is_text. rewrite Hs, str_eqb_refl.
  destruct s; [congruence | reflexivity].
Qed.

Lemma full_caps_words (caps : list str) :
  Forall (fun cap => forallb (fun c => negb (is_space c)) cap = true)
         caps ->
  Forall (fun w => is_word w = true) (TwitchIRCClient.full_caps caps).
Proof.
  intros H. unfold TwitchIRCClient.full_caps. apply Forall_map.
  eapply Forall_impl; [| exact H]. intros cap Hcap. cbv beta.
  unfold is_word. rewrite forallb_app, Hcap. reflexivity.
Qed.

Lemma full_caps_names (caps : list str) :
  map (slice_from 10) (TwitchIRCClient.full_caps caps) = caps.
Proof.
  unfold TwitchIRCClient.full_caps. rewrite map_map.
  induction caps as [| cap caps IH]; [reflexivity |].
  cbn [map]. rewrite IH. reflexivity.
Qed.

(** X17.  The acknowledgement of a capability request parses back to the
    requested capabilities: for a non-empty list of capabilities without
    whitespace, the line [:tmi.twitch.tv CAP * ACK :] followed by the
    names that [request_capabilities] sent gives the
    [CapabilitiesMessage] that lists the capabilities, prefix removed,
    in order. *)
Theorem acknowledged_capabilities_round_trip (caps : list str) :
  caps <> [] ->
  Forall (fun cap => forallb (fun c => negb (is_space c)) cap = true)
         caps ->
  from_raw (Server.acknowledged (TwitchIRCClient.full_caps caps))
  = Ok (CapabilitiesMessage
          (Server.acknowledged (TwitchIRCClient.full_caps caps))
          (py "CAP * ACK") caps).
Proof.
  intros Hne Hcaps.
  pose proof (full_caps_words Hcaps) as Hwords.
  assert (Htext : is_text (join (py " ") (TwitchIRCClient.full_caps caps))
                  = true).
  { apply trimmed_is_text.
    assert (Hfne : TwitchIRCClient.full_caps caps <> [])
      by (destruct caps; [congruence | discriminate]).
    destruct (exists_last Hfne) as (words & t & E). rewrite E in *.
    apply Forall_app in Hwords. destruct Hwords as [Hw Ht].
    apply trimmed_join; [exact Hw |].
    inversion Ht; subst. now apply is_text_trimmed, is_word_text. }
  assert (Hhd : hd 0%N (join (py " ") (TwitchIRCClient.full_caps caps))
                <> 1%N).
  { destruct caps as [| cap [| cap2 caps]]; [congruence | |];
      cbn [TwitchIRCClient.full_caps map join]; discriminate. }
  remember (Server.acknowledged (TwitchIRCClient.full_caps caps))
    as raw eqn:Eraw.
  assert (Hsplit : split (py " :") raw
                   = py ":tmi.twitch.tv CAP * ACK"
                       :: split (py " :")
                            (join (py " ")
                                  (TwitchIRCClient.full_caps caps))).
  { subst raw.
    exact (@split_two 32%N 58%N (py ":tmi.twitch.tv CAP * ACK") _
             ltac:(discriminate) eq_refl). }
  unfold from_raw. rewrite Hsplit. cbv beta iota zeta.
  assert (E1 : startswith (py "@") (py ":tmi.twitch.tv CAP * ACK") = false)
    by reflexivity.
  assert (E2 : strip_chars (py ":") (py ":tmi.twitch.tv CAP * ACK")
               = py "tmi.twitch.tv CAP * ACK")
    by (vm_compute; reflexivity).
  assert (E3 : startswith (py "PING") (py "tmi.twitch.tv CAP * ACK")
               = false)
    by reflexivity.
  assert (E4 : _parse_type (py "tmi.twitch.tv CAP * ACK")
               = Ok (py "CAP * ACK"))
    by (vm_compute; reflexivity).
  assert (E5 : _parse_params (py "tmi.twitch.tv CAP * ACK")
                             (py "CAP * ACK") = Ok None)
    by (vm_compute; reflexivity).
  rewrite E1. cbv beta iota zeta. rewrite E2, E3, E4. cbn [bind].
  rewrite E5. cbn [bind].
  rewrite (parse_message_text _ Htext Hhd). cbn [bind].
  dispatch.
  rewrite required_nonempty
    by (destruct (join (py " ") (TwitchIRCClient.full_caps caps));
        [discriminate Htext | discriminate]).
  cbn [bind]. rewrite (split_ws_join Hwords), full_caps_names.
  reflexivity.
Qed.

Lemma acknowledged_capabilities_round_trip_witness :
  from_raw
    (py ":tmi.twitch.tv CAP * ACK :twitch.tv/commands twitch.tv/tags")
  = Ok (CapabilitiesMessage
          (py ":tmi.twitch.tv CAP * ACK :twitch.tv/commands twitch.tv/tags")
          (py "CAP * ACK") [py "commands"; py "tags"]).
Proof.
  exact (@acknowledged_capabilities_round_trip
           [py "commands"; py "tags"] ltac:(discriminate)
           ltac:(repeat constructor)).
Defined.

(** ** Lines as they arrive on the socket *)

Lemma rev_head (p : char -> bool) (s : str) :
  s <> [] -> forallb p s = true ->
  exists c t, rev s = c :: t /\ p c = true.
Proof.
  intros Hne Hp. apply forallb_rev in Hp.
  destruct (rev s) as [| c t] eqn:E.
  - exfalso. apply Hne. rewrite <- (rev_involutive s), E. reflexivity.
  - exists c, t. split; [reflexivity |]. simpl in Hp.
    apply andb_true_iff in Hp. now destruct Hp.
Qed.

Lemma dropwhile_all (p : char -> bool) (a b : str) :
  forallb p a = true -> dropwhile p (a ++ b) = dropwhile p b.
Proof.
  induction a as [| c a IH]; intros H; [reflexivity |].
  simpl in H. apply andb_true_iff in H. destruct H as [Hc Ha].
  simpl. rewrite Hc. now apply IH.
Qed.

(** [strip()] takes the line terminator off a trimmed line. *)
Lemma strip_trailing (s ws : str) :
  trimmed s -> forallb is_space ws = true -> strip (s ++ ws) = s.
Proof.
  intros (Hne & H1 & H2) Hws. unfold strip, strip_with.
  assert (E1 : dropwhile is_space (s ++ ws) = s ++ ws).
  { destruct s as [| c s]; [congruence |]. simpl in H1 |- *.
    destruct (is_space c); [| reflexivity].
    exfalso. pose proof (dropwhile_length is_space s) as L.
    apply (f_equal (@List.length _)) in H1. simpl in H1. lia. }
  rewrite E1, rev_app_distr.
  rewrite dropwhile_all by now apply forallb_rev.
  rewrite H2. apply rev_involutive.
Qed.

Lemma echoed_trimmed (user verb channel : str) :
  Server.is_name user = true -> Server.is_verb verb = true ->
  Server.is_name channel = true ->
  trimmed (py ":" ++ Server.command user verb channel).
Proof.
  intros Hu Hv Hc. destruct (is_name_chars _ Hc) as [Hcne Hcc].
  split; [discriminate |]. split; [reflexivity |].
  change (py ":" ++ Server.command user verb channel)
    with (58%N :: Server.command user verb channel).
  unfold Server.command.
  cbn [rev]. rewrite !rev_app_distr.
  destruct (@rev_head is_name_char channel Hcne Hcc) as (c & t & E & Hn).
  rewrite E. rewrite <- !app_assoc. cbn [app dropwhile].
  apply name_char_not_space in Hn. apply negb_true_iff in Hn.
  now rewrite Hn.
Qed.

End ParsedLines.

(* ================================================================== *)
(** * From the socket to the state *)
(* ================================================================== *)

Section Receiving.

Import Command Bot MessageParser.

(** X19.  A JOIN line that arrives on the socket for a channel the bot
    tracks adds the user to the users of that channel and changes the
    membership of nobody else, without output; for a channel the bot does
    not track, the polling task ends with [AttributeError].  The line is
    the one the server echoes for [join], with its line terminator. *)
Theorem received_join_line
        (console_handler : str -> option BaseChannel.t -> Message -> World ->
                           result (World * list Output))
        (w : World) (user key : str) :
  Server.is_name user = true -> Server.is_name key = true ->
  match get (BaseBot.channels (bot w)) key with
  | Some ch =>
      exists w1,
        poll_irc console_handler w
          (Server.echoed user (TwitchIRCClient.join_request key)
             ++ [13%N; 10%N])
        = Ok (w1, [])
        /\ mem user (users_in w1 key) = true
        /\ forall other,
            other <> user ->
            mem other (users_in w1 key) = mem other (users_in w key)
  | None =>
      poll_irc console_handler w
        (Server.echoed user (TwitchIRCClient.join_request key)
           ++ [13%N; 10%N])
      = Raise AttributeError
  end.
Proof.
  intros Hu Hk.
  pose proof (@echoed_join_line user key Hu Hk) as Hline.
  assert (Hshape : Server.echoed user (TwitchIRCClient.join_request key)
                   = py ":" ++ Server.command user (py "JOIN") key)
    by reflexivity.
  assert (Hstrip : strip (Server.echoed user
                            (TwitchIRCClient.join_request key)
                            ++ [13%N; 10%N])
                   = Server.echoed user (TwitchIRCClient.join_request key)).
  { rewrite Hshape. apply strip_trailing; [| reflexivity].
    now apply echoed_trimmed. }
  assert (Hsplit : split [13%N; 10%N]
                     (Server.echoed user (TwitchIRCClient.join_request key))
                   = [Server.echoed user
                        (TwitchIRCClient.join_request key)]).
  { rewrite Hshape.
    apply (@split_one 13%N 10%N
             (py ":" ++ Server.command user (py "JOIN") key)).
    change (tl (py ":" ++ Server.command user (py "JOIN") key))
      with (Server.command user (py "JOIN") key).
    apply command_chars; try assumption; try reflexivity.
    - intros c. apply name_char_other. lia.
    - intros c Hr _. apply negb_true_iff, N.eqb_neq. lia. }
  unfold poll_irc. rewrite Hstrip, Hsplit.
  remember (Server.echoed user (TwitchIRCClient.join_request key))
    as raw eqn:Eraw.
  cbn [handle_lines]. rewrite Hline. cbn [bind].
  destruct (get (BaseBot.channels (bot w)) key) as [ch |] eqn:Hget.
  - set (ch1 := with_users ch
                  (set_add user (UserData.users
                                   (BaseChannel.userdata ch)))).
    destruct (@users_in_updated w key ch ch1 Hget) as [Hu1 _].
    exists (update_channel w key (fun _ => ch1)).
    split; [| split].
    + unfold message_handler. simpl. rewrite Hget. reflexivity.
    + rewrite Hu1. simpl. rewrite mem_set_add, str_eqb_refl.
      apply orb_true_r.
    + intros other Hne. rewrite Hu1. simpl. rewrite mem_set_add.
      apply str_eqb_neq in Hne. rewrite Hne.
      unfold users_in. rewrite Hget. apply orb_false_r.
  - unfold message_handler. simpl. rewrite Hget. reflexivity.
Qed.

Lemma received_join_line_witness :
  exists w1,
    poll_irc (fun _ _ _ w => Ok (w, []))
             (Sample.world_with Sample.room)
             (Server.echoed (py "bob")
                (TwitchIRCClient.join_request (py "room"))
                ++ [13%N; 10%N])
    = Ok (w1, [])
    /\ mem (py "bob") (users_in w1 (py "room")) = true.
Proof.
  destruct (@received_join_line (fun _ _ _ w => Ok (w, []))
              (Sample.world_with Sample.room) (py "bob") (py "room")
              eq_refl eq_refl) as (w1 & H1 & H2 & _).
  exists w1. split; assumption.
Defined.

Lemma mem_set_update (x : str) (xs s : list str) :
  mem x (set_update xs s) = mem x s || mem x xs.
Proof.
  unfold set_update. revert s.
  induction xs as [| y xs IH]; intros s; simpl.
  - now rewrite orb_false_r.
  - rewrite IH, mem_set_add. rewrite <- orb_assoc. reflexivity.
Qed.

Lemma mem_to_set (x : str) (xs : list str) :
  mem x (to_set xs) = mem x xs.
Proof.
  induction xs as [| y xs IH]; [reflexivity |].
  cbn [to_set]. destruct (mem y xs) eqn:Ey.
  - rewrite IH.
    change (mem x (y :: xs)) with (str_eqb x y || mem x xs).
    destruct (str_eqb x y) eqn:E; [| reflexivity].
    apply str_eqb_eq in E. subst y. now rewrite Ey.
  - change (mem x (y :: to_set xs))
      with (str_eqb x y || mem x (to_set xs)).
    change (mem x (y :: xs)) with (str_eqb x y || mem x xs).
    now rewrite IH.
Qed.

(** X22.  A names list (353) for a channel the bot tracks adds every
    listed user to the users of the channel and removes nobody: after
    the handler, a user is a member exactly when it was one before or is
    on the list. *)
Theorem names_add_all
        (console_handler : str -> option BaseChannel.t -> Message -> World ->
                           result (World * list Output))
        (w : World) (key : str) (ch : BaseChannel.t) (raw : str)
        (users : list str) :
  get (BaseBot.channels (bot w)) key = Some ch ->
  exists w1,
    message_handler console_handler w
                    (NamesMessage raw (py "353") key users)
    = Ok (w1, [])
    /\ forall x,
        mem x (users_in w1 key) = mem x (users_in w key) || mem x users.
Proof.
  intros Hget.
  set (ch1 := with_users ch
                (set_update (to_set users)
                   (UserData.users (BaseChannel.userdata ch)))).
  destruct (@users_in_updated w key ch ch1 Hget) as [Hu1 _].
  exists (update_channel w key (fun _ => ch1)). split.
  - unfold message_handler. simpl. rewrite Hget. reflexivity.
  - intros x. rewrite Hu1. simpl.
    rewrite mem_set_update, mem_to_set.
    unfold users_in. now rewrite Hget.
Qed.

Lemma names_add_all_witness :
  exists w1,
    message_handler (fun _ _ _ w => Ok (w, []))
                    (Sample.world_with Sample.room)
                    (NamesMessage (py "raw") (py "353") (py "room")
                                  [py "ann"; py "bob"; py "ann"])
    = Ok (w1, [])
    /\ mem (py "bob") (users_in w1 (py "room")) = true.
Proof.
  destruct (@names_add_all (fun _ _ _ w => Ok (w, []))
              (Sample.world_with Sample.room) (py "room") Sample.room
              (py "raw") [py "ann"; py "bob"; py "ann"] eq_refl)
    as (w1 & H1 & H2).
  exists w1. split; [exact H1 |]. rewrite H2. reflexivity.
Defined.

(** ** The keepalive *)

Lemma split_aux_head (sep s : str) :
  forall cur,
    exists x more, split_aux sep None s 0 cur = (rev cur ++ x) :: more.
Proof.
  induction s as [| c s IH]; intros cur.
  - exists [], []. simpl. now rewrite app_nil_r.
  - cbn [split_aux]. destruct (startswith sep (c :: s)).
    + exists [], (split_aux sep (option_map pred None) s
                            (List.length sep - 1) []).
      now rewrite app_nil_r.
    + destruct (IH (c :: cur)) as (x & more & E).
      exists (c :: x), more. rewrite E. simpl.
      now rewrite <- app_assoc.
Qed.

(** The first piece of a line begins with the beginning of the line,
    as far as that has none of the separator's first character. *)
Lemma split_first_piece (h : char) (sep p rest : str) :
  forallb (fun c => negb (N.eqb h c)) p = true ->
  exists x more, split (h :: sep) (p ++ rest) = (p ++ x) :: more.
Proof.
  intros Hp. unfold split.
  assert (G : forall cur,
             exists x more,
               split_aux (h :: sep) None (p ++ rest) 0 cur
               = (rev cur ++ p ++ x) :: more).
  { induction p as [| c p IH]; intros cur.
    - destruct (split_aux_head (h :: sep) rest cur) as (x & more & E).
      exists x, more. exact E.
    - simpl in Hp. apply andb_true_iff in Hp. destruct Hp as [Hc Hp].
      apply negb_true_iff in Hc.
      cbn [app split_aux startswith]. rewrite Hc. cbn [andb].
      destruct (IH Hp (c :: cur)) as (x & more & E).
      exists x, more. rewrite E. simpl. now rewrite <- app_assoc. }
  destruct (G []) as (x & more & E). exists x, more. exact E.
Qed.

Lemma dropwhile_keeps (p : char -> bool) (g : char) (m : str) :
  p g = false ->
  forall l, exists z, dropwhile p (l ++ g :: m) = z ++ g :: m.
Proof.
  intros Hg. induction l as [| c l IH].
  - exists []. simpl. now rewrite Hg.
  - simpl. destruct (p c).
    + exact IH.
    + exists (c :: l). reflexivity.
Qed.

(** Stripping leaves a beginning alone whose first and last characters
    are not stripped. *)
Lemma strip_with_prefix (p : char -> bool) (c0 : char) (a : str)
      (g : char) (x : str) :
  p c0 = false -> p g = false ->
  exists y, strip_with p ((c0 :: a) ++ g :: x) = (c0 :: a) ++ g :: y.
Proof.
  intros H0 Hg. unfold strip_with.
  assert (E1 : dropwhile p ((c0 :: a) ++ g :: x) = (c0 :: a) ++ g :: x)
    by (simpl; now rewrite H0).
  rewrite E1.
  assert (Er : rev ((c0 :: a) ++ g :: x) = rev x ++ g :: rev (c0 :: a)).
  { rewrite rev_app_distr. cbn [rev]. now rewrite <- app_assoc. }
  rewrite Er.
  destruct (@dropwhile_keeps p g (rev (c0 :: a)) Hg (rev x)) as (z & Ez).
  rewrite Ez. exists (rev z).
  rewrite rev_app_distr. cbn [rev]. rewrite rev_app_distr.
  rewrite rev_involutive. cbn [rev app].
  rewrite <- !app_assoc. reflexivity.
Qed.

(** X23.  The keepalive is always answered: a line that begins with
    [PING], whatever follows, parses to a [PingMessage] and the handler
    replies [PONG :tmi.twitch.tv] on the socket, leaving the bot as it
    is. *)
Theorem ping_is_answered
        (console_handler : str -> option BaseChannel.t -> Message -> World ->
                           result (World * list Output))
        (w : World) (rest : str) :
  from_raw (py "PING" ++ rest)
  = Ok (PingMessage (py "PING" ++ rest) (py "PING"))
  /\ exists out,
      handle_lines console_handler w [py "PING" ++ rest]
      = Ok (w, WsSend (py "PONG :tmi.twitch.tv") :: out).
Proof.
  assert (Hparse : from_raw (py "PING" ++ rest)
                   = Ok (PingMessage (py "PING" ++ rest) (py "PING"))).
  { destruct (@split_first_piece 32%N [58%N] (py "PING") rest eq_refl)
      as (x & more & Hsplit).
    remember (py "PING" ++ rest) as raw eqn:Eraw.
    unfold from_raw.
    assert (Hsplit' : split (py " :") raw = (py "PING" ++ x) :: more)
      by exact Hsplit.
    rewrite Hsplit'. cbv beta iota zeta.
    assert (Eat : startswith (py "@") (py "PING" ++ x) = false)
      by reflexivity.
    rewrite Eat. cbv beta iota zeta.
    destruct (@strip_with_prefix
                (fun c => existsb (N.eqb c) (py ":"))
                80%N [73%N; 78%N] 71%N x eq_refl eq_refl) as (y & Ey).
    assert (Estrip : strip_chars (py ":") (py "PING" ++ x)
                     = py "PING" ++ y) by exact Ey.
    rewrite Estrip.
    assert (Eping : startswith (py "PING") (py "PING" ++ y) = true)
      by apply startswith_app.
    rewrite Eping. reflexivity. }
  split; [exact Hparse |].
  cbn [handle_lines]. rewrite Hparse. cbn [bind].
  remember (py "PING" ++ rest) as raw eqn:Eraw.
  unfold message_handler. cbn [msg_type].
  change (mem (py "PING") ignored) with false. cbv iota.
  change (str_eqb (py "PING") (py "001")) with false. cbv iota.
  change (str_eqb (py "PING") (py "CAP * ACK")) with false. cbv iota.
  change (str_eqb (py "PING") (py "PING")) with true. cbv iota.
  unfold _handle_ping. cbn [bind fst snd]. cbv zeta.
  eexists. cbn [app]. rewrite app_nil_r. reflexivity.
Qed.

End Receiving.

(* ================================================================== *)
(** * The timer that lifts expired cooldowns *)
(* ================================================================== *)

Section Expiry.

Import Command Default.

Lemma expired_iff (v c : Q) :
  Qle_bool (Qminus v c) 0 = true <-> Qle v c.
Proof. rewrite Qle_bool_iff. split; intros; lra. Qed.

Lemma running_iff (v c : Q) :
  Qle_bool (Qminus v c) 0 = false <-> Qlt c v.
Proof.
  rewrite <- not_true_iff_false, expired_iff. split; intros; lra.
Qed.

Lemma get_In (V : Type) (d : dict V) (k : str) (v : V) :
  get d k = Some v -> In (k, v) d.
Proof.
  induction d as [| [k0 v0] d IH]; simpl; [discriminate |].
  destruct (str_eqb k k0) eqn:E; intros H.
  - apply str_eqb_eq in E. inversion H; subst. now left.
  - right. now apply IH.
Qed.

Lemma unexpired_In (clock : Clock) (d : dict Q) :
  forall i k v,
    In (k, v) (fst (unexpired clock i d)) -> In (k, v) d.
Proof.
  induction d as [| [k0 v0] d IH]; intros i k v H; [exact H |].
  cbn [unexpired] in H.
  destruct (unexpired clock (S i) d) as [rest j] eqn:E.
  specialize (IH (S i) k v). rewrite E in IH.
  destruct (negb (Qle_bool (Qminus v0 (clock i)) 0)); cbn [fst] in H.
  - destruct H as [H | H]; [now left | right; now apply IH].
  - right. now apply IH.
Qed.

(** A name whose every entry has expired is gone from the table. *)
Lemma unexpired_expired (clock : Clock) (k : str) (d : dict Q) :
  forall i,
    (forall e j, In (k, e) d -> Qle e (clock j)) ->
    get (fst (unexpired clock i d)) k = None.
Proof.
  induction d as [| [k0 v0] d IH]; intros i H; [reflexivity |].
  cbn [unexpired].
  destruct (unexpired clock (S i) d) as [rest j] eqn:E.
  assert (IH' : get rest k = None).
  { specialize (IH (S i)). rewrite E in IH. apply IH.
    intros e j' Hin. apply H. now right. }
  destruct (negb (Qle_bool (Qminus v0 (clock i)) 0)) eqn:Ek;
    cbn [fst]; [| exact IH'].
  cbn [get]. destruct (str_eqb k k0) eqn:Ekk; [| exact IH'].
  apply str_eqb_eq in Ekk. subst k0.
  apply negb_true_iff, running_iff in Ek.
  pose proof (H v0 i (or_introl eq_refl)). lra.
Qed.

(** A cooldown that no reading of the clock has reached stays. *)
Lemma unexpired_running (clock : Clock) (k : str) (e : Q) (d : dict Q) :
  (forall j, Qlt (clock j) e) ->
  forall i,
    get d k = Some e -> get (fst (unexpired clock i d)) k = Some e.
Proof.
  intros Hrun. induction d as [| [k0 v0] d IH]; intros i H;
    [discriminate |].
  cbn [unexpired].
  destruct (unexpired clock (S i) d) as [rest j] eqn:E.
  specialize (IH (S i)). rewrite E in IH. cbn [fst] in IH.
  cbn [get] in H. destruct (str_eqb k k0) eqn:Ekk.
  - inversion H; subst v0.
    assert (Ek : Qle_bool (Qminus e (clock i)) 0 = false)
      by (apply running_iff, Hrun).
    rewrite Ek. cbn [negb fst get]. now rewrite Ekk.
  - destruct (negb (Qle_bool (Qminus v0 (clock i)) 0)); cbn [fst get];
      [rewrite Ekk |]; now apply IH.
Qed.

Lemma unexpired_users_In (clock : Clock) (u : dict (dict Q)) :
  forall i user inner',
    In (user, inner') (fst (unexpired_users clock i u)) ->
    exists inner j,
      In (user, inner) u /\ inner' = fst (unexpired clock j inner).
Proof.
  induction u as [| [u0 c0] u IH]; intros i user inner' H; [destruct H |].
  cbn [unexpired_users] in H.
  destruct (unexpired clock i c0) as [c0' j] eqn:E0.
  destruct (unexpired_users clock j u) as [rest k] eqn:E.
  cbn [fst] in H. destruct H as [H | H].
  - inversion H; subst. exists c0, i. split; [now left |].
    now rewrite E0.
  - specialize (IH j user inner'). rewrite E in IH.
    destruct (IH H) as (inner & j' & Hin & Heq).
    exists inner, j'. split; [now right | exact Heq].
Qed.

Lemma filter_get_In (V : Type) (f : str * V -> bool) (d : dict V)
      (k : str) (v : V) :
  get (filter f d) k = Some v -> In (k, v) d.
Proof.
  intros H. apply get_In in H. apply filter_In in H. now destruct H.
Qed.

Lemma unexpired_users_running (clock : Clock) (user name : str)
      (inner : dict Q) (e : Q) (u : dict (dict Q)) :
  (forall j, Qlt (clock j) e) ->
  get inner name = Some e ->
  forall i,
    get u user = Some inner ->
    exists inner',
      get (filter (fun kv => match snd kv with
                             | [] => false
                             | _ :: _ => true
                             end)
                  (fst (unexpired_users clock i u))) user
      = Some inner'
      /\ get inner' name = Some e.
Proof.
  intros Hrun Hname. induction u as [| [u0 c0] u IH]; intros i H;
    [discriminate |].
  cbn [unexpired_users].
  destruct (unexpired clock i c0) as [c0' j] eqn:E0.
  destruct (unexpired_users clock j u) as [rest k] eqn:E.
  specialize (IH j). rewrite E in IH. cbn [fst] in IH |- *.
  cbn [get] in H. destruct (str_eqb user u0) eqn:Eu.
  - inversion H; subst c0.
    pose proof (@unexpired_running clock name e inner Hrun i Hname) as Hk.
    rewrite E0 in Hk. cbn [fst] in Hk.
    exists c0'. cbn [filter snd].
    destruct c0' as [| kv c0']; [discriminate Hk |].
    cbn [get]. rewrite Eu. split; [reflexivity | exact Hk].
  - cbn [filter snd]. destruct c0'; [now apply IH |].
    cbn [get]. rewrite Eu. now apply IH.
Qed.

Lemma update_channels_get (clock : Clock) (key : str)
      (ch : BaseChannel.t) (channels : dict BaseChannel.t) :
  forall i,
    get channels key = Some ch ->
    exists i',
      get (fst (update_channels clock i channels)) key
      = Some (fst (update_channel_cooldowns clock i' ch)).
Proof.
  induction channels as [| [k0 c0] channels IH]; intros i H;
    [discriminate |].
  cbn [update_channels].
  destruct (update_channel_cooldowns clock i c0) as [c0' j] eqn:E0.
  destruct (update_channels clock j channels) as [rest k] eqn:E.
  specialize (IH j). rewrite E in IH. cbn [fst get] in *.
  destruct (str_eqb key k0).
  - inversion H; subst c0. exists i. now rewrite E0.
  - now apply IH.
Qed.

(** X18.  [update_command_cooldowns] lifts the cooldowns that have
    expired and no others.  After it has run on a channel, a command
    whose entries in the channel's table (or in the table of the
    message's user) have all been reached by the clock is no longer
    reported by [check_cooldowns]; a command with a cooldown that no
    reading of the clock has reached is still reported.  The timer
    changes nothing else of the channel, and it treats every channel of
    the bot in this way. *)
Theorem cooldowns_expire (clock : Clock) (i : nat) (ch : BaseChannel.t)
        (cmd : t) (msg : ChatMessage.t) :
  ((forall e j, In (name cmd, e) (BaseChannel.cooldowns ch) ->
                Qle e (clock j)) ->
   DenialReason.has
     (check_cooldowns cmd (fst (update_channel_cooldowns clock i ch)) msg)
     DenialReason.GLOBAL_COOLDOWN = false)
  /\ ((forall inner e j,
          In (ChatMessage.user msg, inner)
             (UserData.cooldowns (BaseChannel.userdata ch)) ->
          In (name cmd, e) inner -> Qle e (clock j)) ->
      DenialReason.has
        (check_cooldowns cmd (fst (update_channel_cooldowns clock i ch))
                         msg)
        DenialReason.USER_COOLDOWN = false)
  /\ (forall e,
         get (BaseChannel.cooldowns ch) (name cmd) = Some e ->
         (forall j, Qlt (clock j) e) ->
         DenialReason.has
           (check_cooldowns cmd
              (fst (update_channel_cooldowns clock i ch)) msg)
           DenialReason.GLOBAL_COOLDOWN = true)
  /\ (forall inner e,
         get (UserData.cooldowns (BaseChannel.userdata ch))
             (ChatMessage.user msg) = Some inner ->
         get inner (name cmd) = Some e ->
         (forall j, Qlt (clock j) e) ->
         DenialReason.has
           (check_cooldowns cmd
              (fst (update_channel_cooldowns clock i ch)) msg)
           DenialReason.USER_COOLDOWN = true)
  /\ (BaseChannel.messenger (fst (update_channel_cooldowns clock i ch))
      = BaseChannel.messenger ch
      /\ UserData.users
           (BaseChannel.userdata
              (fst (update_channel_cooldowns clock i ch)))
         = UserData.users (BaseChannel.userdata ch))
  /\ (forall (w : World) (key : str),
         get (BaseBot.channels (bot w)) key = Some ch ->
         exists i',
           get (BaseBot.channels
                  (bot (fst (update_command_cooldowns clock i w)))) key
           = Some (fst (update_channel_cooldowns clock i' ch))).
Proof.
  assert (Hworld :
            forall (w : World) (key : str),
              get (BaseBot.channels (bot w)) key = Some ch ->
              exists i',
                get (BaseBot.channels
                       (bot (fst (update_command_cooldowns clock i w))))
                    key
                = Some (fst (update_channel_cooldowns clock i' ch))).
  { intros w key Hget. unfold update_command_cooldowns.
    destruct (@update_channels_get clock key ch
                (BaseBot.channels (bot w)) i Hget) as (i' & Hi').
    destruct (update_channels clock i (BaseBot.channels (bot w)))
      as [chs k'] eqn:Ech.
    cbn [fst] in *. exists i'. exact Hi'. }
  destruct (check_cooldowns_bits cmd
              (fst (update_channel_cooldowns clock i ch)) msg)
    as [Hg Hu].
  rewrite Hg, Hu. clear Hg Hu.
  unfold update_channel_cooldowns at 1 2 3 4 5 6.
  destruct (unexpired clock i (BaseChannel.cooldowns ch))
    as [cds j] eqn:Ec.
  destruct (unexpired_users clock j
              (UserData.cooldowns (BaseChannel.userdata ch)))
    as [per_user k] eqn:Eu.
  cbn [fst BaseChannel.with_userdata BaseChannel.with_cooldowns
       BaseChannel.cooldowns BaseChannel.userdata UserData.cooldowns
       BaseChannel.messenger UserData.users].
  split; [| split; [| split; [| split; [| split]]]].
  - intros H. unfold has_key.
    pose proof (@unexpired_expired clock (name cmd)
                  (BaseChannel.cooldowns ch) i H) as Hn.
    rewrite Ec in Hn. cbn [fst] in Hn. now rewrite Hn.
  - intros H.
    match goal with
    | |- match ?g with Some _ => _ | None => _ end = false =>
        destruct g as [inner' |] eqn:Eg
    end; [| reflexivity].
    apply filter_get_In in Eg.
    pose proof (@unexpired_users_In clock
                  (UserData.cooldowns (BaseChannel.userdata ch)) j
                  (ChatMessage.user msg) inner') as Hin.
    rewrite Eu in Hin. destruct (Hin Eg) as (inner & j' & Hi & ->).
    unfold has_key.
    rewrite unexpired_expired; [reflexivity |].
    intros e j0 He. exact (H inner e j0 Hi He).
  - intros e Hget Hrun. unfold has_key.
    pose proof (@unexpired_running clock (name cmd) e
                  (BaseChannel.cooldowns ch) Hrun i Hget) as Hk.
    rewrite Ec in Hk. cbn [fst] in Hk. now rewrite Hk.
  - intros inner e Hget Hname Hrun.
    destruct (@unexpired_users_running clock (ChatMessage.user msg)
                (name cmd) inner e
                (UserData.cooldowns (BaseChannel.userdata ch))
                Hrun Hname j Hget) as (inner' & Hg' & Hn').
    rewrite Eu in Hg'. cbn [fst] in Hg'.
    match goal with
    | |- match ?g with Some _ => _ | None => _ end = true =>
        replace g with (Some inner') by (symmetry; exact Hg')
    end.
    unfold has_key. now rewrite Hn'.
  - split; reflexivity.
  - exact Hworld.
Qed.

End Expiry.

(* ================================================================== *)
(** * The command [say], from the chat message to the send queue *)
(* ================================================================== *)

Section Say.

Import Command Default.

Lemma register_say_fields (registry registry' : dict t) (func : nat)
      (cmd : t) :
  register_say registry func = Ok (cmd, registry') ->
  cmd = Build func (py "say") (Some (py "<message+>"))
              (py "Repeat the text given to the bot.")
              CommandPerm.MOD None [] 0 0 false true
              [Param (Parameter_.Build (py "message") true
                                       CommandPerm.NONE None true)]
              [].
Proof.
  unfold register_say, init.
  assert (E : Parameters_.from_syntax (Some (py "<message+>"))
              = Ok [Param (Parameter_.Build (py "message") true
                                            CommandPerm.NONE None true)])
    by (vm_compute; reflexivity).
  rewrite E. cbn [bind]. intros H. inversion H. reflexivity.
Qed.

(** The one parameter of [say] takes the whole argument string,
    stripped. *)
Lemma parse_args_remainder (p : Parameter_.t) (text : str)
      (role : UserRole.t) :
  Parameter_.remainder p = true ->
  Parameters_.has_options p = false ->
  (CommandPerm.value (Parameter_.perm p) <= role)%N ->
  text <> [] ->
  Parameters_.parse_args [Param p] (Some text) role
  = Ok [(Parameter_.name p, strip text)].
Proof.
  intros Hrem Hopt Hperm Hne.
  rewrite parse_args_given by (discriminate || exact Hne).
  cbv zeta. unfold Parameters_.last_is_remainder.
  cbn [last List.length Nat.sub]. rewrite Hrem.
  unfold split_max. rewrite split_aux_spent.
  rewrite app_nil_r, rev_involutive.
  cbn [filter Parameters_.counts_as_required List.length].
  destruct (Parameter_.required p); cbn [List.length Nat.leb andb negb];
    cbn [Parameters_.walk]; rewrite Hopt; cbn [andb];
    apply N.ltb_ge in Hperm; rewrite Hperm; reflexivity.
Qed.

(** X20.  A moderator's [say] reaches the send queue.  When a chat
    message [start text] triggers the command registered for
    [repeat_message], the sender's role reaches MOD, and no cooldown or
    blacklist entry denies it, [check_command] enqueues the stripped text
    on the channel of the message and does nothing else: no output, no
    cooldown. *)
Theorem say_repeats_text
        (call : nat -> BaseContext.t -> World ->
                result unit * World * list Output)
        (error_text : exn -> str)
        (w : World) (registry : dict t) (func : nat) (cmd : t)
        (msg : ChatMessage.t) (ch : BaseChannel.t) (role : UserRole.t)
        (start text : str) (tg tu : Q) :
  register_say registry func = Ok (cmd, commands w) ->
  (forall ctx w', call func ctx w' = repeat_message ctx w') ->
  ChatMessage.message msg = start ++ py " " ++ text ->
  forallb (fun c => negb (N.eqb 32 c)) start = true ->
  text <> [] ->
  triggered w msg = Some cmd ->
  get (BaseBot.channels (bot w)) (ChatMessage.channel msg) = Some ch ->
  ChatMessage.user msg <> [] -> ChatMessage.channel msg <> [] ->
  UserRole.from_message (BaseBot.ranks (bot w)) msg = Ok role ->
  (UserRole.MOD <= role)%N ->
  check_cooldowns cmd ch msg = DenialReason.NONE ->
  mem (ChatMessage.user msg) (Ranks.blacklist (BaseBot.ranks (bot w)))
  = false ->
  check_command call error_text w msg tg tu
  = Ok (update_channel w (ChatMessage.channel msg)
          (fun ch => BaseChannel.send ch (strip text)),
        []).
Proof.
  intros Hreg Hcall Hmsg Hstart Htext Htrig Hget Huser Hchan Hrole Hmod
         Hcd Hbl.
  apply register_say_fields in Hreg.
  assert (Hargs : start_and_args (ChatMessage.message msg)
                  = (start, Some text)).
  { unfold start_and_args. rewrite Hmsg.
    assert (E : split_max (py " ") 1 (start ++ py " " ++ text)
                = [start; text])
      by exact (@split_max_join 32%N [start] text
                  (Forall_cons _ Hstart (Forall_nil _))).
    now rewrite E. }
  unfold check_command.
  assert (Hassert : nonempty (ChatMessage.message msg)
                    && nonempty (ChatMessage.user msg)
                    && nonempty (ChatMessage.channel msg) = true).
  { rewrite Hmsg.
    destruct (ChatMessage.user msg); [congruence |].
    destruct (ChatMessage.channel msg); [congruence |].
    destruct start; reflexivity. }
  rewrite Hassert. cbn [assert bind]. unfold getitem. rewrite Hget.
  cbn [bind]. rewrite Htrig, Hrole. cbn [bind]. cbv zeta.
  assert (Hdenial : denial_reason cmd w ch msg role = DenialReason.NONE).
  { unfold denial_reason. rewrite Hcd. unfold Ranks.check_blacklist.
    rewrite Hbl. subst cmd. cbn [perm].
    unfold CommandPerm.check_role.
    destruct (UserRole.has role UserRole.OWNER); [reflexivity |].
    change (CommandPerm.eqb CommandPerm.MOD CommandPerm.SUB) with false.
    cbv iota.
    assert (E : (CommandPerm.value CommandPerm.MOD <=? role)%N = true)
      by (apply N.leb_le; exact Hmod).
    rewrite E. reflexivity. }
  rewrite Hdenial. cbn [DenialReason.truthy DenialReason.NONE N.eqb negb].
  rewrite Hargs. cbn [snd]. unfold execute. rewrite Hrole. cbn [bind].
  subst cmd. cbn [Command.params Command.func].
  rewrite parse_args_remainder;
    [| reflexivity | reflexivity | apply N.le_0_l | exact Htext].
  rewrite Hcall. unfold repeat_message.
  cbn [BaseContext.args BaseContext.channel Parameter_.name get].
  rewrite str_eqb_refl.
  assert (E : (role <? UserRole.MOD)%N = false) by now apply N.ltb_ge.
  rewrite E. reflexivity.
Qed.

Lemma say_repeats_text_witness :
  check_command Sample.say_body Sample.plain_text Sample.say_world
                (Sample.mod_chat (py "ann") (py "!say  hello world"))
                0%Q 0%Q
  = Ok (update_channel Sample.say_world (py "room")
          (fun ch => BaseChannel.send ch (py "hello world")),
        []).
Proof.
  apply (@say_repeats_text Sample.say_body Sample.plain_text
           Sample.say_world [] 7 Sample.say_command
           (Sample.mod_chat (py "ann") (py "!say  hello world"))
           Sample.room 12%N (py "!say") (py " hello world") 0%Q 0%Q).
  - vm_compute. reflexivity.
  - reflexivity.
  - reflexivity.
  - reflexivity.
  - discriminate.
  - reflexivity.
  - reflexivity.
  - discriminate.
  - discriminate.
  - reflexivity.
  - vm_compute. discriminate.
  - reflexivity.
  - reflexivity.
Defined.

End Say.
